(** * NextECG six-lead pipeline: a shallow embedding and its properties

    The development follows [src/pages/SixLeadECG/ECGVisualizer.jsx] (both
    device variants: the Web-Serial one and the Serial+Bluetooth one that
    adds the beat detector) and [src/pages/SixLeadECG/RiskAnalysis.jsx].

    Modelling conventions.
    - The parse block computes with IEEE 754 doubles: [parseFloat] and
      the arithmetic that derives four leads from two are the correctly
      rounded operations of the Standard Library's [SpecFloat] at
      precision 53 ([F64]).
    - From [valueToMv] on, a number is the exact rational ([Q]) of its
      double and the arithmetic is exact; IEEE rounding is not modelled
      there.  [Math.PI] is the rational value of the double it denotes.
      [NaN] has no rational and is [None] in [option Q].  Division is
      [Qdiv], which gives 0 where the source would get an infinity or
      [NaN] from a zero divisor; no property proved below rests on the
      value of such a division.
    - [Date.now()] is an input of every step, an integer number of
      milliseconds ([Z]).
    - A React state variable is a field of [UiState]; a [useRef] cell is a
      field of [Refs].  A function defined in the component body closes over
      the state values of the render that created it: such a function takes
      that render's [UiState] as its first argument ([env]) and the current
      world as its last.  [setX v] writes the current [UiState], never [env].
    - A JavaScript object used as a dictionary is a [gmap string _].
    - Host built-ins whose result is not a rational function of the input
      ([JSON.parse], [Math.sqrt]) are the fields of the class [Host]. *)

From Stdlib Require Import ZArith QArith Qround Qabs Qminmax Lia Bool Ascii.
From Stdlib Require Import SpecFloat Lqa.
From stdpp Require Import base list strings gmap.

Local Open Scope Z_scope.

(** ** JavaScript numbers *)

Module JS.

Definition Qltb (x y : Q) : bool := negb (Qle_bool y x).
Definition Qgtb (x y : Q) : bool := Qltb y x.
Definition Qgeb (x y : Q) : bool := Qle_bool y x.

Definition Math_floor (x : Q) : Z := Qfloor x.
(** [Math.round] rounds half-way cases towards plus infinity. *)
Definition Math_round (x : Q) : Z := Qfloor (x + (1 # 2)).
Definition Math_abs (x : Q) : Q := Qabs x.
Definition Math_pow2 (x : Q) : Q := (x * x)%Q.
(** The double nearest to pi, as the rational it is. *)
Definition Math_PI : Q := 884279719003555 # 281474976710656.

(** [xs.reduce((a, b) => a + b, 0)] *)
Definition sum (xs : list Q) : Q := fold_left Qplus xs 0%Q.

(** [Math.max(...xs)] on a non-empty array and [Math.min(...xs)]; the
    source never spreads an empty array into them on the modelled paths,
    and the default stands for the infinite result it would get. *)
Definition Math_max_list (xs : list Q) : Q :=
  match xs with
  | [] => 0%Q
  | x :: r => fold_left Qmax r x
  end.
Definition Math_min_list (xs : list Q) : Q :=
  match xs with
  | [] => 0%Q
  | x :: r => fold_left Qmin r x
  end.

Definition ofZ (z : Z) : Q := inject_Z z.
Definition ofNat (n : nat) : Q := inject_Z (Z.of_nat n).

(** [xs.slice(a, b)] for integers [a], [b], negative ones counted from
    the end as the language does. *)
Definition slice {A} (a b : Z) (xs : list A) : list A :=
  let n := Z.of_nat (length xs) in
  let from := if a <? 0 then Z.max (n + a) 0 else Z.min a n in
  let to := if b <? 0 then Z.max (n + b) 0 else Z.min b n in
  take (Z.to_nat (to - from)) (drop (Z.to_nat from) xs).

(** [xs.slice(a)] *)
Definition slice_from {A} (a : Z) (xs : list A) : list A :=
  slice a (Z.of_nat (length xs)) xs.

(** [while (xs.length > cap) xs.shift()] *)
Fixpoint shift_while_longer {A} (cap : nat) (xs : list A) : list A :=
  match xs with
  | [] => []
  | _ :: r => if (cap <? length xs)%nat then shift_while_longer cap r else xs
  end.

(** *** Strings *)

Definition chars (s : string) : list ascii := String.list_ascii_of_string s.
Definition str (cs : list ascii) : string := String.string_of_list_ascii cs.

Definition is_digit (c : ascii) : bool :=
  let n := nat_of_ascii c in (48 <=? n)%nat && (n <=? 57)%nat.

(** White space of [String.prototype.trim], on the ASCII range: TAB, LF,
    VT, FF, CR and SPACE. *)
Definition is_space (c : ascii) : bool :=
  let n := nat_of_ascii c in
  ((9 <=? n)%nat && (n <=? 13)%nat) || (n =? 32)%nat.

Fixpoint trim_start (cs : list ascii) : list ascii :=
  match cs with
  | c :: r => if is_space c then trim_start r else cs
  | [] => []
  end.

Definition trim (s : string) : string :=
  str (rev (trim_start (rev (trim_start (chars s))))).

Definition lower_char (c : ascii) : ascii :=
  let n := nat_of_ascii c in
  if (65 <=? n)%nat && (n <=? 90)%nat then ascii_of_nat (n + 32) else c.

Definition toLowerCase (s : string) : string := str (map lower_char (chars s)).

Fixpoint starts_with (p cs : list ascii) : bool :=
  match p, cs with
  | [], _ => true
  | _ :: _, [] => false
  | a :: p', c :: cs' => Ascii.eqb a c && starts_with p' cs'
  end.

Fixpoint includes_chars (p cs : list ascii) : bool :=
  starts_with p cs ||
  match cs with
  | [] => false
  | _ :: r => includes_chars p r
  end.

(** [s.includes(p)] *)
Definition includes (s p : string) : bool := includes_chars (chars p) (chars s).

(** [!line] on a string: true exactly for the empty one. *)
Definition is_empty (s : string) : bool :=
  match s with EmptyString => true | _ => false end.

End JS.

(** ** Binary64 numbers *)

Module F64.

Definition prec : Z := 53.
Definition emax : Z := 1024.

(** A double: a signed zero, an infinity, [NaN], or [(-1)^s * m * 2^e]. *)
Definition float : Type := spec_float.

Definition NaN : float := S754_nan.

(** [x + y], [x - y] and [x / y], rounded to nearest, ties to even. *)
Definition add : float -> float -> float := SFadd prec emax.
Definition sub : float -> float -> float := SFsub prec emax.
Definition div : float -> float -> float := SFdiv prec emax.

(** [x === y] on numbers. *)
Definition eqb : float -> float -> bool := SFeqb.

(** The double of an integer literal of the source ([0.0], [2]). *)
Definition of_Z (z : Z) : float := binary_normalize prec emax z 0 false.

(** The double nearest to [mant / 10^k] (ties to even, an infinity beyond
    the range), with the sign of the literal: the number a decimal literal
    denotes.  [mant] is not negative. *)
Definition of_decimal (neg : bool) (mant : Z) (k : nat) : float :=
  match mant with
  | Zpos m =>
      SFdiv prec emax (S754_finite neg m 0)
                      (S754_finite false (Z.to_pos (10 ^ Z.of_nat k)) 0)
  | _ => S754_zero neg
  end.

(** The rational a finite double is; [None] for [NaN] and the infinities. *)
Definition value (x : float) : option Q :=
  match x with
  | S754_zero _ => Some 0%Q
  | S754_finite s m e =>
      let n := if s then Z.neg m else Z.pos m in
      Some (if 0 <=? e then inject_Z (n * 2 ^ e) else n # Z.to_pos (2 ^ (- e)))
  | S754_infinity _ | S754_nan => None
  end.

End F64.

(** ** The host run time *)

(** [JSON_parse s] is [Some members] when [JSON.parse(s)] returns an object
    (members: its own string-keyed properties; an array exposes none of the
    lead keys and counts as the empty map) and [None] when it throws or
    returns a primitive or [null].  [parseFloat_value] is [parseFloat] on a
    member value. *)
Class Host := {
  json_value : Type;
  JSON_parse : string -> option (gmap string json_value);
  parseFloat_value : json_value -> F64.float;
  Math_sqrt : Q -> Q
}.

(** ** Sample parser (the parse block of [connect]) *)

Module Parser.
Import JS.

(** *** [line.match(/-?\d+(?:\.\d+)?/g)] as a scanner

    The state holds the characters of the match in progress, last one
    first. *)
Inductive scan_state :=
| Idle
| Minus
| IntPart (tok : list ascii)
| DotSeen (tok : list ascii)
| FracPart (tok : list ascii).

Definition minus_char : ascii := "-"%char.
Definition dot_char : ascii := "."%char.

(** A character read when no match is in progress. *)
Definition restart (c : ascii) : scan_state :=
  if is_digit c then IntPart [c]
  else if Ascii.eqb c minus_char then Minus
  else Idle.

Definition emit (tok : list ascii) : string := str (rev tok).

Fixpoint scan (st : scan_state) (cs : list ascii) : list string :=
  match cs with
  | [] =>
      match st with
      | Idle | Minus => []
      | IntPart tok | DotSeen tok | FracPart tok => [emit tok]
      end
  | c :: r =>
      match st with
      | Idle => scan (restart c) r
      | Minus =>
          if is_digit c then scan (IntPart [c; minus_char]) r
          else scan (restart c) r
      | IntPart tok =>
          if is_digit c then scan (IntPart (c :: tok)) r
          else if Ascii.eqb c dot_char then scan (DotSeen tok) r
          else emit tok :: scan (restart c) r
      | DotSeen tok =>
          if is_digit c then scan (FracPart (c :: dot_char :: tok)) r
          else emit tok :: scan (restart c) r
      | FracPart tok =>
          if is_digit c then scan (FracPart (c :: tok)) r
          else emit tok :: scan (restart c) r
      end
  end.

Definition match_numbers (line : string) : list string := scan Idle (chars line).

(** *** [parseFloat] on a matched token: the double nearest to its
    decimal value *)

Definition digit_value (c : ascii) : Z := Z.of_nat (nat_of_ascii c - 48).

(** Mantissa and number of fraction digits read so far. *)
Fixpoint decimal (cs : list ascii) (mant : Z) (frac : option nat) : Z * nat :=
  match cs with
  | [] => (mant, default 0%nat frac)
  | c :: r =>
      if is_digit c then decimal r (10 * mant + digit_value c) (S <$> frac)
      else decimal r mant (Some 0%nat)
  end.

Definition parseFloat_token (tok : string) : F64.float :=
  let cs := chars tok in
  let '(neg, body) :=
    match cs with
    | c :: r => if Ascii.eqb c minus_char then (true, r) else (false, cs)
    | [] => (false, cs)
    end in
  let '(mant, k) := decimal body 0 None in
  F64.of_decimal neg mant k.

(** *** The parse block *)

Definition lead_keys : list string :=
  ["lead1"; "lead2"; "lead3"; "avr"; "avl"; "avf"]%string.

Section WithHost.
Context `{Host}.

(** [if (parsedJson && typeof parsedJson === 'object')
      if (keys.every(k => k in parsedJson))
        arr = keys.map(k => parseFloat(parsedJson[k]))] *)
Definition structured (line : string) : option (list F64.float) :=
  match JSON_parse line with
  | Some obj =>
      if forallb (fun k => bool_decide (is_Some (obj !! k))) lead_keys
      then Some (map (fun k => default F64.NaN (parseFloat_value <$> obj !! k)) lead_keys)
      else None
  | None => None
  end.

Definition numeric (line : string) : option (list F64.float) :=
  let nums := map parseFloat_token (match_numbers line) in
  if (6 <=? length nums)%nat then Some (take 6 nums)
  else
    match nums with
    | [lead1; lead2] =>
        let lead3 := F64.sub lead2 lead1 in
        let ra := F64.of_Z 0 in
        let la := lead1 in
        let ll := lead2 in
        let avr := F64.sub ra (F64.div (F64.add la ll) (F64.of_Z 2)) in
        let avl := F64.sub la (F64.div (F64.add ra ll) (F64.of_Z 2)) in
        let avf := F64.sub ll (F64.div (F64.add ra la) (F64.of_Z 2)) in
        Some [lead1; lead2; lead3; avr; avl; avf]
    | _ => None
    end.

(** The value of [arr] when the block is left; [None] is [null]. *)
Definition parseSample (line : string) : option (list F64.float) :=
  match structured line with
  | Some arr => Some arr
  | None => numeric line
  end.
End WithHost.

End Parser.

(** ** HRV engine ([calculateAdvancedHRV]) *)

Module HRV.
Import JS.

Inductive status := low | normal | high | athletic.

Record metrics := mkMetrics {
  sdnn : Q; rmssd : Q; pnn50 : Q; pnn20 : Q;
  meanRR : Z; minHR : Z; maxHR : Z;
  triangularIndex : Q;
  lfPower : Q; hfPower : Q; lfHfRatio : Q;
  stressIndex : Q;
  respiratoryRate : Z
}.

(** The value every connect resets [hrvMetrics] to. *)
Definition zero_metrics : metrics :=
  mkMetrics 0 0 0 0 0 0 0 0 0 0 0 0 0.

(** [rr[i] - rr[i-1]] for [i = 1 .. rr.length - 1] *)
Definition successive (rr : list Q) : list Q :=
  zip_with (fun prev cur => (cur - prev)%Q) rr (tail rr).

(** How many successive differences exceed [ms] in magnitude. *)
Definition nn_count (ms : Q) (rr : list Q) : nat :=
  length (List.filter (fun d => Qgtb (Math_abs d) ms) (successive rr)).

Definition binWidth : Q := 3125 # 100.

(** [histogram[bin] = (histogram[bin] || 0) + 1] over the intervals *)
Definition histogram (rr : list Q) : gmap Z nat :=
  fold_left
    (fun h interval =>
       let bin := Math_floor (interval / binWidth) in
       <[bin := (default 0 (h !! bin) + 1)%nat]> h)
    rr ∅.

Definition maxBinCount (rr : list Q) : nat :=
  let h := histogram rr in
  if bool_decide (h = ∅) then 1%nat
  else map_fold (fun _ v acc => Nat.max v acc) 0%nat h.

(** [Math.round(x * 10) / 10] *)
Definition round1 (x : Q) : Q := (ofZ (Math_round (x * 10)) / 10)%Q.

Section WithHost.
Context `{Host}.

Definition mean (rr : list Q) : Q := (sum rr / ofNat (length rr))%Q.

Definition variance (rr : list Q) : Q :=
  let meanRR := mean rr in
  (sum (map (fun val => Math_pow2 (val - meanRR)) rr) / ofNat (length rr))%Q.

Definition sdnn_of (rr : list Q) : Q := Math_sqrt (variance rr).

Definition rmssd_of (rr : list Q) : Q :=
  Math_sqrt (sum (map Math_pow2 (successive rr)) / (ofNat (length rr) - 1)).

Definition pnn_of (ms : Q) (rr : list Q) : Q :=
  if (1 <? length rr)%nat
  then (ofNat (nn_count ms rr) / (ofNat (length rr) - 1) * 100)%Q
  else 0%Q.

(** [hfPower], then [lfPower], then [lfHfRatio]. *)
Definition frequency (rr : list Q) : Q * Q * Q :=
  if (10 <=? length rr)%nat then
    let rmssd := rmssd_of rr in
    let hfPower := (ofZ (Math_round (rmssd * rmssd / 100)) / 10)%Q in
    let totalPower := (variance rr / 100)%Q in
    let lfPower := Qmax 0 (ofZ (Math_round ((totalPower - hfPower) * 10)) / 10) in
    let lfHfRatio :=
      if Qgtb hfPower (1 # 100)
      then (ofZ (Math_round (lfPower / hfPower * 100)) / 100)%Q
      else 0%Q in
    (hfPower, lfPower, lfHfRatio)
  else (0%Q, 0%Q, 0%Q).

Definition classify (sdnn rmssd : Q) : status :=
  if Qltb sdnn 30 || Qltb rmssd 15 then low
  else if Qgtb sdnn 80 && Qgtb rmssd 40 then athletic
  else if Qgtb sdnn 50 && Qgtb rmssd 25 then high
  else normal.

(** The arguments of [setHrvStatus] and [setHrvMetrics], or [None] when
    the function returns before calling them.  [rrZ] is
    [rrIntervalsRef.current].  [minHR] and [maxHR] divide by an
    interval; the detector only stores positive ones. *)
Definition calculateAdvancedHRV (rrZ : list Z) : option (status * metrics) :=
  let rr := map ofZ rrZ in
  if (length rr <? 3)%nat then None
  else
    let meanRR := mean rr in
    let sdnn := sdnn_of rr in
    let rmssd := rmssd_of rr in
    let pnn50 := pnn_of 50 rr in
    let pnn20 := pnn_of 20 rr in
    let minRR := Math_min_list rr in
    let maxRR := Math_max_list rr in
    let maxHR := Math_round (60000 / minRR) in
    let minHR := Math_round (60000 / maxRR) in
    let triangularIndex :=
      (ofNat (length rr) / ofNat (Nat.max 1 (maxBinCount rr)))%Q in
    let '(hfPower, lfPower, lfHfRatio) := frequency rr in
    let cv := (sdnn / meanRR * 100)%Q in
    let stressIndex :=
      if Qgtb cv 0 then (ofZ (Math_round (10 / cv * 100)) / 10)%Q else 0%Q in
    let respiratoryRate := Math_round (12 + Qmin 8 (rmssd / 10)) in
    Some (classify sdnn rmssd,
          {| sdnn := round1 sdnn; rmssd := round1 rmssd;
             pnn50 := round1 pnn50; pnn20 := round1 pnn20;
             meanRR := Math_round meanRR;
             minHR := minHR; maxHR := maxHR;
             triangularIndex := round1 triangularIndex;
             lfPower := lfPower; hfPower := hfPower; lfHfRatio := lfHfRatio;
             stressIndex := stressIndex;
             respiratoryRate := respiratoryRate |}).
End WithHost.

End HRV.

(** ** The visualizer component ([ECGVisualizer]) *)

Module Visualizer.
Import JS.

(** The two device variants of the component.  They share every function
    modelled here; [SerialBluetooth] adds the beat detector and the HRV
    state, and resets them on connect. *)
Inductive Variant := SerialOnly | SerialBluetooth.

Inductive Units := mv | adc.

Definition DEFAULT_SAMPLE_RATE : Z := 125.
Definition DEFAULT_SECONDS : Z := 5.
Definition CAPTURE_SECONDS : Q := 15.
Definition WAIT_SECONDS : Q := 10.
Definition ADC_MAX : Q := 1023.
Definition VREF : Q := 5.

Definition leads : list string :=
  ["Lead I"; "Lead II"; "Lead III"; "aVR"; "aVL"; "aVF"]%string.
Definition shortKeys : list string :=
  ["I"; "II"; "III"; "aVR"; "aVL"; "aVF"]%string.

(** What a property of [snap] or of the report object can hold. *)
Inductive JsVal :=
| VNull
| VArr (xs : list Q)
| VMeta (excerptSeconds : Q) (captureAt : option Q) (sampleIndexEnd : option Z).

(** *** React state *)

Record Link := mkLink { connected : bool; isCalibrating : bool }.

Record Config := mkConfig {
  sampleRate : Z;
  secondsWindow : Z;
  inputUnits : Units;
  filterOn : bool;
  advancedReport : bool
}.

Record Capture := mkCapture {
  isRecording : bool;
  recordingProgress : Q;
  isWaiting : bool;
  waitProgress : Q;
  showReport : bool;
  recordedData : option (gmap string JsVal)
}.

Record Vitals := mkVitals {
  heartRate : Z;
  hrvMetrics : HRV.metrics;
  hrvStatus : HRV.status
}.

Record UiState := mkUi {
  link : Link; config : Config; capture : Capture; vitals : Vitals
}.

(** *** Refs *)

Record Ring := mkRing { bufferRef : list (list Q); writeIndexRef : nat }.

Record Bank := mkBank {
  hpStateRef : list (Q * Q);      (* x1, y1 per lead *)
  lpStateRef : list Q;            (* y1 per lead *)
  hpAlphaRef : Q;
  lpAlphaRef : Q
}.

Record Session := mkSession {
  active : bool;
  data : option (gmap string (list Q));
  count : Z;
  startTime : option Q
}.

Record PeakSample := mkPeak { signal : Q; absSignal : Q; time : Z }.

Record Detector := mkDetector {
  rrIntervalsRef : list Z;
  lastRPeakRef : option Z;
  rPeakBufferRef : list PeakSample
}.

Record Flags := mkFlags {
  autoStopTriggeredRef : bool;
  manualStopRef : bool;
  freezeDisplayRef : bool;
  frozenBufferRef : option (list (list Q))
}.

(** [portRef] is whether the cell holds a port; [calibTimeout] is whether
    the fallback timer armed by [connect] is still pending. *)
Record Transport := mkTransport {
  portRef : bool;
  runningRef : bool;
  bluetoothRunningRef : bool;
  calibTimeout : bool
}.

Record Refs := mkRefs {
  ring : Ring;
  bank : Bank;
  recordRef : Session;
  flags : Flags;
  sampleRateRef : Z;
  det : Detector;
  transport : Transport
}.

Record World := mkWorld { refs : Refs; ui : UiState }.

(** *** Field updates *)

Definition with_link (f : Link -> Link) (w : World) : World :=
  let u := ui w in mkWorld (refs w) (mkUi (f (link u)) (config u) (capture u) (vitals u)).
Definition with_config (f : Config -> Config) (w : World) : World :=
  let u := ui w in mkWorld (refs w) (mkUi (link u) (f (config u)) (capture u) (vitals u)).
Definition with_capture (f : Capture -> Capture) (w : World) : World :=
  let u := ui w in mkWorld (refs w) (mkUi (link u) (config u) (f (capture u)) (vitals u)).
Definition with_vitals (f : Vitals -> Vitals) (w : World) : World :=
  let u := ui w in mkWorld (refs w) (mkUi (link u) (config u) (capture u) (f (vitals u))).

Definition with_ring (f : Ring -> Ring) (w : World) : World :=
  let r := refs w in
  mkWorld (mkRefs (f (ring r)) (bank r) (recordRef r) (flags r) (sampleRateRef r) (det r) (transport r)) (ui w).
Definition with_bank (f : Bank -> Bank) (w : World) : World :=
  let r := refs w in
  mkWorld (mkRefs (ring r) (f (bank r)) (recordRef r) (flags r) (sampleRateRef r) (det r) (transport r)) (ui w).
Definition with_record (f : Session -> Session) (w : World) : World :=
  let r := refs w in
  mkWorld (mkRefs (ring r) (bank r) (f (recordRef r)) (flags r) (sampleRateRef r) (det r) (transport r)) (ui w).
Definition with_flags (f : Flags -> Flags) (w : World) : World :=
  let r := refs w in
  mkWorld (mkRefs (ring r) (bank r) (recordRef r) (f (flags r)) (sampleRateRef r) (det r) (transport r)) (ui w).
Definition with_sampleRateRef (v : Z) (w : World) : World :=
  let r := refs w in
  mkWorld (mkRefs (ring r) (bank r) (recordRef r) (flags r) v (det r) (transport r)) (ui w).
Definition with_det (f : Detector -> Detector) (w : World) : World :=
  let r := refs w in
  mkWorld (mkRefs (ring r) (bank r) (recordRef r) (flags r) (sampleRateRef r) (f (det r)) (transport r)) (ui w).
Definition with_transport (f : Transport -> Transport) (w : World) : World :=
  let r := refs w in
  mkWorld (mkRefs (ring r) (bank r) (recordRef r) (flags r) (sampleRateRef r) (det r) (f (transport r))) (ui w).

Definition setConnected (b : bool) : World -> World :=
  with_link (fun l => mkLink b (isCalibrating l)).
Definition setIsCalibrating (b : bool) : World -> World :=
  with_link (fun l => mkLink (connected l) b).
Definition setIsRecording (b : bool) : World -> World :=
  with_capture (fun c => mkCapture b (recordingProgress c) (isWaiting c) (waitProgress c) (showReport c) (recordedData c)).
Definition setRecordingProgress (q : Q) : World -> World :=
  with_capture (fun c => mkCapture (isRecording c) q (isWaiting c) (waitProgress c) (showReport c) (recordedData c)).
Definition setIsWaiting (b : bool) : World -> World :=
  with_capture (fun c => mkCapture (isRecording c) (recordingProgress c) b (waitProgress c) (showReport c) (recordedData c)).
Definition setWaitProgress (q : Q) : World -> World :=
  with_capture (fun c => mkCapture (isRecording c) (recordingProgress c) (isWaiting c) q (showReport c) (recordedData c)).
Definition setShowReport (b : bool) : World -> World :=
  with_capture (fun c => mkCapture (isRecording c) (recordingProgress c) (isWaiting c) (waitProgress c) b (recordedData c)).
Definition setRecordedData (d : option (gmap string JsVal)) : World -> World :=
  with_capture (fun c => mkCapture (isRecording c) (recordingProgress c) (isWaiting c) (waitProgress c) (showReport c) d).
Definition setHeartRate (z : Z) : World -> World :=
  with_vitals (fun v => mkVitals z (hrvMetrics v) (hrvStatus v)).
Definition setHrvMetrics (m : HRV.metrics) : World -> World :=
  with_vitals (fun v => mkVitals (heartRate v) m (hrvStatus v)).
Definition setHrvStatus (s : HRV.status) : World -> World :=
  with_vitals (fun v => mkVitals (heartRate v) (hrvMetrics v) s).
Definition setSampleRate (z : Z) : World -> World :=
  with_config (fun c => mkConfig z (secondsWindow c) (inputUnits c) (filterOn c) (advancedReport c)).
Definition setSecondsWindow (z : Z) : World -> World :=
  with_config (fun c => mkConfig (sampleRate c) z (inputUnits c) (filterOn c) (advancedReport c)).
Definition setFilterOn (b : bool) : World -> World :=
  with_config (fun c => mkConfig (sampleRate c) (secondsWindow c) (inputUnits c) b (advancedReport c)).

(** *** Mount: [useState] and [useRef] initial values *)

Definition initial_ui : UiState :=
  mkUi (mkLink false false)
       (mkConfig DEFAULT_SAMPLE_RATE DEFAULT_SECONDS mv true true)
       (mkCapture false 0 false 0 false None)
       (mkVitals 0 HRV.zero_metrics HRV.normal).

Definition zero_hp : list (Q * Q) := map (fun _ => (0%Q, 0%Q)) leads.
Definition zero_lp : list Q := map (fun _ => 0%Q) leads.

Definition initial_refs : Refs :=
  mkRefs (mkRing [] 0)
         (mkBank zero_hp zero_lp 0 0)
         (mkSession false None 0 None)
         (mkFlags false false false None)
         DEFAULT_SAMPLE_RATE
         (mkDetector [] None [])
         (mkTransport false false false false).

(** *** Effects *)

(** [Math.max(1, Math.floor(sampleRate * secondsWindow))] *)
Definition ringCapacity (c : Config) : Z :=
  Z.max 1 (Math_floor (ofZ (sampleRate c) * ofZ (secondsWindow c))).

(** [new Float32Array(samples)]: [samples] zeros. *)
Definition Float32Array (samples : Z) : list Q := replicate (Z.to_nat samples) 0%Q.

(** The effect on [[secondsWindow, sampleRate]]. *)
Definition effect_buffers (env : UiState) : World -> World :=
  let samples := ringCapacity (config env) in
  with_ring (fun _ => mkRing (map (fun _ => Float32Array samples) leads) 0).

(** The effect on [[sampleRate]] that keeps the ref in step. *)
Definition effect_sampleRateRef (env : UiState) : World -> World :=
  with_sampleRateRef (sampleRate (config env)).

(** The effect on [[sampleRate]] that recomputes the coefficients and
    zeroes the filter states. *)
Definition effect_filter (w : World) : World :=
  let dt := (1 / Qmax 1 (ofZ (sampleRateRef (refs w))))%Q in
  let hpFc := (1 # 2)%Q in
  let hpRc := (1 / (2 * Math_PI * hpFc))%Q in
  let lpFc := 40%Q in
  let lpRc := (1 / (2 * Math_PI * lpFc))%Q in
  with_bank (fun _ => mkBank zero_hp zero_lp (hpRc / (hpRc + dt)) (dt / (lpRc + dt))) w.

Definition mount : World :=
  let w := mkWorld initial_refs initial_ui in
  effect_filter (effect_sampleRateRef (ui w) (effect_buffers (ui w) w)).

(** The effects that run after a render whose state is [ui w], given the
    state [prev] of the render before: each effect runs when one of its
    dependencies changed, in the order of the source. *)
Definition commit (prev : UiState) (w : World) : World :=
  let c0 := config prev in
  let c1 := config (ui w) in
  let rate_changed := negb (sampleRate c0 =? sampleRate c1) in
  let window_changed := negb (secondsWindow c0 =? secondsWindow c1) in
  let w1 := if window_changed || rate_changed then effect_buffers (ui w) w else w in
  if rate_changed then effect_filter (effect_sampleRateRef (ui w) w1) else w1.

(** The two inputs of the settings panel:
    [setSecondsWindow(parseInt(v) || 1)] and
    [setSampleRate(Math.max(1, parseInt(v) || DEFAULT_SAMPLE_RATE))];
    [None] is the [NaN] of [parseInt]. *)
Definition onChange_window (parsed : option Z) (w : World) : World :=
  let v := match parsed with Some z => if z =? 0 then 1 else z | None => 1 end in
  commit (ui w) (setSecondsWindow v w).
Definition onChange_sampleRate (parsed : option Z) (w : World) : World :=
  let v := match parsed with
           | Some z => if z =? 0 then DEFAULT_SAMPLE_RATE else z
           | None => DEFAULT_SAMPLE_RATE
           end in
  commit (ui w) (setSampleRate (Z.max 1 v) w).

(** *** Unit conversion and filtering *)

(** [valueToMv(v)]: 0 for [NaN], otherwise the conversion of the number.
    An infinity (a token beyond the range of a double) has no rational
    either and is taken as [NaN] is. *)
Definition valueToMv (env : UiState) (v : F64.float) : Q :=
  match F64.value v with
  | None => 0%Q
  | Some v =>
      match inputUnits (config env) with
      | adc => let volts := (v * VREF / ADC_MAX)%Q in (volts * 1000)%Q
      | mv => v
      end
  end.

(** [filterSample(leadIdx, x)]: the output and the updated states.  The
    six state cells exist for every lead index the loop passes. *)
Definition filterSample (leadIdx : nat) (x : Q) (b : Bank) : Q * Bank :=
  let aHP := hpAlphaRef b in
  let stHP := default (0%Q, 0%Q) (hpStateRef b !! leadIdx) in
  let yHP := (aHP * (snd stHP + x - fst stHP))%Q in
  let aLP := lpAlphaRef b in
  let stLP := default 0%Q (lpStateRef b !! leadIdx) in
  let y := (stLP + aLP * (yHP - stLP))%Q in
  (y, mkBank (<[leadIdx := (x, yHP)]> (hpStateRef b))
             (<[leadIdx := y]> (lpStateRef b)) aHP aLP).

(** [for (i ...) if (filterOn) mvs[i] = filterSample(i, mvs[i])] *)
Fixpoint filterFrom (i : nat) (mvs : list Q) (b : Bank) : list Q * Bank :=
  match mvs with
  | [] => ([], b)
  | x :: r =>
      let '(y, b1) := filterSample i x b in
      let '(ys, b2) := filterFrom (S i) r b1 in
      (y :: ys, b2)
  end.

Definition filterAll (env : UiState) (mvs : list Q) (b : Bank) : list Q * Bank :=
  if filterOn (config env) then filterFrom 0 mvs b else (mvs, b).

(** [mvs[i] || 0] *)
Definition at_ (mvs : list Q) (i : nat) : Q := default 0%Q (mvs !! i).

(** *** Ring buffer write *)

Definition writeSample (env : UiState) (mvs : list Q) (w : World) : World :=
  let r := ring (refs w) in
  let len0 := match bufferRef r with b :: _ => Z.of_nat (length b) | [] => 0 end in
  let samples := if len0 =? 0 then ringCapacity (config env) else len0 in
  let store (bufs : list (list Q)) (i : nat) (v : Q) : list (list Q) :=
    let bufs := if (i <? length bufs)%nat then bufs else bufs ++ [Float32Array samples] in
    alter (fun b => <[writeIndexRef r := v]> b) i bufs in
  let bufs := fold_left (fun bufs iv => store bufs (fst iv) (snd iv))
                        (imap (fun i v => (i, v)) mvs) (bufferRef r) in
  with_ring (fun _ => mkRing bufs (Z.to_nat (Z.of_nat (writeIndexRef r + 1) mod samples))) w.

(** *** Recording: start and stop *)

Definition startRecording (env : UiState) (v : Variant) (now : Z) (w : World) : World :=
  let t := transport (refs w) in
  let linked :=
    match v with
    | SerialOnly => portRef t
    | SerialBluetooth => portRef t || bluetoothRunningRef t
    end in
  if negb linked || negb (connected (link env)) then w
  else
    let d := fold_left (fun d ln => <[ln := []]> d) leads ∅ in
    let w := with_record (fun _ => mkSession true (Some d) 0 (Some (ofZ now / 1000)%Q)) w in
    let w := with_flags (fun _ => mkFlags false false false None) w in
    setShowReport false (setIsRecording true (setRecordingProgress 0 w)).

Definition truthy (v : option JsVal) : bool :=
  match v with
  | Some (VArr _) | Some (VMeta _ _ _) => true
  | Some VNull | None => false
  end.

(** [a || b] on property values *)
Definition js_or (a b : option JsVal) : option JsVal := if truthy a then a else b.

Definition setLead (short long : string) (arr : option JsVal)
    (normalized : gmap string JsVal) : gmap string JsVal :=
  let arr := if truthy arr then default VNull arr else VNull in
  <[long := arr]> (<[short := arr]> normalized).

(** [recordRef.current.data[ln] || []] *)
Definition recorded (s : Session) (ln : string) : list Q :=
  default [] (data s ≫= fun d => d !! ln).

(** The slice kept for one lead on an automatic stop. *)
Definition excerpt (oneSecondSamples sampleIndexEnd : Z) (arr : list Q) : list Q :=
  let startIdx := sampleIndexEnd - oneSecondSamples in
  let startIdx := if startIdx <? 0 then 0 else startIdx in
  let len := Z.of_nat (length arr) in
  if sampleIndexEnd <=? len
  then slice (Z.max 0 startIdx) (Z.min sampleIndexEnd len) arr
  else if oneSecondSamples <? len then slice_from (- oneSecondSamples) arr
       else slice_from 0 arr.

Definition snapshot (auto : bool) (captureSecond : Q) (r : Refs) : gmap string JsVal :=
  let rate := ofZ (sampleRateRef r) in
  if auto then
    let oneSecondSamples := Math_floor (1 * rate) in
    let sampleIndexEnd := Math_floor (captureSecond * rate) in
    let snap := fold_left
      (fun snap ln => <[ln := VArr (excerpt oneSecondSamples sampleIndexEnd (recorded (recordRef r) ln))]> snap)
      leads ∅ in
    <["__meta" := VMeta 1 (Some captureSecond) (Some sampleIndexEnd)]> snap
  else
    let snap := fold_left
      (fun snap ln => <[ln := VArr (slice_from 0 (recorded (recordRef r) ln))]> snap)
      leads ∅ in
    let n := match snap !! "Lead I" with Some (VArr xs) => ofNat (length xs) | _ => 0%Q end in
    <["__meta" := VMeta (n / rate) None None]> snap.

Definition is_missing (normalized : gmap string JsVal) (k : string) : bool :=
  negb (truthy (normalized !! k)).

(** The derivation of the missing leads under [advancedReport]. *)
Definition derive (normalized : gmap string JsVal) : gmap string JsVal :=
  match normalized !! "I", normalized !! "II" with
  | Some (VArr leadI), Some (VArr leadII) =>
      let n1 :=
        if is_missing normalized "III" || is_missing normalized "Lead III"
        then setLead "III" "Lead III"
               (Some (VArr (zip_with (fun i ii => (ii - i)%Q) leadI leadII))) normalized
        else normalized in
      if is_missing n1 "aVR" || is_missing n1 "aVL" || is_missing n1 "aVF"
      then
        let ra := 0%Q in
        let avr := zip_with (fun la ll => (ra - (la + ll) / 2)%Q) leadI leadII in
        let avl := zip_with (fun la ll => (la - (ra + ll) / 2)%Q) leadI leadII in
        let avf := zip_with (fun la ll => (ll - (ra + la) / 2)%Q) leadI leadII in
        setLead "aVF" "aVF" (Some (VArr avf))
          (setLead "aVL" "aVL" (Some (VArr avl))
             (setLead "aVR" "aVR" (Some (VArr avr)) n1))
      else n1
  | _, _ => normalized
  end.

(** The object handed to [setRecordedData]. *)
Definition normalize (env : UiState) (snap : gmap string JsVal) : gmap string JsVal :=
  let normalized :=
    fold_left
      (fun acc p =>
         let '(long, short) := p in
         setLead short long
           (js_or (snap !! long) (js_or (snap !! short) (snap !! ("Lead " +:+ short))))
           acc)
      (zip leads shortKeys) ∅ in
  if advancedReport (config env) then derive normalized else normalized.

(** The chronological copy of the ring buffer taken on a manual stop. *)
Definition freeze (r : Ring) : list (list Q) :=
  let samples := match bufferRef r with
                 | b :: _ => if (length b =? 0)%nat then 1%nat else length b
                 | [] => 1%nat
                 end in
  let end_ := writeIndexRef r in
  map (fun arr => map (fun s => default 0%Q (arr !! ((end_ + s) mod samples)%nat)) (seq 0 samples))
      (bufferRef r).

Definition stopRecording (env : UiState) (auto : bool) (captureSecond : Q) (w : World) : World :=
  if negb (isRecording (capture env)) && negb auto && negb (active (recordRef (refs w)))
  then w
  else
    let w := with_record (fun s => mkSession false (data s) (count s) (startTime s)) w in
    let w := setIsRecording false w in
    let snap := snapshot auto captureSecond (refs w) in
    let w := setRecordedData (Some (normalize env snap)) w in
    let w :=
      if negb auto then
        with_flags (fun f => mkFlags (autoStopTriggeredRef f) true true (Some (freeze (ring (refs w))))) w
      else
        with_flags (fun f => mkFlags (autoStopTriggeredRef f) (manualStopRef f) false None) w in
    setWaitProgress 0 (setIsWaiting true w).

(** *** Beat detector and the line loop *)

Section WithHost.
Context `{Host}.

(** [calculateAdvancedHRV()] as the component calls it. *)
Definition calculateAdvancedHRV (w : World) : World :=
  match HRV.calculateAdvancedHRV (rrIntervalsRef (det (refs w))) with
  | None => w
  | Some (st, m) => setHrvMetrics m (setHrvStatus st w)
  end.

(** The loop over [i = midIdx - 3 .. midIdx + 3] that clears the flag
    as soon as a neighbour inside the buffer fails [ok]. *)
Definition all_neighbours (ok : Q -> bool) (buf : list PeakSample) (midIdx : Z) : bool :=
  forallb
    (fun i =>
       if negb (i =? midIdx) && (0 <=? i) && (i <? Z.of_nat (length buf))
       then match buf !! Z.to_nat i with
            | Some b => ok (signal b)
            | None => true
            end
       else true)
    (map (fun k => midIdx + k) [-3; -2; -1; 0; 1; 2; 3]).

Definition threshold_of (buf : list PeakSample) : Q :=
  let recentAbsSignals := map absSignal buf in
  let maxAbs := Math_max_list recentAbsSignals in
  let avgAbs := (sum recentAbsSignals / ofNat (length recentAbsSignals))%Q in
  Qmax (Qmax (15 # 100) (maxAbs * (1 # 2))) (avgAbs * 2).

Definition isPeak_of (buf : list PeakSample) (midIdx : Z) (midSample : PeakSample) : bool :=
  let threshold := threshold_of buf in
  let isLocalMax := all_neighbours (fun s => negb (Qgeb s (signal midSample))) buf midIdx in
  let isLocalMin := all_neighbours (fun s => negb (Qle_bool s (signal midSample))) buf midIdx in
  (isLocalMax || (isLocalMin && Qltb (signal midSample) (- threshold)))
  && Qgtb (absSignal midSample) threshold.

(** Ectopic beat rejection against the last eight stored intervals. *)
Definition acceptBeat_of (rrInterval : Z) (rrs : list Z) : bool :=
  let recentRR := map ofZ (slice_from (-8) rrs) in
  if (3 <=? length recentRR)%nat then
    let avgRecentRR := (sum recentRR / ofNat (length recentRR))%Q in
    let deviation := (Math_abs (ofZ rrInterval - avgRecentRR) / avgRecentRR)%Q in
    negb (Qgtb deviation (30 # 100))
  else true.

(** What the detector does with an interval that passed the range
    test and the ectopic test. *)
Definition storeInterval (rrInterval : Z) (w : World) : World :=
  let rrs := shift_while_longer 60 (rrIntervalsRef (det (refs w)) ++ [rrInterval]) in
  let w := with_det (fun d => mkDetector rrs (lastRPeakRef d) (rPeakBufferRef d)) w in
  let w :=
    if (2 <=? length rrs)%nat then
      let recentRRSlice := map ofZ (slice_from (-4) rrs) in
      let avgRR := (sum recentRRSlice / ofNat (length recentRRSlice))%Q in
      let smoothedHR := Math_round (60000 / avgRR) in
      if (40 <=? smoothedHR) && (smoothedHR <=? 180) then setHeartRate smoothedHR w else w
    else w in
  if (5 <=? length rrs)%nat then calculateAdvancedHRV w else w.

Definition detectRPeakMultiLead (now : Z) (mvs : list Q) (w : World) : World :=
  let last := lastRPeakRef (det (refs w)) in
  if match last with Some t => now - t <? 300 | None => false end then w
  else
    let primarySignal := at_ mvs 1 in
    let buf := shift_while_longer 15
                 (rPeakBufferRef (det (refs w))
                    ++ [mkPeak primarySignal (Math_abs primarySignal) now]) in
    let w := with_det (fun d => mkDetector (rrIntervalsRef d) (lastRPeakRef d) buf) w in
    if (length buf <? 9)%nat then w
    else
      let midIdx := Z.of_nat (length buf / 2) in
      match buf !! Z.to_nat midIdx with
      | None => w
      | Some midSample =>
          if isPeak_of buf midIdx midSample then
            let peakTime := time midSample in
            let w :=
              match last with
              | Some t =>
                  let rrInterval := peakTime - t in
                  if (333 <=? rrInterval) && (rrInterval <=? 1500) then
                    if acceptBeat_of rrInterval (rrIntervalsRef (det (refs w)))
                    then storeInterval rrInterval w
                    else w
                  else w
              | None => w
              end in
            with_det (fun d => mkDetector (rrIntervalsRef d) (Some peakTime) (rPeakBufferRef d)) w
          else w
      end.

(** The block of the line loop that feeds an active recording and
    fires the automatic stop. *)
Definition recordSample (env : UiState) (now : Z) (mvs : list Q) (w : World) : World :=
  let s := recordRef (refs w) in
  match data s with
  | Some d =>
      if active s then
        let d := fold_left
                   (fun d p => alter (fun xs => xs ++ [at_ mvs (fst p)]) (snd p) d)
                   (imap (fun idx ln => (idx, ln)) leads) d in
        let w := with_record (fun s => mkSession (active s) (Some d) (count s + 1) (startTime s)) w in
        let nowSec := (ofZ now / 1000)%Q in
        let start := match startTime s with
                     | Some t => if Qeq_bool t 0 then nowSec else t
                     | None => nowSec
                     end in
        let duration := (nowSec - start)%Q in
        let w := setRecordingProgress duration w in
        if Qgeb duration CAPTURE_SECONDS && negb (autoStopTriggeredRef (flags (refs w)))
        then
          let w := with_flags (fun f => mkFlags true (manualStopRef f) (freezeDisplayRef f) (frozenBufferRef f)) w in
          stopRecording env true CAPTURE_SECONDS w
        else w
      else w
  | None => w
  end.

Definition is_calibration_end (lower : string) : bool :=
  includes lower "calibration complete" || includes lower "calibrated"
  || includes lower "calibration done".

Definition is_calibration_start (lower : string) : bool :=
  includes lower "starting" && includes lower "calibration".

(** What the loop body does with a parsed sample [arr]: the
    calibration test, conversion, filtering, detection (second variant),
    recording and the ring-buffer write. *)
Definition handleSample (v : Variant) (env : UiState) (now : Z)
    (arr : list F64.float) (w : World) : World :=
  if isCalibrating (link env) then w
  else
    let '(mvs, b) := filterAll env (map (valueToMv env) arr) (bank (refs w)) in
    let w := with_bank (fun _ => b) w in
    let w := match v with
             | SerialBluetooth => detectRPeakMultiLead now mvs w
             | SerialOnly => w
             end in
    let w := recordSample env now mvs w in
    writeSample env mvs w.

(** The body of [for (let line of lines)] in [connect], and of the
    callback of [startReading] in [connectBluetooth].  [env] is the
    state of the render whose [connect] is running; [now] is the clock
    at this line. *)
Definition processLine (v : Variant) (env : UiState) (now : Z) (raw : string)
    (w : World) : World :=
  let line := trim raw in
  if is_empty line then w
  else
    let lower := toLowerCase line in
    if is_calibration_end lower then
      with_transport
        (fun t => mkTransport (portRef t) (runningRef t) (bluetoothRunningRef t) false)
        (setIsCalibrating false w)
    else if is_calibration_start lower then setIsCalibrating true w
    else
      match Parser.parseSample line with
      | None => w
      | Some arr => handleSample v env now arr w
      end.

(** [connect()] up to the first read: the resets of the second variant,
    the port, and the calibration flag with its fallback timer. *)
Definition connect (v : Variant) (w : World) : World :=
  let w :=
    match v with
    | SerialBluetooth =>
        setHrvStatus HRV.normal
          (setHrvMetrics HRV.zero_metrics
             (setHeartRate 0 (with_det (fun _ => mkDetector [] None []) w)))
    | SerialOnly => w
    end in
  let w := with_transport (fun t => mkTransport true true (bluetoothRunningRef t) true) w in
  setIsCalibrating true (setConnected true w).

(** What can happen while the read loop of one [connect] call runs. *)
Inductive Event :=
| Line (now : Z) (raw : string)
| CalibrationTimeout.

Definition step (v : Variant) (env : UiState) (w : World) (e : Event) : World :=
  match e with
  | Line now raw => processLine v env now raw w
  | CalibrationTimeout =>
      if calibTimeout (transport (refs w)) then
        with_transport
          (fun t => mkTransport (portRef t) (runningRef t) (bluetoothRunningRef t) false)
          (setIsCalibrating false w)
      else w
  end.

Definition run (v : Variant) (env : UiState) (es : list Event) (w : World) : World :=
  fold_left (step v env) es w.

(** A connection made from the world [w]: [connect] is the closure of
    the render that shows [w], so its [env] is [ui w]. *)
Definition session (v : Variant) (es : list Event) (w : World) : World :=
  run v (ui w) es (connect v w).

(** The beat detector alone, fed one sample per clock reading. *)
Definition detect_all (inputs : list (Z * list Q)) (w : World) : World :=
  fold_left (fun w i => detectRPeakMultiLead (fst i) (snd i) w) inputs w.

(** The track of accepted beats: the timestamps [lastRPeakRef] takes
    while the detector runs over [inputs], in order, one entry per
    change of the cell. *)
Fixpoint beat_track (inputs : list (Z * list Q)) (w : World) : list Z :=
  match inputs with
  | [] => []
  | i :: r =>
      let w' := detectRPeakMultiLead (fst i) (snd i) w in
      match lastRPeakRef (det (refs w')) with
      | Some t =>
          if bool_decide (lastRPeakRef (det (refs w)) = Some t)
          then beat_track r w'
          else t :: beat_track r w'
      | None => beat_track r w'
      end
  end.

(** The worlds the component can be in: what mounting gives, closed
    under every modelled operation, each with any closure state. *)
Inductive reachable : World -> Prop :=
| reach_mount : reachable mount
| reach_connect v w : reachable w -> reachable (connect v w)
| reach_step v env e w : reachable w -> reachable (step v env w e)
| reach_detect now mvs w : reachable w -> reachable (detectRPeakMultiLead now mvs w)
| reach_start env v now w : reachable w -> reachable (startRecording env v now w)
| reach_stop env auto sec w : reachable w -> reachable (stopRecording env auto sec w)
| reach_window parsed w : reachable w -> reachable (onChange_window parsed w)
| reach_rate parsed w : reachable w -> reachable (onChange_sampleRate parsed w).
End WithHost.

(** One sample every 8 ms, [v k] on Lead II at time [8 * k]. *)
Definition sampled (v : nat -> Q) (n : nat) : list (Z * list Q) :=
  map (fun k => (8 * Z.of_nat k, [0%Q; v k; 0%Q; 0%Q; 0%Q; 0%Q])) (seq 0 n).

(** An R wave at 64 ms followed by an S wave of the same size at 72 ms,
    on a flat baseline. *)
Definition rs_complex (k : nat) : Q :=
  if (k =? 8)%nat then 1%Q else if (k =? 9)%nat then (-1)%Q else 0%Q.

(** Two R waves 800 ms apart. *)
Definition two_beats (k : nat) : Q :=
  if (k =? 8)%nat || (k =? 108)%nat then 1%Q else 0%Q.

End Visualizer.

(** ** Morphology and risk engine ([RiskAnalysis]) *)

Module Risk.
Import JS.

Inductive status := unknown | normal | warning | danger.
Inductive level := unknown_level | low | medium | high.

(** A metric is the string ['--'] or a number. *)
Inductive value := Unavailable | Num (q : Q).

Record HrData := mkHr { hr : value; hr_status : status; rrInterval : value }.
Record HrvData := mkHrv { sdnn : value; rmssd : value; hrv_status : status }.
Record QrsData := mkQrs { duration : value; qrs_status : status }.
Record QtData := mkQt { qt : value; qtc : value; qt_status : status }.
Record StData := mkSt { deviation : value; st_status : status }.
Record RiskScore := mkRisk { score : Z; risk_level : level; factors : list string }.

Record Metrics := mkMetrics {
  m_hr : HrData; m_hrv : HrvData; m_qrs : QrsData;
  m_qt : QtData; m_st : StData; m_risk : RiskScore
}.

(** The props of the component; [leadII] may be missing. *)
Record LeadData := mkLeadData { leadII : option (list Q) }.

Definition getDefaultMetrics : Metrics :=
  mkMetrics (mkHr Unavailable unknown Unavailable)
            (mkHrv Unavailable Unavailable unknown)
            (mkQrs Unavailable unknown)
            (mkQt Unavailable Unavailable unknown)
            (mkSt Unavailable unknown)
            (mkRisk 0 unknown_level []).

(** [samples[i]], [None] when out of range. *)
Definition sample_at (samples : list Q) (i : Z) : option Q :=
  if i <? 0 then None else samples !! Z.to_nat i.

(** [a op b] is false when an operand is [undefined]. *)
Definition cmp (op : Q -> Q -> bool) (a b : option Q) : bool :=
  match a, b with
  | Some x, Some y => op x y
  | _, _ => false
  end.

(** The integers [a, a+1, ..., b-1]. *)
Definition range (a b : Z) : list Z := seqZ a (b - a).

Definition detectRPeaks (samples : list Q) (sr : Q) : list Z :=
  let windowSize := Math_floor (sr * (1 # 10)) in
  let minPeakDistance := Math_floor (sr * (3 # 10)) in
  let maxAmp := fold_left (fun m s => if Qgtb (Math_abs s) m then Math_abs s else m) samples 0%Q in
  let threshold := (maxAmp * (1 # 2))%Q in
  let len := Z.of_nat (length samples) in
  fst (fold_left
         (fun acc i =>
            let '(peaks, lastPeakIdx) := acc in
            if cmp Qgtb (sample_at samples i) (Some threshold)
               && (minPeakDistance <? i - lastPeakIdx)
            then
              let isMax :=
                forallb (fun j => (j =? i) || negb (cmp Qgeb (sample_at samples j) (sample_at samples i)))
                        (range (i - windowSize) (i + windowSize + 1)) in
              if isMax then (peaks ++ [i], i) else acc
            else acc)
         (range windowSize (len - windowSize))
         ([], - minPeakDistance)).

(** [rPeaks[i] - rPeaks[i-1]] for [i = 1 .. length - 1] *)
Definition peak_gaps (rPeaks : list Z) : list Q :=
  zip_with (fun prev cur => ofZ (cur - prev)) rPeaks (tail rPeaks).

Definition calculateHeartRate (rPeaks : list Z) (sr : Q) : HrData :=
  if (length rPeaks <? 2)%nat then mkHr Unavailable unknown Unavailable
  else
    let rrIntervals := map (fun d => (d / sr)%Q) (peak_gaps rPeaks) in
    let avgRR := (sum rrIntervals / ofNat (length rrIntervals))%Q in
    let hr := Math_round (60 / avgRR) in
    let status :=
      if hr <? 60 then warning
      else if 100 <? hr then warning
      else if (hr <? 50) || (120 <? hr) then danger
      else normal in
    mkHr (Num (ofZ hr)) status (Num (ofZ (Math_round (avgRR * 1000)))).

Section WithHost.
Context `{Host}.

Definition calculateHRV (rPeaks : list Z) (sr : Q) : HrvData :=
  if (length rPeaks <? 3)%nat then mkHrv Unavailable Unavailable unknown
  else
    let rrIntervals := map (fun d => (d / sr * 1000)%Q) (peak_gaps rPeaks) in
    let n := ofNat (length rrIntervals) in
    let mean := (sum rrIntervals / n)%Q in
    let variance :=
      (fold_left (fun s val => (s + Math_pow2 (val - mean))%Q) rrIntervals 0 / n)%Q in
    let sdnn := Math_round (Math_sqrt variance) in
    let sumSquaredDiff := sum (map Math_pow2 (HRV.successive rrIntervals)) in
    let rmssd := Math_round (Math_sqrt (sumSquaredDiff / (n - 1))) in
    let status := if sdnn <? 30 then danger
                  else if sdnn <? 50 then warning
                  else normal in
    mkHrv (Num (ofZ sdnn)) (Num (ofZ rmssd)) status.

Definition estimateQTInterval (rPeaks : list Z) (hr : value) : QtData :=
  match hr with
  | Num hr =>
      if (length rPeaks <? 2)%nat || Qle_bool hr 0
      then mkQt Unavailable Unavailable unknown
      else
        let avgRR := (60 / hr)%Q in
        let estimatedQT := (avgRR * (4 # 10) * 1000)%Q in
        let qtc := Math_round (estimatedQT / Math_sqrt avgRR) in
        let status := if 450 <? qtc then danger
                      else if 430 <? qtc then warning
                      else normal in
        mkQt (Num (ofZ (Math_round estimatedQT))) (Num (ofZ qtc)) status
  | Unavailable => mkQt Unavailable Unavailable unknown
  end.
End WithHost.

Definition below_fraction (samples : list Q) (peakAmp : option Q) (i : Z) : bool :=
  cmp Qltb (Math_abs <$> sample_at samples i)
           ((fun a => (Math_abs a * (3 # 10))%Q) <$> peakAmp).

Definition estimateQRSDuration (samples : list Q) (rPeaks : list Z) (sr : Q) : QrsData :=
  if (length rPeaks <? 1)%nat then mkQrs Unavailable unknown
  else
    let searchWindow := Math_floor (sr * (1 # 10)) in
    let len := Z.of_nat (length samples) in
    let qrsWidths :=
      flat_map
        (fun peakIdx =>
           let peakAmp := sample_at samples peakIdx in
           let back := rev (range (Z.max 0 (peakIdx - searchWindow) + 1) (peakIdx + 1)) in
           let forth := range peakIdx (Z.min len (peakIdx + searchWindow)) in
           let qStart := default peakIdx (List.find (below_fraction samples peakAmp) back) in
           let qEnd := default peakIdx (List.find (below_fraction samples peakAmp) forth) in
           let qrsMs := (ofZ (qEnd - qStart) / sr * 1000)%Q in
           if Qgtb qrsMs 40 && Qltb qrsMs 200 then [qrsMs] else [])
        rPeaks in
    if (length qrsWidths =? 0)%nat then mkQrs Unavailable unknown
    else
      let avgQRS := Math_round (sum qrsWidths / ofNat (length qrsWidths)) in
      let status := if 120 <? avgQRS then danger
                    else if 100 <? avgQRS then warning
                    else normal in
      mkQrs (Num (ofZ avgQRS)) status.

(** The number that [x.toFixed(1)] prints: the magnitude of [x] to one
    decimal, half-way cases up, with the sign of [x]. *)
Definition toFixed1 (x : Q) : Q :=
  if Qltb x 0 then (- HRV.round1 (- x))%Q else HRV.round1 x.

(** [deviation] is the number that [toFixed(1)] prints. *)
Definition checkSTDeviation (samples : list Q) (rPeaks : list Z) (sr : Q) : StData :=
  if (length rPeaks <? 2)%nat then mkSt Unavailable unknown
  else
    let jPointOffset := Math_floor (sr * (6 # 100)) in
    let stOffset := Math_floor (sr * (8 # 100)) in
    let len := Z.of_nat (length samples) in
    let stDeviations :=
      flat_map
        (fun p =>
           let '(peakIdx, nextPeakIdx) := p in
           let baselineStart := peakIdx - Math_floor (sr * (1 # 10)) in
           let js := range (Z.max 0 baselineStart) (peakIdx - Math_floor (sr * (5 # 100))) in
           let total := sum (map (fun j => default 0%Q (sample_at samples j)) js) in
           let baseline := if (0 <? length js)%nat then (total / ofNat (length js))%Q else 0%Q in
           let stIdx := peakIdx + jPointOffset + stOffset in
           if (stIdx <? nextPeakIdx) && (stIdx <? len)
           then [(default 0%Q (sample_at samples stIdx) - baseline)%Q]
           else [])
        (zip rPeaks (tail rPeaks)) in
    if (length stDeviations =? 0)%nat then mkSt Unavailable unknown
    else
      let avgDeviation := (sum stDeviations / ofNat (length stDeviations))%Q in
      let deviationMm := (avgDeviation * 10)%Q in
      let status := if Qgtb (Math_abs deviationMm) 1 then danger
                    else if Qgtb (Math_abs deviationMm) (1 # 2) then warning
                    else normal in
      mkSt (Num (toFixed1 deviationMm)) status.

(** One metric's share of the score and its factor. *)
Definition contribution (s : status) (onWarning onDanger : Z * string)
    : Z * list string :=
  match s with
  | warning => (fst onWarning, [snd onWarning])
  | danger => (fst onDanger, [snd onDanger])
  | _ => (0, [])
  end.

Definition calculateRiskScore (hr : HrData) (hrv : HrvData) (qrs : QrsData)
    (qt : QtData) (st : StData) : RiskScore :=
  let parts :=
    [ contribution (hr_status hr) (1, "HR abnormal"%string) (2, "HR critical"%string);
      contribution (hrv_status hrv) (1, "Low HRV"%string) (2, "Very low HRV"%string);
      contribution (qrs_status qrs) (1, "Wide QRS"%string) (2, "QRS >120ms"%string);
      contribution (qt_status qt) (1, "Borderline QTc"%string) (2, "Prolonged QTc"%string);
      contribution (st_status st) (1, "ST deviation"%string) (3, "Significant ST change"%string) ] in
  let score := fold_left (fun s p => s + fst p) parts 0 in
  let factors := flat_map snd parts in
  let level := if 6 <=? score then high else if 3 <=? score then medium else low in
  mkRisk score level factors.

(** The analysis functions, to record which of them a run calls. *)
Inductive Call :=
| DetectRPeaks | HeartRate | Variability | QRSDuration | QTInterval
| STDeviation | RiskScoring.

Section WithHost.
Context `{Host}.

(** The body of [useMemo]: the metrics and, in order, the analysis
    functions that ran to produce them. *)
Definition analyse (leadData : option LeadData) (sampleRate : Q)
    : list Call * Metrics :=
  match leadData ≫= leadII with
  | None => ([], getDefaultMetrics)
  | Some samples =>
      if Qltb (ofNat (length samples)) (sampleRate * 2)
      then ([], getDefaultMetrics)
      else
        let rPeaks := detectRPeaks samples sampleRate in
        let hrData := calculateHeartRate rPeaks sampleRate in
        let hrvData := calculateHRV rPeaks sampleRate in
        let qrsData := estimateQRSDuration samples rPeaks sampleRate in
        let qtData := estimateQTInterval rPeaks (hr hrData) in
        let stData := checkSTDeviation samples rPeaks sampleRate in
        let riskScore := calculateRiskScore hrData hrvData qrsData qtData stData in
        ([DetectRPeaks; HeartRate; Variability; QRSDuration; QTInterval;
          STDeviation; RiskScoring],
         mkMetrics hrData hrvData qrsData qtData stData riskScore)
  end.

Definition metrics (leadData : option LeadData) (sampleRate : Q) : Metrics :=
  snd (analyse leadData sampleRate).
End WithHost.

End Risk.

(** ** Assumption on the host and a host for closed examples *)

(** [JSON.parse] only returns an object with a member named [k] when the
    text spells [k]; the names [lead1], [lead2] and [lead3] each hold a
    digit, and no two of them share one, so such a text has at least three
    matches of the number pattern. *)
Definition json_keys_in_text `{Host} : Prop :=
  forall (line : string) (obj : gmap string json_value),
    JSON_parse line = Some obj ->
    Forall (fun k => is_Some (obj !! k)) ["lead1"; "lead2"; "lead3"]%string ->
    (3 <= length (Parser.match_numbers line))%nat.

(** A host that rejects every line as JSON (as the real one does for a
    line of comma-separated numbers) and takes square roots to three
    decimals. *)
Definition csv_host : Host :=
  {| json_value := Empty_set;
     JSON_parse := fun _ => None;
     parseFloat_value := fun _ => F64.NaN;
     Math_sqrt := fun q => (JS.ofZ (Z.sqrt (Qfloor (q * 1000000))) / 1000)%Q |}.

(** The number that the decimal literal [s] denotes. *)
Definition literal (s : string) : F64.float := Parser.parseFloat_token s.

(** [x] is a finite number no further than [eps] from the rational [q]. *)
Definition within (eps : Q) (x : F64.float) (q : Q) : Prop :=
  exists v, F64.value x = Some v /\ (Qabs (v - q) <= eps)%Q.

(** ** Observations and scenarios *)

Module Scenario.
Import Visualizer.

(** The intervals as the HRV engine reads them. *)
Definition intervals (w : World) : list Q :=
  map JS.ofZ (rrIntervalsRef (det (refs w))).

(** The vitals after a call of [calculateAdvancedHRV]. *)
Definition vitals_after `{Host} (w : World) : Vitals :=
  vitals (ui (calculateAdvancedHRV w)).

Definition in_range (r : Z) : Prop := 333 <= r <= 1500.

Definition rr_ok (w : World) : Prop :=
  Forall in_range (rrIntervalsRef (det (refs w)))
  /\ (length (rrIntervalsRef (det (refs w))) <= 60)%nat.

(** A world whose interval list is [rrs]. *)
Definition with_intervals (rrs : list Z) : World :=
  with_det (fun d => mkDetector rrs (lastRPeakRef d) (rPeakBufferRef d)) mount.

(** The device announces a calibration and sends [n] samples before any
    completion line. *)
Definition calibration_scenario (n : nat) : list Event :=
  Line 0 "Starting Calibration"
  :: map (fun k => Line (8 * Z.of_nat k) "0.5,0.8") (seq 1 n).

(** Slot [i] of the ring buffer of lead [lead]. *)
Definition slot (lead i : nat) (w : World) : option Q :=
  bufferRef (ring (refs w)) !! lead ≫= fun b => b !! i.

(** A world in which the recording started at [start] seconds has
    stored [xs] for every lead. *)
Definition recording_of (start : Q) (xs : list Q) (w : World) : World :=
  with_record
    (fun _ => mkSession true (Some (fold_left (fun d ln => <[ln := xs]> d) leads ∅))
                (Z.of_nat (length xs)) (Some start))
    w.

(** The lead of the report under [key], when it is an array. *)
Definition report_lead (key : string) (w : World) : option (list Q) :=
  match recordedData (capture (ui w)) ≫= fun rep => rep !! key with
  | Some (VArr xs) => Some xs
  | _ => None
  end.

(** The excerpt metadata of the report, when it carries any. *)
Definition report_meta (w : World) : option JsVal :=
  recordedData (capture (ui w)) ≫= fun rep => rep !! "__meta".

(** A Lead II strip of [n] samples, 1 mV at the indices of [peaks] and
    flat elsewhere. *)
Definition strip (n : nat) (peaks : list nat) : list Q :=
  map (fun k => if bool_decide (k ∈ peaks) then 1%Q else 0%Q) (seq 0 n).
End Scenario.

(** ** Line source (the chunk loop of [connect]) *)

Module Stream.

Definition newline : ascii := "010"%char.

(** [s.split('\n')] *)
Fixpoint split (s : string) : list string :=
  match s with
  | EmptyString => [EmptyString]
  | String c r =>
      if Ascii.eqb c newline then EmptyString :: split r
      else match split r with
           | p :: ps => String c p :: ps
           | [] => [String c EmptyString]
           end
  end.

(** One turn of the read loop on the chunk [value]:
    [textBuffer += value; lines = textBuffer.split('\n');
     textBuffer = lines.pop() || ''].  The lines handed to the loop body
    and the new [textBuffer]. *)
Definition read (textBuffer value : string) : list string * string :=
  let lines := split (textBuffer +:+ value) in
  (List.removelast lines, List.last lines EmptyString).

(** The lines handed to the loop body over successive chunks, and the
    text left in [textBuffer]. *)
Fixpoint drain (textBuffer : string) (chunks : list string) : list string * string :=
  match chunks with
  | [] => ([], textBuffer)
  | value :: rest =>
      let '(lines, textBuffer) := read textBuffer value in
      let '(more, final) := drain textBuffer rest in
      (lines ++ more, final)
  end.

Fixpoint has_newline (s : string) : bool :=
  match s with
  | EmptyString => false
  | String c r => Ascii.eqb c newline || has_newline r
  end.

(** The chunks one after the other, as the device sent them. *)
Definition stream_text (chunks : list string) : string :=
  fold_right String.append EmptyString chunks.

(** Every line followed by a line feed, then [rest]. *)
Definition unsplit (lines : list string) (rest : string) : string :=
  fold_right (fun l acc => l +:+ String newline acc) rest lines.

End Stream.

(** ** Invariants of the component state *)

Module Invariant.
Import Visualizer.

(** Six lead buffers of the configured capacity, the cursor inside them,
    and the sample-rate ref in step with the state. *)
Definition ring_wf (w : World) : Prop :=
  let r := ring (refs w) in
  let c := ringCapacity (config (ui w)) in
  length (bufferRef r) = 6%nat
  /\ Forall (fun b => Z.of_nat (length b) = c) (bufferRef r)
  /\ Z.of_nat (writeIndexRef r) < c
  /\ sampleRateRef (refs w) = sampleRate (config (ui w))
  /\ 1 <= sampleRate (config (ui w)).

(** Every lead of the recording session holds [count] samples. *)
Definition session_wf (w : World) : Prop :=
  let s := recordRef (refs w) in
  match data s with
  | Some d =>
      forall ln, ln ∈ leads ->
        exists xs, d !! ln = Some xs /\ Z.of_nat (length xs) = count s
  | None => active s = false /\ count s = 0
  end.

(** The heart rate on display is the reset value or a plausible rate,
    and the peak window holds at most 15 samples. *)
Definition vitals_wf (w : World) : Prop :=
  (heartRate (vitals (ui w)) = 0 \/ 40 <= heartRate (vitals (ui w)) <= 180)
  /\ (length (rPeakBufferRef (det (refs w))) <= 15)%nat.

(** Six state cells per filter stage, and the coefficients that the
    sample-rate effect computes from the rate in [sampleRateRef]. *)
Definition bank_wf (w : World) : Prop :=
  let b := bank (refs w) in
  let fresh := bank (refs (effect_filter w)) in
  length (hpStateRef b) = 6%nat /\ length (lpStateRef b) = 6%nat
  /\ hpAlphaRef b = hpAlphaRef fresh /\ lpAlphaRef b = lpAlphaRef fresh.

(** The chronological view of one lead buffer from the cursor [i]. *)
Definition chronological (i : nat) (b : list Q) : list Q :=
  map (fun s => default 0%Q (b !! ((i + s) mod length b)%nat)) (seq 0 (length b)).

(** The consecutive entries of an index list are more than [gap] apart. *)
Fixpoint spaced (gap : Z) (peaks : list Z) : Prop :=
  match peaks with
  | a :: (b :: _) as rest => gap < b - a /\ spaced gap rest
  | _ => True
  end.

End Invariant.

(** * Properties *)

Import Scenario.

(** Case analysis on every conditional of the goal. *)
Ltac case_ifs :=
  repeat match goal with
         | |- context [if ?b then _ else _] => destruct b
         end.

(** ** Sample parser *)

Section ParserFacts.
Context `{Host}.
Hypothesis keys_in_text : json_keys_in_text.

Lemma structured_needs_three_numbers (line : string) (arr : list F64.float) :
  Parser.structured line = Some arr ->
  (3 <= length (Parser.match_numbers line))%nat.
Proof.
  unfold Parser.structured.
  destruct (JSON_parse line) as [obj|] eqn:Hparse; [|discriminate].
  destruct (forallb _ Parser.lead_keys) eqn:Hall; [|discriminate].
  intros _. apply (keys_in_text line obj Hparse).
  cbn [forallb Parser.lead_keys] in Hall.
  repeat (apply andb_prop in Hall; destruct Hall as [?%bool_decide_eq_true Hall]).
  repeat constructor; assumption.
Qed.

Lemma parseSample_two (line : string) (x y : F64.float) :
  map Parser.parseFloat_token (Parser.match_numbers line) = [x; y] ->
  Parser.parseSample line =
    Some [x; y; F64.sub y x;
          F64.sub (F64.of_Z 0) (F64.div (F64.add x y) (F64.of_Z 2));
          F64.sub x (F64.div (F64.add (F64.of_Z 0) y) (F64.of_Z 2));
          F64.sub y (F64.div (F64.add (F64.of_Z 0) x) (F64.of_Z 2))].
Proof.
  intros Hnums. unfold Parser.parseSample.
  destruct (Parser.structured line) as [arr|] eqn:Hs.
  - apply structured_needs_three_numbers in Hs.
    apply (f_equal length) in Hnums. rewrite length_map in Hnums.
    cbn in Hnums. lia.
  - unfold Parser.numeric. rewrite Hnums. reflexivity.
Qed.

Lemma parseSample_csv2 :
  Parser.parseSample "0.5,0.8"
  = Some (map literal ["0.5"; "0.8"; "0.30000000000000004"; "-0.65";
                       "0.09999999999999998"; "0.55"]%string).
Proof.
  rewrite (parseSample_two "0.5,0.8" (literal "0.5") (literal "0.8")) by reflexivity.
  vm_compute. reflexivity.
Qed.
End ParserFacts.

(** C4, as amended. A trimmed line with exactly two numeric tokens, [a]
    and [b] the doubles [parseFloat] reads from them, parses to the
    six-lead vector I = a, II = b, III = b - a, aVR = 0 - (a + b)/2,
    aVL = a - (0 + b)/2, aVF = b - (0 + a)/2, each operation rounded to
    the nearest double.  The line "0.5,0.8" gives 0.5, 0.8,
    0.30000000000000004, -0.65, 0.09999999999999998 and 0.55: the six
    values are within 10^-16 of 0.5, 0.8, 0.3, -0.65, 0.1 and 0.55. *)
Theorem two_value_line_derivation `{Host} :
  json_keys_in_text ->
  (forall (line : string) (a b : F64.float),
      map Parser.parseFloat_token (Parser.match_numbers line) = [a; b] ->
      Parser.parseSample line =
        Some [a; b; F64.sub b a;
              F64.sub (F64.of_Z 0) (F64.div (F64.add a b) (F64.of_Z 2));
              F64.sub a (F64.div (F64.add (F64.of_Z 0) b) (F64.of_Z 2));
              F64.sub b (F64.div (F64.add (F64.of_Z 0) a) (F64.of_Z 2))])
  /\ Parser.parseSample "0.5,0.8"
     = Some (map literal ["0.5"; "0.8"; "0.30000000000000004"; "-0.65";
                          "0.09999999999999998"; "0.55"]%string)
  /\ Forall2 (within (1 # 10 ^ 16))
       (default [] (Parser.parseSample "0.5,0.8"))
       [5 # 10; 8 # 10; 3 # 10; - (65 # 100); 1 # 10; 55 # 100]%Q.
Proof.
  intros Hkeys. split; [|split].
  - intros line a b. apply parseSample_two. exact Hkeys.
  - apply parseSample_csv2. exact Hkeys.
  - rewrite (parseSample_csv2 Hkeys). cbn [default map].
    repeat constructor; (eexists; split; [vm_compute; reflexivity|vm_compute; discriminate]).
Qed.

Lemma two_value_line_derivation_witness :
  @json_keys_in_text csv_host
  /\ @Parser.parseSample csv_host "-1.5 2"
     = Some (map literal ["-1.5"; "2"; "3.5"; "-0.25"; "-2.5"; "2.75"]%string)
  /\ @Parser.parseSample csv_host "0.5,0.8"
     = Some (map literal ["0.5"; "0.8"; "0.30000000000000004"; "-0.65";
                          "0.09999999999999998"; "0.55"]%string).
Proof.
  assert (Hkeys : @json_keys_in_text csv_host) by (intros line obj Hp; discriminate Hp).
  split; [exact Hkeys|]. split.
  - rewrite (proj1 (@two_value_line_derivation csv_host Hkeys) "-1.5 2"
               (literal "-1.5") (literal "2")) by reflexivity.
    vm_compute. reflexivity.
  - exact (proj1 (proj2 (@two_value_line_derivation csv_host Hkeys))).
Defined.

(** C4, as the specification words it, fails on its own example: the
    third and the fifth value that the line "0.5,0.8" parses to are not
    the numbers 0.3 and 0.1 (they carry the rounding of [0.8 - 0.5] and
    [0.5 - 0.8/2] on doubles), so the six values are not 0.5, 0.8, 0.3,
    -0.65, 0.1 and 0.55. *)
Lemma two_value_line_is_rounded :
  ~ (exists arr,
       @Parser.parseSample csv_host "0.5,0.8" = Some arr
       /\ Forall2 (fun x s => F64.eqb x (literal s) = true) arr
            ["0.5"; "0.8"; "0.3"; "-0.65"; "0.1"; "0.55"]%string).
Proof.
  intros (arr & Hp & Hall).
  assert (Hkeys : @json_keys_in_text csv_host) by (intros line obj Hq; discriminate Hq).
  rewrite (@parseSample_csv2 csv_host Hkeys) in Hp. injection Hp as <-.
  cbn [map] in Hall.
  apply Forall2_cons_1 in Hall as [_ Hall]. apply Forall2_cons_1 in Hall as [_ Hall].
  apply Forall2_cons_1 in Hall as [H3 _]. vm_compute in H3. discriminate H3.
Qed.

(** ** HRV engine *)

Lemma Qltb_lt (x y : Q) : JS.Qltb x y = true <-> (x < y)%Q.
Proof.
  unfold JS.Qltb. rewrite negb_true_iff, <- not_true_iff_false, Qle_bool_iff.
  split; [apply Qnot_le_lt | apply Qlt_not_le].
Qed.

Lemma Qgtb_lt (x y : Q) : JS.Qgtb x y = true <-> (y < x)%Q.
Proof. apply Qltb_lt. Qed.

Section HrvFacts.
Context `{Host}.

Lemma classify_spec (s r : Q) :
  ((s < 30 \/ r < 15)%Q -> HRV.classify s r = HRV.low)
  /\ (~ (s < 30 \/ r < 15)%Q -> (80 < s /\ 40 < r)%Q ->
      HRV.classify s r = HRV.athletic)
  /\ (~ (s < 30 \/ r < 15)%Q -> ~ (80 < s /\ 40 < r)%Q -> (50 < s /\ 25 < r)%Q ->
      HRV.classify s r = HRV.high)
  /\ (~ (s < 30 \/ r < 15)%Q -> ~ (80 < s /\ 40 < r)%Q -> ~ (50 < s /\ 25 < r)%Q ->
      HRV.classify s r = HRV.normal).
Proof.
  unfold HRV.classify.
  destruct (JS.Qltb s 30) eqn:E1; [rewrite Qltb_lt in E1|rewrite <- not_true_iff_false, Qltb_lt in E1];
  destruct (JS.Qltb r 15) eqn:E2; [rewrite Qltb_lt in E2|rewrite <- not_true_iff_false, Qltb_lt in E2| |];
  try rewrite Qltb_lt in E2; try (rewrite <- not_true_iff_false, Qltb_lt in E2);
  cbn [orb]; try tauto.
  destruct (JS.Qgtb s 80) eqn:E3; [rewrite Qgtb_lt in E3|rewrite <- not_true_iff_false, Qgtb_lt in E3];
  (destruct (JS.Qgtb r 40) eqn:E4; [rewrite Qgtb_lt in E4|rewrite <- not_true_iff_false, Qgtb_lt in E4]);
  cbn [andb];
  (destruct (JS.Qgtb s 50) eqn:E5; [rewrite Qgtb_lt in E5|rewrite <- not_true_iff_false, Qgtb_lt in E5]);
  (destruct (JS.Qgtb r 25) eqn:E6; [rewrite Qgtb_lt in E6|rewrite <- not_true_iff_false, Qgtb_lt in E6]);
  cbn [andb]; tauto.
Qed.

Lemma engine_runs (w : Visualizer.World) :
  (3 <= length (intervals w))%nat ->
  exists m,
    HRV.calculateAdvancedHRV
      (Visualizer.rrIntervalsRef (Visualizer.det (Visualizer.refs w)))
    = Some (HRV.classify (HRV.sdnn_of (intervals w)) (HRV.rmssd_of (intervals w)), m)
    /\ vitals_after w
       = Visualizer.mkVitals (Visualizer.heartRate (Visualizer.vitals (Visualizer.ui w)))
           m (HRV.classify (HRV.sdnn_of (intervals w)) (HRV.rmssd_of (intervals w)))
    /\ HRV.sdnn m = HRV.round1 (HRV.sdnn_of (intervals w))
    /\ HRV.rmssd m = HRV.round1 (HRV.rmssd_of (intervals w))
    /\ HRV.pnn50 m = HRV.round1 (HRV.pnn_of 50 (intervals w))
    /\ HRV.pnn20 m = HRV.round1 (HRV.pnn_of 20 (intervals w))
    /\ HRV.meanRR m = JS.Math_round (HRV.mean (intervals w))
    /\ (HRV.hfPower m, HRV.lfPower m, HRV.lfHfRatio m) = HRV.frequency (intervals w).
Proof.
  intros Hlen. unfold vitals_after, Visualizer.calculateAdvancedHRV,
    HRV.calculateAdvancedHRV. fold (intervals w).
  destruct (length (intervals w) <? 3)%nat eqn:E; [apply Nat.ltb_lt in E; lia|].
  destruct (HRV.frequency (intervals w)) as [[hf lf] ratio].
  eexists. split; [reflexivity|]. cbn. repeat split; reflexivity.
Qed.
End HrvFacts.

(** C7. For an interval list of length at least 3 the status set by the
    HRV engine is low when sdnn < 30 or rmssd < 15; otherwise athletic
    when sdnn > 80 and rmssd > 40; otherwise high when sdnn > 50 and
    rmssd > 25; otherwise normal. *)
Theorem hrv_status_precedence `{Host} (w : Visualizer.World) :
  (3 <= length (intervals w))%nat ->
  let s := HRV.sdnn_of (intervals w) in
  let r := HRV.rmssd_of (intervals w) in
  let status := Visualizer.hrvStatus (vitals_after w) in
  ((s < 30 \/ r < 15)%Q -> status = HRV.low)
  /\ (~ (s < 30 \/ r < 15)%Q -> (80 < s /\ 40 < r)%Q -> status = HRV.athletic)
  /\ (~ (s < 30 \/ r < 15)%Q -> ~ (80 < s /\ 40 < r)%Q -> (50 < s /\ 25 < r)%Q ->
      status = HRV.high)
  /\ (~ (s < 30 \/ r < 15)%Q -> ~ (80 < s /\ 40 < r)%Q -> ~ (50 < s /\ 25 < r)%Q ->
      status = HRV.normal).
Proof.
  intros Hlen s r status.
  destruct (engine_runs w Hlen) as [m [_ [Hv _]]].
  subst status. rewrite Hv. cbn [Visualizer.hrvStatus].
  apply classify_spec.
Qed.


(** ** Beat detector *)

Section DetectorFacts.
Context `{Host}.
Import Visualizer.

Lemma shift_while_longer_length {A} (cap : nat) (xs : list A) :
  (length (JS.shift_while_longer cap xs) <= cap)%nat.
Proof.
  induction xs as [|x xs IH]; cbn [JS.shift_while_longer]; [cbn; lia|].
  destruct (cap <? length (x :: xs))%nat eqn:E; [exact IH|].
  apply Nat.ltb_ge in E. exact E.
Qed.

Lemma shift_while_longer_Forall {A} (P : A -> Prop) (cap : nat) (xs : list A) :
  Forall P xs -> Forall P (JS.shift_while_longer cap xs).
Proof.
  induction 1 as [|x xs Hx Hxs IH]; cbn [JS.shift_while_longer]; [constructor|].
  destruct (cap <? length (x :: xs))%nat; [exact IH|]. constructor; assumption.
Qed.

Lemma shift_drops_oldest {A} (cap : nat) (xs : list A) (x : A) :
  length xs = cap -> (0 < cap)%nat ->
  JS.shift_while_longer cap (xs ++ [x]) = tail xs ++ [x].
Proof.
  intros Hlen Hpos. destruct xs as [|a xs]; [cbn in Hlen; lia|].
  cbn [app tail JS.shift_while_longer].
  assert (Hl : length (a :: xs ++ [x]) = S cap)
    by (cbn; rewrite length_app; cbn in *; lia).
  rewrite Hl. replace (cap <? S cap)%nat with true by (symmetry; apply Nat.ltb_lt; lia).
  destruct (xs ++ [x]) as [|b r] eqn:E; [reflexivity|].
  cbn [JS.shift_while_longer].
  replace (cap <? length (b :: r))%nat with false; [reflexivity|].
  symmetry. apply Nat.ltb_ge. cbn in Hl. cbn. lia.
Qed.

(** The cells the other operations leave alone. *)
Lemma det_calculateAdvancedHRV (w : World) :
  det (refs (calculateAdvancedHRV w)) = det (refs w).
Proof.
  unfold calculateAdvancedHRV.
  destruct (HRV.calculateAdvancedHRV _) as [[st m]|]; reflexivity.
Qed.

Lemma rrs_storeInterval (r : Z) (w : World) :
  rrIntervalsRef (det (refs (storeInterval r w)))
  = JS.shift_while_longer 60 (rrIntervalsRef (det (refs w)) ++ [r]).
Proof.
  unfold storeInterval. cbv zeta.
  case_ifs; rewrite ?det_calculateAdvancedHRV; reflexivity.
Qed.

Lemma rr_ok_storeInterval (r : Z) (w : World) :
  in_range r -> rr_ok w -> rr_ok (storeInterval r w).
Proof.
  intros Hr [Hall Hlen]. unfold rr_ok. rewrite rrs_storeInterval. split.
  - apply shift_while_longer_Forall. apply Forall_app. split; [assumption|].
    constructor; [assumption|constructor].
  - apply shift_while_longer_length.
Qed.

Lemma rr_ok_ext (w w' : World) :
  rrIntervalsRef (det (refs w')) = rrIntervalsRef (det (refs w)) ->
  rr_ok w -> rr_ok w'.
Proof. unfold rr_ok. intros ->. trivial. Qed.

Lemma rr_ok_detect (now : Z) (mvs : list Q) (w : World) :
  rr_ok w -> rr_ok (detectRPeakMultiLead now mvs w).
Proof.
  intros Hok. unfold detectRPeakMultiLead. cbv zeta.
  destruct (match lastRPeakRef (det (refs w)) with
            | Some t => now - t <? 300 | None => false end); [exact Hok|].
  destruct (length _ <? 9)%nat; [exact Hok|].
  destruct (_ !! _) as [midSample|]; [|exact Hok].
  destruct (isPeak_of _ _ _); [|exact Hok].
  destruct (lastRPeakRef (det (refs w))) as [t|]; [|exact Hok].
  destruct ((333 <=? time midSample - t) && (time midSample - t <=? 1500)) eqn:Er;
    [|exact Hok].
  destruct (acceptBeat_of _ _); [|exact Hok].
  apply andb_prop in Er. destruct Er as [E1%Z.leb_le E2%Z.leb_le].
  match goal with
  | |- rr_ok (with_det _ (storeInterval ?r ?w1)) =>
      apply (rr_ok_ext (storeInterval r w1));
      [reflexivity|apply rr_ok_storeInterval; [split; assumption|exact Hok]]
  end.
Qed.

Lemma det_stopRecording env auto sec (w : World) :
  det (refs (stopRecording env auto sec w)) = det (refs w).
Proof.
  unfold stopRecording.
  destruct (negb _ && negb auto && negb _); [reflexivity|].
  destruct (negb auto); reflexivity.
Qed.

Lemma det_recordSample env now mvs (w : World) :
  det (refs (recordSample env now mvs w)) = det (refs w).
Proof.
  unfold recordSample.
  destruct (data (recordRef (refs w))); [|reflexivity].
  destruct (active (recordRef (refs w))); [|reflexivity].
  cbv zeta.
  destruct (JS.Qgeb _ _ && negb _); [|reflexivity].
  rewrite det_stopRecording. reflexivity.
Qed.

Lemma rr_ok_handleSample v env now arr (w : World) :
  rr_ok w -> rr_ok (handleSample v env now arr w).
Proof.
  intros Hok. unfold handleSample.
  destruct (isCalibrating (link env)); [exact Hok|].
  destruct (filterAll _ _ _) as [mvs b].
  eapply rr_ok_ext; [unfold writeSample; cbn; rewrite det_recordSample; reflexivity|].
  destruct v; [exact Hok|].
  apply rr_ok_detect. exact Hok.
Qed.

Lemma rr_ok_step v env e (w : World) : rr_ok w -> rr_ok (step v env w e).
Proof.
  intros Hok. destruct e as [now raw|]; cbn [step].
  - unfold processLine. cbv zeta.
    destruct (JS.is_empty _); [exact Hok|].
    destruct (is_calibration_end _); [exact Hok|].
    destruct (is_calibration_start _); [exact Hok|].
    destruct (Parser.parseSample _); [|exact Hok].
    apply rr_ok_handleSample. exact Hok.
  - destruct (calibTimeout _); exact Hok.
Qed.

Lemma rr_ok_reachable (w : World) : reachable w -> rr_ok w.
Proof.
  induction 1 as [|v w _ IH|v env e w _ IH|now mvs w _ IH|env v now w _ IH
                 |env auto sec w _ IH|parsed w _ IH|parsed w _ IH].
  - split; [constructor|cbn; lia].
  - destruct v; [exact IH|]. split; [constructor|cbn; lia].
  - apply rr_ok_step. exact IH.
  - apply rr_ok_detect. exact IH.
  - unfold startRecording. destruct (negb _ || negb _); exact IH.
  - eapply rr_ok_ext; [rewrite det_stopRecording; reflexivity|exact IH].
  - unfold onChange_window, commit. cbv zeta. case_ifs; exact IH.
  - unfold onChange_sampleRate, commit. cbv zeta. case_ifs; exact IH.
Qed.

Lemma reachable_detect_all (inputs : list (Z * list Q)) (w : World) :
  reachable w -> reachable (detect_all inputs w).
Proof.
  revert w. induction inputs as [|i r IH]; intros w Hw; [exact Hw|].
  apply IH. constructor. exact Hw.
Qed.
End DetectorFacts.

(** C6. In every reachable world each stored R-R interval lies in
    [333, 1500] ms, the list holds at most 60 of them, and storing one
    more in a full list drops the oldest. *)
Theorem rr_intervals_bounded `{Host} (w : Visualizer.World) :
  Visualizer.reachable w ->
  let rrs := Visualizer.rrIntervalsRef (Visualizer.det (Visualizer.refs w)) in
  Forall (fun r => 333 <= r <= 1500) rrs
  /\ (length rrs <= 60)%nat
  /\ (forall r, length rrs = 60%nat ->
        Visualizer.rrIntervalsRef
          (Visualizer.det (Visualizer.refs (Visualizer.storeInterval r w)))
        = tail rrs ++ [r]).
Proof.
  intros Hreach rrs.
  destruct (rr_ok_reachable w Hreach) as [Hall Hlen].
  split; [exact Hall|]. split; [exact Hlen|].
  intros r Hfull. rewrite rrs_storeInterval.
  apply shift_drops_oldest; [exact Hfull|lia].
Qed.

Lemma rr_intervals_bounded_witness :
  let w := @Visualizer.detect_all csv_host
             (Visualizer.sampled Visualizer.two_beats 120) Visualizer.mount in
  @Visualizer.reachable csv_host w
  /\ Visualizer.rrIntervalsRef (Visualizer.det (Visualizer.refs w)) = [800]
  /\ Forall (fun r => 333 <= r <= 1500)
       (Visualizer.rrIntervalsRef (Visualizer.det (Visualizer.refs w))).
Proof.
  intros w.
  assert (Hreach : @Visualizer.reachable csv_host w).
  { apply reachable_detect_all. constructor. }
  split; [exact Hreach|]. split; [vm_compute; reflexivity|].
  exact (proj1 (@rr_intervals_bounded csv_host w Hreach)).
Defined.

(** C5. The refractory test compares the arrival time of the current
    sample with the last accepted beat, while the beat it accepts is the
    middle sample of a window that still holds the samples from before the
    refractory gap: on an R wave at 64 ms followed by an S wave at 72 ms
    the track of accepted beats is 64, 72, two entries 8 ms apart. *)
Theorem refractory_gap_violated `{Host} :
  let inputs := Visualizer.sampled Visualizer.rs_complex 47 in
  Visualizer.beat_track inputs Visualizer.mount = [64; 72]
  /\ Visualizer.lastRPeakRef
       (Visualizer.det (Visualizer.refs (Visualizer.detect_all inputs Visualizer.mount)))
     = Some 72
  /\ 72 - 64 < 300.
Proof.
  intros inputs. split; [vm_compute; reflexivity|].
  split; [vm_compute; reflexivity|lia].
Qed.

(** ** Calibration gate *)

Section GateFacts.
Context `{Host}.
Hypothesis keys_in_text : json_keys_in_text.
Import Visualizer.

(** The gate is a function of the closure state alone. *)
Lemma handleSample_gate v env now arr (w : World) :
  isCalibrating (link env) = true -> handleSample v env now arr w = w.
Proof. intros Hcal. unfold handleSample. rewrite Hcal. reflexivity. Qed.

Lemma processLine_start v env now (w : World) :
  processLine v env now "Starting Calibration" w = setIsCalibrating true w.
Proof. reflexivity. Qed.

Lemma processLine_csv2 v env now (w : World) :
  processLine v env now "0.5,0.8" w
  = handleSample v env now
      (map literal ["0.5"; "0.8"; "0.30000000000000004"; "-0.65";
                    "0.09999999999999998"; "0.55"]%string) w.
Proof.
  unfold processLine. cbv zeta.
  change (JS.trim "0.5,0.8") with "0.5,0.8"%string.
  change (JS.is_empty "0.5,0.8") with false.
  change (is_calibration_end (JS.toLowerCase "0.5,0.8")) with false.
  change (is_calibration_start (JS.toLowerCase "0.5,0.8")) with false.
  cbv iota.
  rewrite (parseSample_csv2 keys_in_text).
  reflexivity.
Qed.

Lemma gate_scenario_run v :
  let w := session v (calibration_scenario 3) mount in
  isCalibrating (link (ui w)) = true
  /\ writeIndexRef (ring (refs w)) = 3%nat
  /\ exists x, slot 0 0 w = Some x /\ (0 < x)%Q.
Proof.
  unfold session, run, calibration_scenario.
  cbn [seq map fold_left step].
  rewrite processLine_start, !processLine_csv2.
  destruct v.
  - split; [vm_compute; reflexivity|]. split; [vm_compute; reflexivity|].
    eexists. split; [vm_compute; reflexivity|reflexivity].
  - split; [vm_compute; reflexivity|]. split; [vm_compute; reflexivity|].
    eexists. split; [vm_compute; reflexivity|reflexivity].
Qed.
End GateFacts.

(** C1. The test that should discard samples during calibration reads the
    flag of the render that called [connect].  After a connect from the
    initial render (flag false there), the line "Starting Calibration" and
    three sample lines, the flag is set, yet the three samples are in the
    ring buffer and the write cursor stands at 3. *)
Theorem calibration_gate_reads_stale_flag `{Host} (v : Visualizer.Variant) :
  json_keys_in_text ->
  let w := Visualizer.session v (calibration_scenario 3) Visualizer.mount in
  Visualizer.isCalibrating (Visualizer.link (Visualizer.ui w)) = true
  /\ Visualizer.writeIndexRef (Visualizer.ring (Visualizer.refs w)) = 3%nat
  /\ exists x, slot 0 0 w = Some x /\ (0 < x)%Q.
Proof. intros Hkeys. apply gate_scenario_run. exact Hkeys. Qed.

Lemma calibration_gate_reads_stale_flag_witness :
  @json_keys_in_text csv_host
  /\ Visualizer.writeIndexRef
       (Visualizer.ring (Visualizer.refs
          (@Visualizer.session csv_host Visualizer.SerialOnly
             (calibration_scenario 3) Visualizer.mount))) = 3%nat.
Proof.
  assert (Hkeys : @json_keys_in_text csv_host) by (intros line obj Hp; discriminate Hp).
  split; [exact Hkeys|].
  exact (proj1 (proj2 (@calibration_gate_reads_stale_flag csv_host Visualizer.SerialOnly Hkeys))).
Defined.

(** ** Recording and the report *)

Lemma floor_of_product (a b : Z) : JS.Math_floor (JS.ofZ a * JS.ofZ b) = a * b.
Proof.
  unfold JS.Math_floor, JS.ofZ. rewrite <- inject_Z_mult. apply Qfloor_Z.
Qed.

Lemma round_of_product (a b : Z) : JS.Math_round (JS.ofZ a * JS.ofZ b) = a * b.
Proof.
  unfold JS.Math_round, JS.ofZ. rewrite <- inject_Z_mult.
  unfold Qfloor, Qplus, inject_Z. cbn [Qnum Qden].
  change (Z.pos (1 * 2)) with 2.
  replace (a * b * 2 + 1 * 1) with (1 + (a * b) * 2) by lia.
  rewrite Z.div_add by lia. reflexivity.
Qed.


Section ReportFacts.
Import Visualizer.

Lemma setLead_other (short long key : string) arr (n : gmap string JsVal) :
  key <> short -> key <> long ->
  setLead short long arr n !! key = n !! key.
Proof.
  intros Hs Hl. unfold setLead.
  rewrite !lookup_insert_ne by congruence. reflexivity.
Qed.

(** No path of [stopRecording] copies [snap.__meta] into the object it
    hands to [setRecordedData]. *)
Lemma normalize_has_no_meta (env : UiState) (snap : gmap string JsVal) :
  normalize env snap !! "__meta" = None.
Proof.
  unfold normalize. cbn [zip zip_with leads shortKeys fold_left].
  assert (Hbase : forall n : gmap string JsVal,
             n !! "__meta" = None -> derive n !! "__meta" = None).
  { intros n Hn. unfold derive.
    repeat match goal with
           | |- context [match ?x with _ => _ end] => destruct x
           end;
    rewrite ?setLead_other by discriminate; exact Hn. }
  assert (Hfold : forall a1 a2 a3 a4 a5 a6,
    (setLead "aVF" "aVF" a6 (setLead "aVL" "aVL" a5 (setLead "aVR" "aVR" a4
      (setLead "III" "Lead III" a3 (setLead "II" "Lead II" a2
        (setLead "I" "Lead I" a1 ∅)))))) !! "__meta" = None).
  { intros. rewrite !setLead_other by discriminate. apply lookup_empty. }
  destruct (advancedReport (config env)); [apply Hbase|]; apply Hfold.
Qed.

Lemma report_meta_after_stop env auto sec (w : World) :
  isRecording (capture env) = true \/ auto = true \/ active (recordRef (refs w)) = true ->
  report_meta (stopRecording env auto sec w) = None.
Proof.
  intros Hgo. unfold report_meta, stopRecording.
  destruct (negb (isRecording (capture env)) && negb auto
            && negb (active (recordRef (refs w)))) eqn:E.
  - apply andb_prop in E. destruct E as [E E3]. apply andb_prop in E.
    destruct E as [E1 E2]. rewrite negb_true_iff in E1, E2, E3.
    destruct Hgo as [Hg|[Hg|Hg]]; congruence.
  - destruct (negb auto); cbn; apply normalize_has_no_meta.
Qed.
Lemma slice_length {A} (a b : Z) (xs : list A) :
0 <= a <= b -> b <= Z.of_nat (length xs) ->
length (JS.slice a b xs) = Z.to_nat (b - a).
Proof.
intros Hab Hb. unfold JS.slice. cbv zeta.
destruct (a <? 0) eqn:Ea; [apply Z.ltb_lt in Ea; lia|].
destruct (b <? 0) eqn:Eb; [apply Z.ltb_lt in Eb; lia|].
rewrite length_take, length_drop. lia.
Qed.

Lemma slice_from_end_length {A} (k : Z) (xs : list A) :
0 < k <= Z.of_nat (length xs) ->
length (JS.slice_from (- k) xs) = Z.to_nat k.
Proof.
intros Hk. unfold JS.slice_from, JS.slice. cbv zeta.
destruct (- k <? 0) eqn:Ea; [|apply Z.ltb_ge in Ea; lia].
destruct (Z.of_nat (length xs) <? 0) eqn:Eb; [apply Z.ltb_lt in Eb; lia|].
rewrite length_take, length_drop. lia.
Qed.

(** The three cases of the excerpt (enough samples up to the boundary,
  the tail fallback, the whole array) all keep one second of samples
  once a second has been recorded. *)
Lemma excerpt_length (rate : Z) (arr : list Q) :
1 <= rate -> rate <= Z.of_nat (length arr) ->
length (excerpt rate (15 * rate) arr) = Z.to_nat rate.
Proof.
intros Hrate Hlen. unfold excerpt. cbv zeta.
destruct (15 * rate - rate <? 0) eqn:E0; [apply Z.ltb_lt in E0; lia|].
destruct (15 * rate <=? Z.of_nat (length arr)) eqn:E1.
- apply Z.leb_le in E1. rewrite slice_length by lia. lia.
- destruct (rate <? Z.of_nat (length arr)) eqn:E2.
  + apply Z.ltb_lt in E2. apply slice_from_end_length. lia.
  + apply Z.ltb_ge in E2. unfold JS.slice_from. rewrite slice_length by lia. lia.
Qed.

Lemma snapshot_auto_lead (sec : Q) (r : Refs) (ln : string) :
ln ∈ leads ->
snapshot true sec r !! ln
= Some (VArr (excerpt (JS.Math_floor (1 * JS.ofZ (sampleRateRef r)))
                      (JS.Math_floor (sec * JS.ofZ (sampleRateRef r)))
                      (recorded (recordRef r) ln))).
Proof.
intros Hin. unfold snapshot. cbn [leads fold_left].
unfold leads in Hin.
repeat (apply elem_of_cons in Hin; destruct Hin as [->|Hin]);
  [..|apply elem_of_nil in Hin; contradiction];
  simplify_map_eq; reflexivity.
Qed.

Lemma normalize_all_present env (snap : gmap string JsVal)
  (a1 a2 a3 a4 a5 a6 : list Q) :
snap !! "Lead I" = Some (VArr a1) -> snap !! "Lead II" = Some (VArr a2) ->
snap !! "Lead III" = Some (VArr a3) -> snap !! "aVR" = Some (VArr a4) ->
snap !! "aVL" = Some (VArr a5) -> snap !! "aVF" = Some (VArr a6) ->
normalize env snap !! "II" = Some (VArr a2)
/\ normalize env snap !! "Lead II" = Some (VArr a2).
Proof.
intros H1 H2 H3 H4 H5 H6. unfold normalize.
cbn [zip zip_with leads shortKeys fold_left].
rewrite H1, H2, H3, H4, H5, H6. unfold js_or. cbn [truthy].
destruct (advancedReport (config env)).
- unfold derive, is_missing, setLead. cbn [truthy default].
  simplify_map_eq. cbn. simplify_map_eq. split; reflexivity.
- unfold setLead. cbn [truthy default]. simplify_map_eq. split; reflexivity.
Qed.

(** Every automatic stop at the capture boundary, whatever the closure
  state: with a second of samples recorded, Lead II of the report holds
  [sampleRate] samples, and the report has no [__meta]. *)
Lemma auto_stop_report_shape env (w : World) :
let rate := sampleRateRef (refs w) in
1 <= rate ->
rate <= Z.of_nat (length (recorded (recordRef (refs w)) "Lead II")) ->
let w' := stopRecording env true CAPTURE_SECONDS w in
length <$> report_lead "II" w' = Some (Z.to_nat rate)
/\ length <$> report_lead "Lead II" w' = Some (Z.to_nat rate)
/\ report_meta w' = None.
Proof.
intros rate Hrate Hlen w'.
assert (Hmeta : report_meta w' = None)
  by (apply report_meta_after_stop; right; left; reflexivity).
split; [|split; [|exact Hmeta]].
all: subst w'; unfold report_lead, stopRecording;
  rewrite andb_false_r; cbn [andb negb];
  cbn -[normalize snapshot]; set (r := mkRefs _ _ _ _ _ _ _);
  destruct (normalize_all_present env (snapshot true CAPTURE_SECONDS r) _ _ _ _ _ _
              (snapshot_auto_lead _ r "Lead I" ltac:(set_solver))
              (snapshot_auto_lead _ r "Lead II" ltac:(set_solver))
              (snapshot_auto_lead _ r "Lead III" ltac:(set_solver))
              (snapshot_auto_lead _ r "aVR" ltac:(set_solver))
              (snapshot_auto_lead _ r "aVL" ltac:(set_solver))
              (snapshot_auto_lead _ r "aVF" ltac:(set_solver))) as [Hs Hl];
  rewrite ?Hs, ?Hl; cbn [fmap option_fmap option_map]; f_equal;
  subst r; cbn [sampleRateRef recordRef];
  change 1%Q with (JS.ofZ 1); change CAPTURE_SECONDS with (JS.ofZ 15);
  rewrite !floor_of_product, Z.mul_1_l;
  apply excerpt_length; assumption.
Qed.
End ReportFacts.

(** C2. The automatic stop at the 15 s boundary of a recording at 125 Hz
    (1874 samples stored, the 1875th arriving 15 s after the start) yields
    a report whose Lead II holds 125 samples, under both of its names, and
    no excerpt metadata: the object [__meta] stays on the local snapshot. *)
Theorem auto_stop_report_drops_metadata :
  let w0 := recording_of 1000 (replicate 1874 (1 # 2)%Q)
              (Visualizer.connect Visualizer.SerialOnly Visualizer.mount) in
  let w := Visualizer.recordSample (Visualizer.ui Visualizer.mount) 1015000
             (replicate 6 (1 # 2)%Q) w0 in
  Visualizer.isWaiting (Visualizer.capture (Visualizer.ui w)) = true
  /\ length <$> report_lead "II" w = Some 125%nat
  /\ length <$> report_lead "Lead II" w = Some 125%nat
  /\ report_meta w = None.
Proof.
  intros w0 w. repeat split; vm_compute; reflexivity.
Qed.

(** ** Ring buffer *)

(** C8. When [sampleRate] or [secondsWindow] changes, the effects leave six
    lead buffers of max(1, round(sampleRate * secondsWindow)) slots, all
    zero, and the write cursor at 0. *)
Theorem buffers_recreated_on_change (prev : Visualizer.UiState) (w : Visualizer.World) :
  let c0 := Visualizer.config prev in
  let c := Visualizer.config (Visualizer.ui w) in
  Visualizer.sampleRate c0 <> Visualizer.sampleRate c
  \/ Visualizer.secondsWindow c0 <> Visualizer.secondsWindow c ->
  let capacity :=
    Z.max 1 (JS.Math_round (JS.ofZ (Visualizer.sampleRate c)
                            * JS.ofZ (Visualizer.secondsWindow c))) in
  let r := Visualizer.ring (Visualizer.refs (Visualizer.commit prev w)) in
  Visualizer.bufferRef r = replicate 6 (replicate (Z.to_nat capacity) 0%Q)
  /\ Forall (fun b => length b = Z.to_nat capacity) (Visualizer.bufferRef r)
  /\ Visualizer.writeIndexRef r = 0%nat.
Proof.
  intros c0 c Hchange capacity r.
  assert (Hbuf : Visualizer.bufferRef r = replicate 6 (replicate (Z.to_nat capacity) 0%Q)
                 /\ Visualizer.writeIndexRef r = 0%nat).
  { subst r capacity. unfold Visualizer.commit. cbv zeta. fold c0 c.
    rewrite round_of_product.
    destruct (Visualizer.sampleRate c0 =? Visualizer.sampleRate c) eqn:E1;
    destruct (Visualizer.secondsWindow c0 =? Visualizer.secondsWindow c) eqn:E2;
      cbn [negb orb];
      try (apply Z.eqb_eq in E1); try (apply Z.eqb_eq in E2);
      [destruct Hchange; contradiction| | |];
      cbn; unfold Visualizer.ringCapacity, Visualizer.Float32Array; fold c;
      rewrite floor_of_product; split; reflexivity. }
  destruct Hbuf as [Hb Hi]. split; [exact Hb|]. split; [|exact Hi].
  rewrite Hb. repeat constructor; apply length_replicate.
Qed.

Lemma buffers_recreated_on_change_witness :
  let w := Visualizer.setSecondsWindow 2 Visualizer.mount in
  Visualizer.secondsWindow (Visualizer.config (Visualizer.ui Visualizer.mount)) <> 2
  /\ Visualizer.bufferRef
       (Visualizer.ring (Visualizer.refs
          (Visualizer.commit (Visualizer.ui Visualizer.mount) w)))
     = replicate 6 (replicate 250 0%Q).
Proof.
  intros w.
  assert (Hne : Visualizer.secondsWindow (Visualizer.config (Visualizer.ui Visualizer.mount)) <> 2)
    by (vm_compute; discriminate).
  split; [exact Hne|].
  exact (proj1 (buffers_recreated_on_change (Visualizer.ui Visualizer.mount) w (or_intror Hne))).
Defined.

(** ** Risk engine *)

Lemma heart_rate_status_cases (rPeaks : list Z) (sr : Q) :
  Risk.hr_status (Risk.calculateHeartRate rPeaks sr) <> Risk.danger.
Proof.
  unfold Risk.calculateHeartRate.
  destruct (length rPeaks <? 2)%nat; [discriminate|]. cbv zeta. cbn [Risk.hr_status].
  set (hr := JS.Math_round _).
  destruct (hr <? 60) eqn:E1; [discriminate|].
  destruct (100 <? hr) eqn:E2; [discriminate|].
  apply Z.ltb_ge in E1, E2.
  replace ((hr <? 50) || (120 <? hr)) with false; [discriminate|].
  symmetry. apply orb_false_intro; [apply Z.ltb_ge|apply Z.ltb_ge]; lia.
Qed.

(** C3. On a Lead II strip with R peaks 1336 ms apart the engine finds
    both peaks, rounds the rate to 45 bpm and reports the status warning;
    no input at all makes the heart-rate status danger, since the test
    for it comes after the two tests that already cover its range. *)
Theorem heart_rate_danger_unreachable `{Host} :
  let samples := strip 400 [50; 217]%nat in
  let m := Risk.m_hr (Risk.metrics (Some (Risk.mkLeadData (Some samples))) 125) in
  Risk.detectRPeaks samples 125 = [50; 217]
  /\ Risk.hr m = Risk.Num 45
  /\ Risk.hr_status m = Risk.warning
  /\ (forall rPeaks sr,
        Risk.hr_status (Risk.calculateHeartRate rPeaks sr) <> Risk.danger).
Proof.
  intros samples m. split; [vm_compute; reflexivity|].
  split; [vm_compute; reflexivity|]. split; [vm_compute; reflexivity|].
  exact heart_rate_status_cases.
Qed.

(** C9. Without [leadData], without its [leadII], or with fewer than
    2 * sampleRate samples in it, the engine returns the sentinel metrics,
    every value '--' with status unknown and the risk {0, unknown, []},
    and calls none of the analysis functions. *)
Theorem short_signal_gives_defaults `{Host}
    (leadData : option Risk.LeadData) (sampleRate : Q) :
  leadData = None
  \/ (exists d, leadData = Some d /\ Risk.leadII d = None)
  \/ (exists d xs, leadData = Some d /\ Risk.leadII d = Some xs
                   /\ (JS.ofNat (length xs) < sampleRate * 2)%Q) ->
  Risk.analyse leadData sampleRate = ([], Risk.getDefaultMetrics)
  /\ Risk.metrics leadData sampleRate
     = Risk.mkMetrics
         (Risk.mkHr Risk.Unavailable Risk.unknown Risk.Unavailable)
         (Risk.mkHrv Risk.Unavailable Risk.Unavailable Risk.unknown)
         (Risk.mkQrs Risk.Unavailable Risk.unknown)
         (Risk.mkQt Risk.Unavailable Risk.Unavailable Risk.unknown)
         (Risk.mkSt Risk.Unavailable Risk.unknown)
         (Risk.mkRisk 0 Risk.unknown_level [])
  /\ ~ In Risk.DetectRPeaks (fst (Risk.analyse leadData sampleRate)).
Proof.
  intros Hcase.
  assert (Hdef : Risk.analyse leadData sampleRate = ([], Risk.getDefaultMetrics)).
  { unfold Risk.analyse.
    destruct Hcase as [->|[[d [-> Hd]]|[d [xs [-> [Hd Hlen]]]]]]; cbn.
    - reflexivity.
    - rewrite Hd. reflexivity.
    - rewrite Hd. apply Qltb_lt in Hlen. rewrite Hlen. reflexivity. }
  unfold Risk.metrics. rewrite Hdef. cbn. repeat split. intros [].
Qed.

Lemma short_signal_gives_defaults_witness :
  (JS.ofNat (length (replicate 100 0%Q)) < 125 * 2)%Q
  /\ @Risk.analyse csv_host (Some (Risk.mkLeadData (Some (replicate 100 0%Q)))) 125
     = ([], Risk.getDefaultMetrics).
Proof.
  assert (Hlen : (JS.ofNat (length (replicate 100 0%Q)) < 125 * 2)%Q)
    by (vm_compute; reflexivity).
  split; [exact Hlen|].
  refine (proj1 (@short_signal_gives_defaults csv_host
                   (Some (Risk.mkLeadData (Some (replicate 100 0%Q)))) 125 _)).
  right. right. eexists. eexists. split; [reflexivity|]. split; [reflexivity|exact Hlen].
Defined.

(** ** Closed instances of the HRV properties *)

Lemma hrv_status_precedence_witness :
  let w := with_intervals [800; 820; 790] in
  (3 <= length (intervals w))%nat
  /\ Visualizer.hrvStatus (@vitals_after csv_host w) = HRV.low.
Proof.
  intros w.
  assert (Hlen : (3 <= length (intervals w))%nat) by (vm_compute; lia).
  split; [exact Hlen|].
  apply (proj1 (@hrv_status_precedence csv_host w Hlen)).
  left. vm_compute. reflexivity.
Defined.


(** ** Closed checks of the string helpers *)

Example scan_csv2 : Parser.match_numbers "0.5,0.8" = ["0.5"; "0.8"]%string.
Proof. reflexivity. Qed.

Example scan_signs :
  Parser.match_numbers "a1-2 --3.x4.5.6-" = ["1"; "-2"; "-3"; "4.5"; "6"]%string.
Proof. reflexivity. Qed.

Example parseFloat_negative :
  Parser.parseFloat_token "-12.50" = S754_finite true 7036874417766400 (-49).
Proof. reflexivity. Qed.

Example parseFloat_integer : Parser.parseFloat_token "42" = F64.of_Z 42.
Proof. reflexivity. Qed.

(** 0.1 is the double 0x3FB999999999999A. *)
Example parseFloat_tenth :
  Parser.parseFloat_token "0.1" = S754_finite false 7205759403792794 (-56).
Proof. reflexivity. Qed.

(** 2^53 + 1 lies half-way between two doubles and goes to the even one. *)
Example parseFloat_ties_to_even :
  Parser.parseFloat_token "9007199254740993" = F64.of_Z 9007199254740992.
Proof. reflexivity. Qed.

Example parseFloat_minus_zero : Parser.parseFloat_token "-0.0" = S754_zero true.
Proof. reflexivity. Qed.

Example toFixed1_negative_half : (Risk.toFixed1 (- (25 # 100)) == - (3 # 10))%Q.
Proof. reflexivity. Qed.

Example trim_spaces : JS.trim "  Starting Calibration  " = "Starting Calibration"%string.
Proof. reflexivity. Qed.

Example calibration_keywords :
  Visualizer.is_calibration_end (JS.toLowerCase "Calibration Complete") = true
  /\ Visualizer.is_calibration_start (JS.toLowerCase "Starting Calibration") = true
  /\ Visualizer.is_calibration_end (JS.toLowerCase "Starting Calibration") = false.
Proof. repeat split; reflexivity. Qed.


(** * Further properties of the code *)


(** ** Line source *)

Section StreamFacts.
Import Stream.

Lemma split_nonempty (s : string) : split s <> [].
Proof.
  destruct s as [|c r]; cbn; [discriminate|].
  destruct (Ascii.eqb c newline); [discriminate|].
  destruct (split r); discriminate.
Qed.

Lemma split_no_newline (s : string) : has_newline s = false -> split s = [s].
Proof.
  induction s as [|c r IH]; cbn; [reflexivity|].
  destruct (Ascii.eqb c newline); cbn; [discriminate|].
  intros Hr. rewrite (IH Hr). reflexivity.
Qed.

Lemma split_pieces (s : string) : Forall (fun p => has_newline p = false) (split s).
Proof.
  induction s as [|c r IH]; cbn; [repeat constructor|].
  destruct (Ascii.eqb c newline) eqn:E; [constructor; [reflexivity|exact IH]|].
  destruct (split r) as [|p ps]; [repeat constructor; cbn; rewrite E; reflexivity|].
  inversion IH; subst. constructor; [cbn; rewrite E; assumption|assumption].
Qed.

Lemma split_app (a b : string) :
  split (a +:+ b)
  = List.removelast (split a) ++ split (List.last (split a) EmptyString +:+ b).
Proof.
  induction a as [|c r IH]; [reflexivity|].
  change (String c r +:+ b) with (String c (r +:+ b)). cbn [split].
  pose proof (split_nonempty r) as Hne. rewrite IH. clear IH.
  destruct (Ascii.eqb c newline) eqn:E.
  - destruct (split r) as [|p ps] eqn:Es; [contradiction|]. reflexivity.
  - destruct (split r) as [|p ps] eqn:Es; [contradiction|].
    destruct ps as [|q qs].
    + cbn [List.removelast List.last app].
      change (String c p +:+ b) with (String c (p +:+ b)). cbn [split]. rewrite E.
      reflexivity.
    + reflexivity.
Qed.

Lemma last_split_no_newline (s : string) :
  has_newline (List.last (split s) EmptyString) = false.
Proof.
  pose proof (split_pieces s) as Hall. pose proof (split_nonempty s) as Hne.
  induction Hall as [|p ps Hp Hps IH]; [contradiction|].
  destruct ps as [|q qs]; [exact Hp|]. apply IH. discriminate.
Qed.

Lemma append_assoc (a b c : string) : (a +:+ b) +:+ c = a +:+ (b +:+ c).
Proof.
  induction a as [|x a IH]; [reflexivity|].
  change (String x ((a +:+ b) +:+ c) = String x (a +:+ (b +:+ c))).
  f_equal. exact IH.
Qed.

Lemma append_empty_r (a : string) : a +:+ EmptyString = a.
Proof.
  induction a as [|x a IH]; [reflexivity|].
  change (String x (a +:+ EmptyString) = String x a). f_equal. exact IH.
Qed.

Lemma removelast_app_nonempty {A} (l1 l2 : list A) :
  l2 <> [] -> List.removelast (l1 ++ l2) = l1 ++ List.removelast l2.
Proof. intros Hne. apply List.removelast_app. exact Hne. Qed.

Lemma last_app_nonempty {A} (l1 l2 : list A) (d : A) :
  l2 <> [] -> List.last (l1 ++ l2) d = List.last l2 d.
Proof.
  intros Hne. induction l1 as [|x l1 IH]; [reflexivity|].
  cbn [app List.last]. destruct (l1 ++ l2) eqn:E; [|exact IH].
  apply app_eq_nil in E. destruct E as [_ E]. contradiction.
Qed.

Lemma read_app (textBuffer v rest : string) :
  read textBuffer (v +:+ rest)
  = (fst (read textBuffer v) ++ fst (read (snd (read textBuffer v)) rest),
     snd (read (snd (read textBuffer v)) rest)).
Proof.
  unfold read. cbn [fst snd]. rewrite <- append_assoc, split_app.
  pose proof (split_nonempty (List.last (split (textBuffer +:+ v)) EmptyString +:+ rest)).
  rewrite removelast_app_nonempty, last_app_nonempty by assumption. reflexivity.
Qed.

Lemma unsplit_split (s : string) :
  unsplit (List.removelast (split s)) (List.last (split s) EmptyString) = s.
Proof.
  induction s as [|c r IH]; [reflexivity|]. cbn [split].
  pose proof (split_nonempty r) as Hne.
  destruct (Ascii.eqb c newline) eqn:E.
  - apply Ascii.eqb_eq in E. subst c.
    destruct (split r) as [|p ps] eqn:Es; [contradiction|].
    change (unsplit (EmptyString :: List.removelast (p :: ps)) (List.last (p :: ps) EmptyString)
            = String newline r).
    cbn [unsplit fold_right]. fold (unsplit (List.removelast (p :: ps)) (List.last (p :: ps) EmptyString)).
    rewrite IH. reflexivity.
  - destruct (split r) as [|p ps] eqn:Es; [contradiction|].
    destruct ps as [|q qs].
    + cbn in IH. cbn. rewrite IH. reflexivity.
    + change (unsplit (String c p :: List.removelast (q :: qs)) (List.last (q :: qs) EmptyString)
              = String c r).
      change (unsplit (p :: List.removelast (q :: qs)) (List.last (q :: qs) EmptyString) = r) in IH.
      cbn [unsplit fold_right] in *. rewrite <- IH. reflexivity.
Qed.
End StreamFacts.

Lemma drain_read (textBuffer : string) (chunks : list string) :
  Stream.has_newline textBuffer = false ->
  Stream.drain textBuffer chunks = Stream.read textBuffer (Stream.stream_text chunks).
Proof.
  revert textBuffer. induction chunks as [|v rest IH]; intros tb Htb.
  - cbn [Stream.drain Stream.stream_text fold_right]. unfold Stream.read.
    rewrite append_empty_r, (split_no_newline _ Htb). reflexivity.
  - cbn [Stream.drain]. change (Stream.stream_text (v :: rest)) with (v +:+ Stream.stream_text rest).
    rewrite read_app.
    destruct (Stream.read tb v) as [lines tb'] eqn:Er. cbn [fst snd].
    assert (Htb' : Stream.has_newline tb' = false).
    { change tb' with (snd (lines, tb')). rewrite <- Er. apply last_split_no_newline. }
    rewrite (IH tb' Htb').
    destruct (Stream.read tb' (Stream.stream_text rest)). reflexivity.
Qed.

(** X1. The lines handed to the loop body do not depend on how the text
    was cut into chunks: draining the chunks one by one gives the lines,
    and leaves the partial line, that reading their concatenation at once
    gives. *)
Theorem drain_chunking (textBuffer : string) (chunks : list string) :
  Stream.has_newline textBuffer = false ->
  Stream.drain textBuffer chunks = Stream.read textBuffer (Stream.stream_text chunks).
Proof. apply drain_read. Qed.

Lemma drain_chunking_witness :
  Stream.has_newline "" = false
  /\ Stream.drain "" ["0.5,0"; ".8" +:+ String Stream.newline "1,"; "2" +:+ String Stream.newline "3"]
     = (["0.5,0.8"; "1,2"], "3"%string).
Proof.
  assert (H0 : Stream.has_newline "" = false) by reflexivity.
  split; [exact H0|].
  rewrite (drain_chunking "" _ H0). reflexivity.
Defined.

(** X2. Nothing is lost or invented between the device and the loop body:
    the lines handed over, each followed by a line feed, and then the
    partial line kept in [textBuffer], spell exactly the text received;
    no handed line and no kept partial line holds a line feed. *)
Theorem drain_lossless (chunks : list string) :
  let '(lines, rest) := Stream.drain "" chunks in
  Stream.unsplit lines rest = Stream.stream_text chunks
  /\ Forall (fun l => Stream.has_newline l = false) lines
  /\ Stream.has_newline rest = false.
Proof.
  rewrite (drain_read "" chunks eq_refl). unfold Stream.read.
  change ("" +:+ Stream.stream_text chunks) with (Stream.stream_text chunks).
  split; [apply unsplit_split|]. split; [|apply last_split_no_newline].
  pose proof (split_pieces (Stream.stream_text chunks)) as Hall.
  induction Hall as [|p ps Hp Hps IH]; [constructor|].
  destruct ps as [|q qs]; [constructor|].
  change (List.removelast (p :: q :: qs)) with (p :: List.removelast (q :: qs)).
  constructor; [exact Hp|exact IH].
Qed.

(** ** Sample parser, beyond the two-value path *)

Section ParserMore.
Context `{Host}.

Lemma structured_length (line : string) (arr : list F64.float) :
  Parser.structured line = Some arr -> length arr = 6%nat.
Proof.
  unfold Parser.structured.
  destruct (JSON_parse line) as [obj|]; [|discriminate].
  destruct (forallb _ _); [|discriminate].
  intros [= <-]. reflexivity.
Qed.

Lemma numeric_length (line : string) (arr : list F64.float) :
  Parser.numeric line = Some arr -> length arr = 6%nat.
Proof.
  unfold Parser.numeric. cbv zeta.
  destruct (6 <=? length _)%nat eqn:E.
  - apply Nat.leb_le in E. intros [= <-].
    rewrite length_take. lia.
  - destruct (map _ _) as [|a [|b [|c r]]]; try discriminate.
    intros [= <-]. reflexivity.
Qed.

Lemma numeric_few (line : string) :
  (length (Parser.match_numbers line) < 2)%nat -> Parser.numeric line = None.
Proof.
  intros Hfew. unfold Parser.numeric. cbv zeta.
  destruct (Parser.match_numbers line) as [|a [|b r]]; cbn in *; try reflexivity; lia.
Qed.
End ParserMore.

Lemma parseSample_length `{Host} (line : string) (arr : list F64.float) :
  Parser.parseSample line = Some arr -> length arr = 6%nat.
Proof.
  unfold Parser.parseSample.
  destruct (Parser.structured line) as [a|] eqn:Es.
  - intros [= <-]. exact (structured_length line a Es).
  - apply numeric_length.
Qed.

(** X3. Whatever the wire format (JSON object, six or more numbers, two
    numbers), a parsed sample has exactly six components, one per lead. *)
Theorem parsed_sample_has_six_leads `{Host} (line : string) (arr : list F64.float) :
  Parser.parseSample line = Some arr -> length arr = 6%nat.
Proof. apply parseSample_length. Qed.

Lemma parsed_sample_has_six_leads_witness :
  @Parser.parseSample csv_host "1 2 3 4 5 6 7 8"
  = Some (map F64.of_Z [1; 2; 3; 4; 5; 6])
  /\ length (map F64.of_Z [1; 2; 3; 4; 5; 6]) = 6%nat.
Proof.
  assert (Hp : @Parser.parseSample csv_host "1 2 3 4 5 6 7 8"
               = Some (map F64.of_Z [1; 2; 3; 4; 5; 6])) by (vm_compute; reflexivity).
  split; [exact Hp|].
  exact (@parsed_sample_has_six_leads csv_host _ _ Hp).
Defined.

(** X4. A line that is not a calibration message and holds fewer than two
    numbers is dropped: the loop body leaves the whole world as it was. *)
Theorem short_line_is_dropped `{Host} (v : Visualizer.Variant)
    (env : Visualizer.UiState) (now : Z) (raw : string) (w : Visualizer.World) :
  json_keys_in_text ->
  Visualizer.is_calibration_end (JS.toLowerCase (JS.trim raw)) = false ->
  Visualizer.is_calibration_start (JS.toLowerCase (JS.trim raw)) = false ->
  (length (Parser.match_numbers (JS.trim raw)) < 2)%nat ->
  Visualizer.processLine v env now raw w = w.
Proof.
  intros Hkeys Hend Hstart Hfew. unfold Visualizer.processLine. cbv zeta.
  rewrite Hend, Hstart.
  destruct (JS.is_empty _); [reflexivity|].
  unfold Parser.parseSample.
  destruct (Parser.structured _) as [arr|] eqn:Es.
  - apply (structured_needs_three_numbers Hkeys) in Es. lia.
  - rewrite (numeric_few _ Hfew). reflexivity.
Qed.

Lemma short_line_is_dropped_witness :
  @json_keys_in_text csv_host
  /\ @Visualizer.processLine csv_host Visualizer.SerialBluetooth
       (Visualizer.ui Visualizer.mount) 0 "ECG v1.2 ready" Visualizer.mount
     = Visualizer.mount.
Proof.
  assert (Hkeys : @json_keys_in_text csv_host) by (intros line obj Hp; discriminate Hp).
  split; [exact Hkeys|].
  apply (@short_line_is_dropped csv_host _ _ _ _ _ Hkeys); [reflexivity|reflexivity|].
  vm_compute. lia.
Defined.

(** ** What each operation leaves alone *)

(** Case analysis on every [match] and conditional of the goal, closing
    the branches that hold by computation. *)
Ltac frame :=
  repeat first
    [ reflexivity
    | match goal with
      | |- _ /\ _ => split
      | |- context [match ?x with _ => _ end] => destruct x
      end ].

Section Frames.
Context `{Host}.
Import Visualizer.

Lemma detect_frame now mvs (w : World) :
  let w' := detectRPeakMultiLead now mvs w in
  ring (refs w') = ring (refs w) /\ bank (refs w') = bank (refs w)
  /\ recordRef (refs w') = recordRef (refs w) /\ flags (refs w') = flags (refs w)
  /\ sampleRateRef (refs w') = sampleRateRef (refs w)
  /\ transport (refs w') = transport (refs w)
  /\ link (ui w') = link (ui w) /\ config (ui w') = config (ui w)
  /\ capture (ui w') = capture (ui w).
Proof.
  cbv zeta. unfold detectRPeakMultiLead, storeInterval, calculateAdvancedHRV.
  cbv zeta. frame.
Qed.

Lemma stopRecording_frame env auto sec (w : World) :
  let w' := stopRecording env auto sec w in
  ring (refs w') = ring (refs w) /\ bank (refs w') = bank (refs w)
  /\ sampleRateRef (refs w') = sampleRateRef (refs w)
  /\ det (refs w') = det (refs w) /\ transport (refs w') = transport (refs w)
  /\ link (ui w') = link (ui w) /\ config (ui w') = config (ui w)
  /\ vitals (ui w') = vitals (ui w).
Proof.
  cbv zeta. unfold stopRecording.
  destruct (negb _ && negb auto && negb _); [frame|].
  destruct (negb auto); frame.
Qed.

Lemma recordSample_frame env now mvs (w : World) :
  let w' := recordSample env now mvs w in
  ring (refs w') = ring (refs w) /\ bank (refs w') = bank (refs w)
  /\ sampleRateRef (refs w') = sampleRateRef (refs w)
  /\ det (refs w') = det (refs w) /\ transport (refs w') = transport (refs w)
  /\ link (ui w') = link (ui w) /\ config (ui w') = config (ui w)
  /\ vitals (ui w') = vitals (ui w).
Proof.
  cbv zeta. unfold recordSample.
  destruct (data (recordRef (refs w))); [|frame].
  destruct (active (recordRef (refs w))); [|frame].
  cbv zeta. destruct (JS.Qgeb _ _ && negb _); [|frame].
  match goal with
  | |- context [stopRecording ?e ?a ?s ?w0] =>
      destruct (stopRecording_frame e a s w0) as (-> & -> & -> & -> & -> & -> & -> & ->)
  end.
  frame.
Qed.

Lemma startRecording_frame env v now (w : World) :
  let w' := startRecording env v now w in
  ring (refs w') = ring (refs w) /\ bank (refs w') = bank (refs w)
  /\ sampleRateRef (refs w') = sampleRateRef (refs w)
  /\ det (refs w') = det (refs w) /\ transport (refs w') = transport (refs w)
  /\ link (ui w') = link (ui w) /\ config (ui w') = config (ui w)
  /\ vitals (ui w') = vitals (ui w).
Proof. cbv zeta. unfold startRecording. destruct (negb _ || negb _); frame. Qed.

Lemma connect_frame v (w : World) :
  let w' := connect v w in
  ring (refs w') = ring (refs w) /\ bank (refs w') = bank (refs w)
  /\ recordRef (refs w') = recordRef (refs w) /\ flags (refs w') = flags (refs w)
  /\ sampleRateRef (refs w') = sampleRateRef (refs w)
  /\ config (ui w') = config (ui w) /\ capture (ui w') = capture (ui w).
Proof. cbv zeta. unfold connect. destruct v; frame. Qed.

Lemma filterFrom_length (i : nat) (mvs : list Q) (b : Bank) :
  length (fst (filterFrom i mvs b)) = length mvs.
Proof.
  revert i b. induction mvs as [|x r IH]; intros i b; [reflexivity|].
  cbn [filterFrom]. destruct (filterSample i x b) as [y b1].
  specialize (IH (S i) b1). destruct (filterFrom (S i) r b1) as [ys b2].
  cbn in *. lia.
Qed.

Lemma filterAll_length env (mvs : list Q) (b : Bank) :
  length (fst (filterAll env mvs b)) = length mvs.
Proof.
  unfold filterAll. destruct (filterOn (config env)); [apply filterFrom_length|reflexivity].
Qed.

(** The six stores of the write loop put [mvs[i]] at the cursor of
    buffer [i]. *)
Lemma store_loop (idx : nat) (fresh : list Q) (pre bufs : list (list Q)) (mvs : list Q) :
  length mvs = length bufs ->
  fold_left
    (fun (bufs : list (list Q)) (iv : nat * Q) =>
       alter (fun b => <[idx := snd iv]> b) (fst iv)
         (if (fst iv <? length bufs)%nat then bufs else bufs ++ [fresh]))
    (imap (fun i v => (length pre + i, v)%nat) mvs) (pre ++ bufs)
  = pre ++ zip_with (fun b v => <[idx := v]> b) bufs mvs.
Proof.
  revert pre bufs. induction mvs as [|v mvs IH]; intros pre bufs Hlen.
  - destruct bufs; [reflexivity|discriminate].
  - destruct bufs as [|b bufs]; [discriminate|].
    cbn [imap fold_left zip_with fst snd]. rewrite Nat.add_0_r.
    replace (length pre <? length (pre ++ b :: bufs))%nat with true
      by (symmetry; apply Nat.ltb_lt; rewrite length_app; cbn; lia).
    replace (alter (fun b0 => <[idx := v]> b0) (length pre) (pre ++ b :: bufs))
      with ((pre ++ [<[idx := v]> b]) ++ bufs).
    2:{ rewrite <- app_assoc. cbn [app].
        rewrite (alter_app_r_alt _ pre (b :: bufs) (length pre)) by lia.
        rewrite Nat.sub_diag. reflexivity. }
    rewrite (imap_ext _ (fun i v0 => (length (pre ++ [<[idx := v]> b]) + i, v0)%nat) mvs).
    2:{ intros i x _. rewrite length_app. cbn. f_equal. lia. }
    rewrite IH by (cbn in Hlen; lia).
    rewrite <- app_assoc. reflexivity.
Qed.

Lemma writeSample_buffers env (mvs : list Q) (w : World) :
  Invariant.ring_wf w -> length mvs = 6%nat ->
  let r := ring (refs w) in
  let c := ringCapacity (config (ui w)) in
  ring (refs (writeSample env mvs w))
  = mkRing (zip_with (fun b v => <[writeIndexRef r := v]> b) (bufferRef r) mvs)
           (Z.to_nat (Z.of_nat (writeIndexRef r + 1) mod c)).
Proof.
  intros (Hsix & Hall & Hidx & Href & Hrate) Hmvs r c.
  fold r in Hsix, Hall, Hidx. fold c in Hall, Hidx.
  unfold writeSample. fold r. cbv zeta.
  change (ring (refs (with_ring ?f w))) with (f (ring (refs w))). cbv beta.
  assert (Hc : 1 <= c) by (unfold c, ringCapacity; lia).
  destruct (bufferRef r) as [|b0 bufs] eqn:Eb; [discriminate Hsix|].
  assert (Hb0 : Z.of_nat (length b0) = c) by (inversion Hall; assumption).
  replace (Z.of_nat (length b0) =? 0) with false by (symmetry; apply Z.eqb_neq; lia).
  rewrite Hb0. f_equal.
  pose proof (store_loop (writeIndexRef r) (Float32Array c) [] (b0 :: bufs) mvs) as Hloop.
  cbn [app length Nat.add] in Hloop. apply Hloop. cbn in Hsix. cbn. lia.
Qed.
End Frames.

(** ** Ring buffer *)

Section RingFacts.
Context `{Host}.
Import Visualizer.

Lemma ring_wf_ext (w w' : World) :
  ring (refs w') = ring (refs w) -> config (ui w') = config (ui w) ->
  sampleRateRef (refs w') = sampleRateRef (refs w) ->
  Invariant.ring_wf w -> Invariant.ring_wf w'.
Proof. unfold Invariant.ring_wf. intros -> -> ->. trivial. Qed.

Lemma ring_wf_fresh (w : World) :
  sampleRateRef (refs w) = sampleRate (config (ui w)) ->
  1 <= sampleRate (config (ui w)) ->
  ring (refs w) = mkRing (map (fun _ => Float32Array (ringCapacity (config (ui w)))) leads) 0 ->
  Invariant.ring_wf w.
Proof.
  intros Href Hrate Hring. unfold Invariant.ring_wf. rewrite Hring. cbn [bufferRef writeIndexRef].
  assert (Hc : 1 <= ringCapacity (config (ui w))) by (unfold ringCapacity; lia).
  repeat split; try assumption; try lia.
  cbn [map leads]. repeat constructor; unfold Float32Array; rewrite length_replicate; lia.
Qed.

Lemma ring_wf_writeSample env (mvs : list Q) (w : World) :
  Invariant.ring_wf w -> length mvs = 6%nat -> Invariant.ring_wf (writeSample env mvs w).
Proof.
  intros Hwf Hmvs. pose proof (writeSample_buffers env mvs w Hwf Hmvs) as Hring.
  cbv zeta in Hring. destruct Hwf as (Hsix & Hall & Hidx & Href & Hrate).
  unfold Invariant.ring_wf.
  change (config (ui (writeSample env mvs w))) with (config (ui w)).
  change (sampleRateRef (refs (writeSample env mvs w))) with (sampleRateRef (refs w)).
  rewrite Hring. cbn [bufferRef writeIndexRef].
  assert (Hc : 1 <= ringCapacity (config (ui w))) by (unfold ringCapacity; lia).
  repeat split; try assumption.
  - rewrite length_zip_with. lia.
  - apply Forall_lookup. intros i b Hb.
    apply lookup_zip_with_Some in Hb. destruct Hb as (b0 & v & -> & Hb0 & _).
    rewrite length_insert. rewrite Forall_lookup in Hall. exact (Hall i b0 Hb0).
  - rewrite Z2Nat.id by (apply Z.mod_pos_bound; lia). apply Z.mod_pos_bound. lia.
Qed.

Lemma handleSample_ring v env now arr (w : World) :
  isCalibrating (link env) = false ->
  exists w2 mvs,
    handleSample v env now arr w = writeSample env mvs w2
    /\ mvs = fst (filterAll env (map (valueToMv env) arr) (bank (refs w)))
    /\ ring (refs w2) = ring (refs w) /\ config (ui w2) = config (ui w)
    /\ sampleRateRef (refs w2) = sampleRateRef (refs w).
Proof.
  intros Hcal. unfold handleSample. rewrite Hcal.
  destruct (filterAll _ _ _) as [mvs b]. cbn [fst].
  eexists. exists mvs. split; [reflexivity|]. split; [reflexivity|].
  match goal with
  | |- context [recordSample ?e ?n ?m ?w0] =>
      destruct (recordSample_frame e n m w0) as (-> & _ & -> & _ & _ & _ & -> & _)
  end.
  destruct v; [repeat split; reflexivity|].
  match goal with
  | |- context [detectRPeakMultiLead ?n ?m ?w0] =>
      destruct (detect_frame n m w0) as (-> & _ & _ & _ & -> & _ & _ & -> & _)
  end.
  repeat split; reflexivity.
Qed.

Lemma ring_wf_handleSample v env now arr (w : World) :
  length arr = 6%nat -> Invariant.ring_wf w -> Invariant.ring_wf (handleSample v env now arr w).
Proof.
  intros Harr Hwf. destruct (isCalibrating (link env)) eqn:Hcal.
  - unfold handleSample. rewrite Hcal. exact Hwf.
  - destruct (handleSample_ring v env now arr w Hcal) as (w2 & mvs & -> & -> & Hr & Hc & Hs).
    apply ring_wf_writeSample.
    + eapply ring_wf_ext; eassumption.
    + rewrite filterAll_length, length_map. exact Harr.
Qed.

Lemma ring_wf_step v env e (w : World) :
  Invariant.ring_wf w -> Invariant.ring_wf (step v env w e).
Proof.
  intros Hwf. destruct e as [now raw|]; cbn [step].
  - unfold processLine. cbv zeta.
    destruct (JS.is_empty _); [exact Hwf|].
    destruct (is_calibration_end _); [exact Hwf|].
    destruct (is_calibration_start _); [exact Hwf|].
    destruct (Parser.parseSample _) as [arr|] eqn:Ep; [|exact Hwf].
    apply ring_wf_handleSample; [|exact Hwf].
    eapply parseSample_length. exact Ep.
  - destruct (calibTimeout _); exact Hwf.
Qed.

Lemma ring_wf_commit (prev : UiState) (w : World) :
  1 <= sampleRate (config (ui w)) ->
  (sampleRate (config prev) = sampleRate (config (ui w)) ->
   secondsWindow (config prev) = secondsWindow (config (ui w)) ->
   Invariant.ring_wf w) ->
  (sampleRate (config prev) = sampleRate (config (ui w)) ->
   sampleRateRef (refs w) = sampleRate (config (ui w))) ->
  Invariant.ring_wf (commit prev w).
Proof.
  intros Hrate Hsame Href. unfold commit. cbv zeta.
  destruct (sampleRate (config prev) =? sampleRate (config (ui w))) eqn:E1;
  destruct (secondsWindow (config prev) =? secondsWindow (config (ui w))) eqn:E2;
    cbn [negb orb];
    try (apply Z.eqb_eq in E1); try (apply Z.eqb_eq in E2).
  - apply Hsame; assumption.
  - apply ring_wf_fresh; [apply Href; assumption|assumption|reflexivity].
  - apply ring_wf_fresh; [reflexivity|assumption|reflexivity].
  - apply ring_wf_fresh; [reflexivity|assumption|reflexivity].
Qed.

Lemma ring_wf_reachable (w : World) : reachable w -> Invariant.ring_wf w.
Proof.
  induction 1 as [|v w _ IH|v env e w _ IH|now mvs w _ IH|env v now w _ IH
                 |env auto sec w _ IH|parsed w _ IH|parsed w _ IH].
  - apply ring_wf_fresh; [reflexivity|vm_compute; discriminate|reflexivity].
  - destruct (connect_frame v w) as (Hr & _ & _ & _ & Hs & Hc & _).
    eapply ring_wf_ext; eassumption.
  - apply ring_wf_step. exact IH.
  - destruct (detect_frame now mvs w) as (Hr & _ & _ & _ & Hs & _ & _ & Hc & _).
    eapply ring_wf_ext; eassumption.
  - destruct (startRecording_frame env v now w) as (Hr & _ & Hs & _ & _ & _ & Hc & _).
    eapply ring_wf_ext; eassumption.
  - destruct (stopRecording_frame env auto sec w) as (Hr & _ & Hs & _ & _ & _ & Hc & _).
    eapply ring_wf_ext; eassumption.
  - unfold onChange_window. cbv zeta. pose proof IH as (H6 & Hall & Hidx & Href & Hrate).
    apply ring_wf_commit.
    + exact Hrate.
    + intros _ Hw. cbn in Hw.
      unfold Invariant.ring_wf, ringCapacity in *. cbn. rewrite <- Hw. exact IH.
    + intros _. exact Href.
  - unfold onChange_sampleRate. cbv zeta. pose proof IH as (H6 & Hall & Hidx & Href & Hrate).
    apply ring_wf_commit.
    + cbn. lia.
    + intros Hr _. cbn in Hr.
      unfold Invariant.ring_wf, ringCapacity in *. cbn. rewrite <- Hr. exact IH.
    + intros Hr. cbn in Hr. cbn. rewrite <- Hr. exact Href.
Qed.
End RingFacts.

Section RingRead.
Import Visualizer.

Lemma chronological_insert (b : list Q) (i : nat) (v : Q) :
  (i < length b)%nat ->
  Invariant.chronological ((i + 1) mod length b) (<[i := v]> b)
  = drop 1 (Invariant.chronological i b) ++ [v].
Proof.
  intros Hi. unfold Invariant.chronological. rewrite length_insert.
  set (c := length b) in *.
  apply list_eq. intros k.
  destruct (decide (k < c - 1)%nat) as [Hk|Hk].
  - rewrite lookup_app_l by (rewrite length_drop, length_map, length_seq; lia).
    rewrite lookup_drop, !list_lookup_fmap, !lookup_seq_lt by lia. cbn.
    f_equal. f_equal. rewrite Nat.Div0.add_mod_idemp_l.
    replace (i + 1 + k)%nat with (i + S k)%nat by lia.
    apply list_lookup_insert_ne.
    pose proof (Nat.div_mod_eq (i + S k) c) as Hdm.
    pose proof (Nat.mod_upper_bound (i + S k) c ltac:(lia)) as Hub.
    generalize dependent ((i + S k) mod c)%nat.
    generalize dependent ((i + S k) / c)%nat.
    intros q m Hdm Hub Heq.
    destruct q as [|q]; nia.
  - destruct (decide (k = c - 1)%nat) as [->|Hk2].
    + rewrite lookup_app_r by (rewrite length_drop, length_map, length_seq; lia).
      rewrite length_drop, length_map, length_seq.
      replace (c - 1 - (c - 1))%nat with 0%nat by lia. cbn [lookup list_lookup].
      rewrite list_lookup_fmap, lookup_seq_lt by lia. cbn.
      f_equal. rewrite Nat.Div0.add_mod_idemp_l.
      replace (i + 1 + (c - 1))%nat with (i + 1 * c)%nat by lia.
      rewrite Nat.Div0.mod_add, Nat.mod_small by lia.
      rewrite list_lookup_insert_eq by (fold c; lia). reflexivity.
    + rewrite !lookup_ge_None_2; [reflexivity| |].
      * rewrite length_app, length_drop, length_map, length_seq. cbn. lia.
      * rewrite length_map, length_seq. lia.
Qed.

Lemma freeze_chronological (w : World) :
  Invariant.ring_wf w ->
  freeze (ring (refs w))
  = map (Invariant.chronological (writeIndexRef (ring (refs w)))) (bufferRef (ring (refs w))).
Proof.
  intros (Hsix & Hall & Hidx & _ & _). unfold freeze.
  set (r := ring (refs w)) in *. set (c := ringCapacity (config (ui w))) in *.
  assert (Hc : 1 <= c) by (unfold c, ringCapacity; lia).
  destruct (bufferRef r) as [|b0 bufs] eqn:Eb; [discriminate Hsix|].
  assert (Hb0 : Z.of_nat (length b0) = c) by (inversion Hall; assumption).
  clearbody c. replace (length b0 =? 0)%nat with false by (symmetry; apply Nat.eqb_neq; lia).
  apply map_ext_Forall. eapply Forall_impl; [exact Hall|].
  intros b Hb. cbv beta in Hb. unfold Invariant.chronological.
  replace (length b) with (length b0) by lia. reflexivity.
Qed.
End RingRead.

(** X6. In every reachable world there are six lead buffers, all of the
    capacity max(1, sampleRate * secondsWindow) of the current settings,
    the shared write cursor lies inside them, the sample rate is at least
    1 and the ref the read loop uses holds the same rate as the state. *)
Theorem ring_buffers_stay_aligned `{Host} (w : Visualizer.World) :
  Visualizer.reachable w ->
  let r := Visualizer.ring (Visualizer.refs w) in
  let c := Visualizer.config (Visualizer.ui w) in
  let capacity := Z.max 1 (Visualizer.sampleRate c * Visualizer.secondsWindow c) in
  length (Visualizer.bufferRef r) = 6%nat
  /\ Forall (fun b => Z.of_nat (length b) = capacity) (Visualizer.bufferRef r)
  /\ 0 <= Z.of_nat (Visualizer.writeIndexRef r) < capacity
  /\ Visualizer.sampleRateRef (Visualizer.refs w) = Visualizer.sampleRate c
  /\ 1 <= Visualizer.sampleRate c.
Proof.
  intros Hreach r c capacity.
  destruct (ring_wf_reachable w Hreach) as (H6 & Hall & Hidx & Href & Hrate).
  assert (Hcap : Visualizer.ringCapacity c = capacity).
  { unfold Visualizer.ringCapacity, capacity. rewrite floor_of_product. reflexivity. }
  fold r c in H6, Hall, Hidx. rewrite Hcap in Hall, Hidx.
  repeat split; try assumption. lia.
Qed.

Lemma ring_buffers_stay_aligned_witness :
  let w := Visualizer.onChange_window (Some 2)
             (@Visualizer.session csv_host Visualizer.SerialOnly
                [Visualizer.Line 0 "0.5,0.8"; Visualizer.Line 8 "1,2,3,4,5,6"]
                Visualizer.mount) in
  @Visualizer.reachable csv_host w
  /\ Forall (fun b => Z.of_nat (length b) = 250)
       (Visualizer.bufferRef (Visualizer.ring (Visualizer.refs w))).
Proof.
  intros w.
  assert (Hreach : @Visualizer.reachable csv_host w).
  { unfold w, Visualizer.session, Visualizer.run. cbn [fold_left].
    apply Visualizer.reach_window, Visualizer.reach_step, Visualizer.reach_step,
      Visualizer.reach_connect, Visualizer.reach_mount. }
  split; [exact Hreach|].
  exact (proj1 (proj2 (@ring_buffers_stay_aligned csv_host w Hreach))).
Defined.

Lemma writeSample_slots (env : Visualizer.UiState) (mvs : list Q)
    (w : Visualizer.World) :
  Invariant.ring_wf w -> length mvs = 6%nat ->
  let cursor := Visualizer.writeIndexRef (Visualizer.ring (Visualizer.refs w)) in
  let capacity := Visualizer.ringCapacity (Visualizer.config (Visualizer.ui w)) in
  let w' := Visualizer.writeSample env mvs w in
  (forall lead, (lead < 6)%nat -> slot lead cursor w' = mvs !! lead)
  /\ (forall lead j, j <> cursor -> slot lead j w' = slot lead j w)
  /\ Z.of_nat (Visualizer.writeIndexRef (Visualizer.ring (Visualizer.refs w')))
     = (Z.of_nat cursor + 1) mod capacity.
Proof.
  intros Hwf Hmvs cursor capacity w'.
  pose proof (writeSample_buffers env mvs w Hwf Hmvs) as Hring. cbv zeta in Hring.
  destruct Hwf as (H6 & Hall & Hidx & _ & _).
  assert (Hc : 1 <= capacity) by (unfold capacity, Visualizer.ringCapacity; lia).
  unfold slot. subst w'. rewrite Hring. cbn [Visualizer.bufferRef Visualizer.writeIndexRef].
  fold cursor capacity. repeat split.
  - intros lead Hlead.
    destruct (lookup_lt_is_Some_2 (Visualizer.bufferRef (Visualizer.ring (Visualizer.refs w))) lead
                ltac:(lia)) as [b Hb].
    destruct (lookup_lt_is_Some_2 mvs lead ltac:(lia)) as [x Hx].
    rewrite (proj2 (lookup_zip_with_Some _ _ _ _ _) (ex_intro _ b (ex_intro _ x (conj eq_refl (conj Hb Hx))))).
    cbn. rewrite Hx. apply list_lookup_insert_eq.
    rewrite Forall_lookup in Hall. specialize (Hall lead b Hb). fold capacity in Hall, Hidx.
    fold cursor in Hidx. lia.
  - intros lead j Hj. rewrite lookup_zip_with.
    destruct (Visualizer.bufferRef (Visualizer.ring (Visualizer.refs w)) !! lead) as [b|] eqn:Hb;
      [|reflexivity].
    cbn. destruct (mvs !! lead) as [x|] eqn:Hx.
    + cbn. apply list_lookup_insert_ne. congruence.
    + exfalso. apply lookup_ge_None_1 in Hx. apply lookup_lt_Some in Hb. lia.
  - rewrite Z2Nat.id by (apply Z.mod_pos_bound; lia). f_equal. lia.
Qed.

(** X7. The ring-buffer write of one sample touches, in every lead
    buffer, the slot under the cursor only, and advances the cursor by
    one modulo the capacity. *)
Theorem write_touches_cursor_slot_only (env : Visualizer.UiState) (mvs : list Q)
    (w : Visualizer.World) :
  Invariant.ring_wf w -> length mvs = 6%nat ->
  let cursor := Visualizer.writeIndexRef (Visualizer.ring (Visualizer.refs w)) in
  let capacity := Visualizer.ringCapacity (Visualizer.config (Visualizer.ui w)) in
  let w' := Visualizer.writeSample env mvs w in
  (forall lead j, j <> cursor -> slot lead j w' = slot lead j w)
  /\ Z.of_nat (Visualizer.writeIndexRef (Visualizer.ring (Visualizer.refs w')))
     = (Z.of_nat cursor + 1) mod capacity.
Proof.
  intros Hwf Hmvs. exact (proj2 (writeSample_slots env mvs w Hwf Hmvs)).
Qed.

Lemma write_touches_cursor_slot_only_witness :
  let mvs := [1; 2; 3; 4; 5; 6]%Q in
  let w' := Visualizer.writeSample (Visualizer.ui Visualizer.mount) mvs Visualizer.mount in
  Invariant.ring_wf Visualizer.mount
  /\ slot 1 7 w' = slot 1 7 Visualizer.mount
  /\ Z.of_nat (Visualizer.writeIndexRef (Visualizer.ring (Visualizer.refs w'))) = 1.
Proof.
  intros mvs w'.
  assert (Hwf : Invariant.ring_wf Visualizer.mount)
    by exact (@ring_wf_reachable csv_host _ (@Visualizer.reach_mount csv_host)).
  split; [exact Hwf|].
  pose proof (write_touches_cursor_slot_only (Visualizer.ui Visualizer.mount) mvs
                Visualizer.mount Hwf eq_refl) as [Hother Hcur].
  split; [apply Hother; discriminate|exact Hcur].
Defined.

Lemma freeze_after_write (env : Visualizer.UiState) (mvs : list Q)
    (w : Visualizer.World) :
  Invariant.ring_wf w -> length mvs = 6%nat ->
  Visualizer.freeze (Visualizer.ring (Visualizer.refs (Visualizer.writeSample env mvs w)))
  = zip_with (fun old v => drop 1 old ++ [v])
      (Visualizer.freeze (Visualizer.ring (Visualizer.refs w))) mvs.
Proof.
  intros Hwf Hmvs.
  rewrite (freeze_chronological _ (ring_wf_writeSample env mvs w Hwf Hmvs)).
  rewrite (freeze_chronological w Hwf).
  pose proof (writeSample_buffers env mvs w Hwf Hmvs) as Hring. cbv zeta in Hring.
  rewrite Hring. cbn [Visualizer.bufferRef Visualizer.writeIndexRef].
  destruct Hwf as (H6 & Hall & Hidx & _ & _).
  set (bufs := Visualizer.bufferRef (Visualizer.ring (Visualizer.refs w))) in *.
  set (i := Visualizer.writeIndexRef (Visualizer.ring (Visualizer.refs w))) in *.
  set (c := Visualizer.ringCapacity (Visualizer.config (Visualizer.ui w))) in *.
  assert (Hc : 1 <= c) by (unfold c, Visualizer.ringCapacity; lia).
  clear Hring H6. revert mvs Hmvs. generalize 6%nat.
  induction Hall as [|b bufs' Hb Hall IH]; intros n mvs Hmvs.
  - destruct mvs; reflexivity.
  - destruct mvs as [|v mvs]; [reflexivity|].
    cbn [zip_with map]. f_equal.
    + rewrite <- (chronological_insert b i v) by lia. f_equal.
      apply Nat2Z.inj. rewrite Z2Nat.id by (apply Z.mod_pos_bound; lia).
      rewrite Nat2Z.inj_mod, Nat2Z.inj_add, Hb. reflexivity.
    + destruct n as [|n]; [discriminate Hmvs|]. apply (IH n). cbn in Hmvs. lia.
Qed.

Lemma freeze_length (r : Visualizer.Ring) :
  length (Visualizer.freeze r) = length (Visualizer.bufferRef r).
Proof. unfold Visualizer.freeze. apply length_map. Qed.

Lemma Forall2_zip_with_l {A B} (f : A -> B -> A) (l : list A) (k : list B) :
  length l = length k ->
  Forall2 (fun old new => exists v, new = f old v) l (zip_with f l k).
Proof.
  revert k. induction l as [|a l IH]; intros [|v k] Hlen; try discriminate.
  - constructor.
  - cbn [zip_with]. constructor; [exists v; reflexivity|].
    apply IH. cbn in Hlen. lia.
Qed.

(** X8. The snapshot that a manual stop freezes lists each lead oldest
    sample first: after one more write, the snapshot of every lead is the
    previous one without its first entry, with one new entry at the
    end. *)
Theorem snapshot_is_chronological (env : Visualizer.UiState) (mvs : list Q)
    (w : Visualizer.World) :
  Invariant.ring_wf w -> length mvs = 6%nat ->
  Forall2 (fun old new => exists v, new = drop 1 old ++ [v])
    (Visualizer.freeze (Visualizer.ring (Visualizer.refs w)))
    (Visualizer.freeze (Visualizer.ring (Visualizer.refs (Visualizer.writeSample env mvs w)))).
Proof.
  intros Hwf Hmvs. rewrite (freeze_after_write env mvs w Hwf Hmvs).
  apply (Forall2_zip_with_l (fun old v => drop 1 old ++ [v])).
  rewrite freeze_length. destruct Hwf as (H6 & _). cbv zeta in H6. lia.
Qed.

Lemma snapshot_is_chronological_witness :
  let mvs := [1; 2; 3; 4; 5; 6]%Q in
  Invariant.ring_wf Visualizer.mount
  /\ Forall2 (fun old new => exists v, new = drop 1 old ++ [v])
       (Visualizer.freeze (Visualizer.ring (Visualizer.refs Visualizer.mount)))
       (Visualizer.freeze (Visualizer.ring (Visualizer.refs
          (Visualizer.writeSample (Visualizer.ui Visualizer.mount) mvs Visualizer.mount)))).
Proof.
  intros mvs.
  assert (Hwf : Invariant.ring_wf Visualizer.mount)
    by exact (@ring_wf_reachable csv_host _ (@Visualizer.reach_mount csv_host)).
  split; [exact Hwf|].
  exact (snapshot_is_chronological (Visualizer.ui Visualizer.mount) mvs
           Visualizer.mount Hwf eq_refl).
Defined.

(** ** Recording session *)

Section SessionFacts.
Context `{Host}.
Import Visualizer.

Lemma slice_from_zero {A} (xs : list A) : JS.slice_from 0 xs = xs.
Proof.
  unfold JS.slice_from, JS.slice. cbv zeta. cbn [Z.ltb Z.compare].
  destruct (Z.of_nat (length xs) <? 0) eqn:E; [apply Z.ltb_lt in E; lia|].
  replace (Z.min 0 (Z.of_nat (length xs))) with 0 by lia.
  replace (Z.min (Z.of_nat (length xs)) (Z.of_nat (length xs))) with (Z.of_nat (length xs)) by lia.
  rewrite Z.sub_0_r, Nat2Z.id. cbn [Z.to_nat drop]. apply firstn_all.
Qed.

Lemma snapshot_manual_lead (sec : Q) (r : Refs) (ln : string) :
  ln ∈ leads ->
  snapshot false sec r !! ln = Some (VArr (recorded (recordRef r) ln)).
Proof.
  intros Hin. unfold snapshot. cbn [leads fold_left]. rewrite !slice_from_zero.
  unfold leads in Hin.
  repeat (apply elem_of_cons in Hin; destruct Hin as [->|Hin]);
    [..|apply elem_of_nil in Hin; contradiction];
    simplify_map_eq; reflexivity.
Qed.

(** With the six leads present as arrays the report is the twelve-key
    object built from them, whatever [advancedReport] says. *)
Lemma normalize_exact env (snap : gmap string JsVal) (a1 a2 a3 a4 a5 a6 : list Q) :
  snap !! "Lead I" = Some (VArr a1) -> snap !! "Lead II" = Some (VArr a2) ->
  snap !! "Lead III" = Some (VArr a3) -> snap !! "aVR" = Some (VArr a4) ->
  snap !! "aVL" = Some (VArr a5) -> snap !! "aVF" = Some (VArr a6) ->
  normalize env snap
  = <["aVF" := VArr a6]> (<["aVF" := VArr a6]> (<["aVL" := VArr a5]> (<["aVL" := VArr a5]>
      (<["aVR" := VArr a4]> (<["aVR" := VArr a4]> (<["Lead III" := VArr a3]> (<["III" := VArr a3]>
         (<["Lead II" := VArr a2]> (<["II" := VArr a2]> (<["Lead I" := VArr a1]>
            (<["I" := VArr a1]> ∅))))))))))).
Proof.
  intros H1 H2 H3 H4 H5 H6. unfold normalize.
  cbn [zip zip_with leads shortKeys fold_left].
  rewrite H1, H2, H3, H4, H5, H6. unfold js_or. cbn [truthy].
  destruct (advancedReport (config env)); [|reflexivity].
  unfold derive, is_missing, setLead. cbn [truthy default].
  simplify_map_eq. cbn. simplify_map_eq. reflexivity.
Qed.

Lemma snapshot_six (auto : bool) (sec : Q) (r : Refs) :
  exists a1 a2 a3 a4 a5 a6,
    snapshot auto sec r !! "Lead I" = Some (VArr a1)
    /\ snapshot auto sec r !! "Lead II" = Some (VArr a2)
    /\ snapshot auto sec r !! "Lead III" = Some (VArr a3)
    /\ snapshot auto sec r !! "aVR" = Some (VArr a4)
    /\ snapshot auto sec r !! "aVL" = Some (VArr a5)
    /\ snapshot auto sec r !! "aVF" = Some (VArr a6).
Proof.
  destruct auto; do 6 eexists; repeat split;
    first [apply snapshot_auto_lead | apply snapshot_manual_lead]; set_solver.
Qed.

Lemma stopRecording_env (env1 env2 : UiState) (auto : bool) (sec : Q) (w : World) :
  isRecording (capture env1) = isRecording (capture env2) ->
  stopRecording env1 auto sec w = stopRecording env2 auto sec w.
Proof.
  intros Hrec. unfold stopRecording. rewrite Hrec.
  destruct (negb _ && negb auto && negb _); [reflexivity|]. cbv zeta.
  match goal with
  | |- context [snapshot auto sec ?r] =>
      destruct (snapshot_six auto sec r) as (a1 & a2 & a3 & a4 & a5 & a6 & S1 & S2 & S3 & S4 & S5 & S6);
      rewrite (normalize_exact env1 _ _ _ _ _ _ _ S1 S2 S3 S4 S5 S6),
              (normalize_exact env2 _ _ _ _ _ _ _ S1 S2 S3 S4 S5 S6)
  end.
  reflexivity.
Qed.

Lemma recordSample_after_stop env env' auto sec now mvs (w : World) :
  recordSample env' now mvs (stopRecording env auto sec w) = stopRecording env auto sec w.
Proof.
  unfold stopRecording.
  destruct (negb (isRecording (capture env)) && negb auto
            && negb (active (recordRef (refs w)))) eqn:E.
  - apply andb_prop in E. destruct E as [_ E]. rewrite negb_true_iff in E.
    unfold recordSample. rewrite E. destruct (data _); reflexivity.
  - cbv zeta. unfold recordSample.
    destruct (negb auto); cbn; destruct (data (recordRef (refs w))); reflexivity.
Qed.
End SessionFacts.

(** X9. Once [stopRecording] has been called on a started recording, a
    later sample is neither appended to the session nor able to trigger
    another stop: the recording block of the loop leaves the world as the
    stop left it. *)
Theorem no_recording_after_stop (env env' : Visualizer.UiState) (auto : bool)
    (sec : Q) (now : Z) (mvs : list Q) (w : Visualizer.World) :
  Visualizer.data (Visualizer.recordRef (Visualizer.refs w)) <> None ->
  Visualizer.recordSample env' now mvs (Visualizer.stopRecording env auto sec w)
  = Visualizer.stopRecording env auto sec w.
Proof. intros _. apply recordSample_after_stop. Qed.

Lemma no_recording_after_stop_witness :
  let w0 := recording_of 1000 [1; 2; 3]%Q
              (Visualizer.connect Visualizer.SerialOnly Visualizer.mount) in
  let w1 := Visualizer.stopRecording (Visualizer.ui Visualizer.mount) false 15 w0 in
  Visualizer.data (Visualizer.recordRef (Visualizer.refs w0)) <> None
  /\ Visualizer.recordSample (Visualizer.ui Visualizer.mount) 1004000 [1; 1; 1; 1; 1; 1]%Q w1
     = w1.
Proof.
  intros w0 w1.
  assert (Hdata : Visualizer.data (Visualizer.recordRef (Visualizer.refs w0)) <> None)
    by discriminate.
  split; [exact Hdata|].
  exact (no_recording_after_stop (Visualizer.ui Visualizer.mount) (Visualizer.ui Visualizer.mount)
           false 15 1004000 [1; 1; 1; 1; 1; 1]%Q w0 Hdata).
Defined.

(** X10. The report of a started recording does not depend on the
    [advancedReport] setting, nor on anything else of the closure state
    but [isRecording]: every snapshot already holds the six leads, so the
    derivation of missing leads never runs. *)
Theorem report_ignores_advancedReport (env1 env2 : Visualizer.UiState) (auto : bool)
    (sec : Q) (w : Visualizer.World) :
  Visualizer.data (Visualizer.recordRef (Visualizer.refs w)) <> None ->
  Visualizer.isRecording (Visualizer.capture env1)
  = Visualizer.isRecording (Visualizer.capture env2) ->
  Visualizer.stopRecording env1 auto sec w = Visualizer.stopRecording env2 auto sec w.
Proof. intros _. apply stopRecording_env. Qed.

Lemma report_ignores_advancedReport_witness :
  let w0 := recording_of 1000 [1; 2; 3]%Q
              (Visualizer.connect Visualizer.SerialOnly Visualizer.mount) in
  let env2 := Visualizer.ui (Visualizer.with_config
                (fun c => Visualizer.mkConfig (Visualizer.sampleRate c)
                            (Visualizer.secondsWindow c) (Visualizer.inputUnits c)
                            (Visualizer.filterOn c) false) Visualizer.mount) in
  Visualizer.data (Visualizer.recordRef (Visualizer.refs w0)) <> None
  /\ Visualizer.isRecording (Visualizer.capture (Visualizer.ui Visualizer.mount))
     = Visualizer.isRecording (Visualizer.capture env2)
  /\ Visualizer.stopRecording (Visualizer.ui Visualizer.mount) false 15 w0
     = Visualizer.stopRecording env2 false 15 w0.
Proof.
  intros w0 env2.
  assert (Hdata : Visualizer.data (Visualizer.recordRef (Visualizer.refs w0)) <> None)
    by discriminate.
  assert (Hrec : Visualizer.isRecording (Visualizer.capture (Visualizer.ui Visualizer.mount))
                 = Visualizer.isRecording (Visualizer.capture env2)) by reflexivity.
  split; [exact Hdata|]. split; [exact Hrec|].
  exact (report_ignores_advancedReport (Visualizer.ui Visualizer.mount) env2 false 15 w0
           Hdata Hrec).
Defined.

(** X11. A manual stop of an active, started recording keeps the whole
    recording:
    the report holds every lead in full under its long and its short
    name, the display is frozen on the chronological snapshot of the ring
    buffer, the automatic restart is suppressed and the wait begins. *)
Theorem manual_stop_keeps_everything (env : Visualizer.UiState) (sec : Q)
    (w : Visualizer.World) :
  Visualizer.data (Visualizer.recordRef (Visualizer.refs w)) <> None ->
  Visualizer.active (Visualizer.recordRef (Visualizer.refs w)) = true ->
  let w' := Visualizer.stopRecording env false sec w in
  Forall2 (fun long short =>
             report_lead long w'
             = Some (Visualizer.recorded (Visualizer.recordRef (Visualizer.refs w)) long)
             /\ report_lead short w' = report_lead long w')
          Visualizer.leads Visualizer.shortKeys
  /\ Visualizer.flags (Visualizer.refs w')
     = Visualizer.mkFlags
         (Visualizer.autoStopTriggeredRef (Visualizer.flags (Visualizer.refs w)))
         true true (Some (Visualizer.freeze (Visualizer.ring (Visualizer.refs w))))
  /\ Visualizer.active (Visualizer.recordRef (Visualizer.refs w')) = false
  /\ Visualizer.isRecording (Visualizer.capture (Visualizer.ui w')) = false
  /\ Visualizer.isWaiting (Visualizer.capture (Visualizer.ui w')) = true.
Proof.
  intros _ Hact w'. subst w'. unfold Visualizer.stopRecording. rewrite Hact.
  rewrite !andb_false_r. cbv zeta. cbn [negb].
  split; [|repeat split; reflexivity].
  unfold report_lead. cbn -[Visualizer.normalize Visualizer.snapshot].
  match goal with
  | |- context [Visualizer.snapshot false sec ?r] => set (r0 := r)
  end.
  rewrite (normalize_exact env (Visualizer.snapshot false sec r0) _ _ _ _ _ _
             (snapshot_manual_lead sec r0 "Lead I" ltac:(repeat constructor))
             (snapshot_manual_lead sec r0 "Lead II" ltac:(repeat constructor))
             (snapshot_manual_lead sec r0 "Lead III" ltac:(repeat constructor))
             (snapshot_manual_lead sec r0 "aVR" ltac:(repeat constructor))
             (snapshot_manual_lead sec r0 "aVL" ltac:(repeat constructor))
             (snapshot_manual_lead sec r0 "aVF" ltac:(repeat constructor))).
  unfold Visualizer.leads, Visualizer.shortKeys.
  repeat constructor; simplify_map_eq; reflexivity.
Qed.

Lemma manual_stop_keeps_everything_witness :
  let w0 := recording_of 1000 [1; 2; 3]%Q
              (Visualizer.connect Visualizer.SerialOnly Visualizer.mount) in
  Visualizer.data (Visualizer.recordRef (Visualizer.refs w0)) <> None
  /\ Visualizer.active (Visualizer.recordRef (Visualizer.refs w0)) = true
  /\ report_lead "II" (Visualizer.stopRecording (Visualizer.ui Visualizer.mount) false 15 w0)
     = Some [1; 2; 3]%Q.
Proof.
  intros w0.
  assert (Hdata : Visualizer.data (Visualizer.recordRef (Visualizer.refs w0)) <> None)
    by discriminate.
  assert (Hact : Visualizer.active (Visualizer.recordRef (Visualizer.refs w0)) = true)
    by reflexivity.
  split; [exact Hdata|]. split; [exact Hact|].
  pose proof (proj1 (manual_stop_keeps_everything (Visualizer.ui Visualizer.mount) 15 w0
                       Hdata Hact))
    as Hall.
  cbv zeta in Hall. inversion Hall as [|? ? ? ? _ Hrest]; subst.
  inversion Hrest as [|? ? ? ? [Hlong Hshort] _]; subst.
  rewrite Hshort, Hlong. reflexivity.
Defined.

Section SessionInvariant.
Context `{Host}.
Import Visualizer.

Lemma session_wf_ext (w w' : World) :
  data (recordRef (refs w')) = data (recordRef (refs w)) ->
  count (recordRef (refs w')) = count (recordRef (refs w)) ->
  (data (recordRef (refs w)) = None -> active (recordRef (refs w')) = false) ->
  Invariant.session_wf w -> Invariant.session_wf w'.
Proof.
  unfold Invariant.session_wf. cbv zeta. intros -> -> Hact.
  destruct (data (recordRef (refs w))); [trivial|].
  intros [_ Hc]. split; [apply Hact; reflexivity|exact Hc].
Qed.

Lemma session_wf_same (w w' : World) :
  recordRef (refs w') = recordRef (refs w) ->
  Invariant.session_wf w -> Invariant.session_wf w'.
Proof. unfold Invariant.session_wf. intros ->. trivial. Qed.

Lemma session_wf_stop env auto sec (w : World) :
  Invariant.session_wf w -> Invariant.session_wf (stopRecording env auto sec w).
Proof.
  intros Hwf. unfold stopRecording.
  destruct (negb _ && negb auto && negb _); [exact Hwf|]. cbv zeta.
  destruct (negb auto);
    (apply (session_wf_ext w); [reflexivity|reflexivity|reflexivity|exact Hwf]).
Qed.

Lemma session_wf_start env v now (w : World) :
  Invariant.session_wf w -> Invariant.session_wf (startRecording env v now w).
Proof.
  intros Hwf. unfold startRecording.
  destruct (negb _ || negb _); [exact Hwf|].
  unfold Invariant.session_wf. cbn. intros ln Hin. exists [].
  unfold leads in Hin.
  repeat (apply elem_of_cons in Hin; destruct Hin as [->|Hin]);
    [..|apply elem_of_nil in Hin; contradiction];
    split; simplify_map_eq; reflexivity.
Qed.

Lemma session_wf_record env now mvs (w : World) :
  Invariant.session_wf w -> Invariant.session_wf (recordSample env now mvs w).
Proof.
  intros Hwf. unfold recordSample.
  destruct (data (recordRef (refs w))) as [d|] eqn:Ed; [|exact Hwf].
  destruct (active (recordRef (refs w))) eqn:Ea; [|exact Hwf].
  cbv zeta.
  match goal with
  | |- Invariant.session_wf (if ?c then stopRecording ?e ?a ?s ?w1 else ?w2) =>
      assert (Hw2 : Invariant.session_wf w2);
      [|destruct c; [apply session_wf_stop; exact Hw2|exact Hw2]]
  end.
  unfold Invariant.session_wf in *. rewrite Ed in Hwf. cbn.
  cbn [imap leads fold_left fst snd].
  intros ln Hin.
  pose proof (Hwf "Lead I" ltac:(repeat constructor)) as (x1 & L1 & C1).
  pose proof (Hwf "Lead II" ltac:(repeat constructor)) as (x2 & L2 & C2).
  pose proof (Hwf "Lead III" ltac:(repeat constructor)) as (x3 & L3 & C3).
  pose proof (Hwf "aVR" ltac:(repeat constructor)) as (x4 & L4 & C4).
  pose proof (Hwf "aVL" ltac:(repeat constructor)) as (x5 & L5 & C5).
  pose proof (Hwf "aVF" ltac:(repeat constructor)) as (x6 & L6 & C6).
  unfold leads in Hin.
  repeat (apply elem_of_cons in Hin; destruct Hin as [->|Hin]);
    [..|apply elem_of_nil in Hin; contradiction];
    eexists; (split; [simplify_map_eq; reflexivity|rewrite length_app; cbn; lia]).
Qed.

Lemma session_wf_handleSample v env now arr (w : World) :
  Invariant.session_wf w -> Invariant.session_wf (handleSample v env now arr w).
Proof.
  intros Hwf. unfold handleSample.
  destruct (isCalibrating (link env)); [exact Hwf|].
  destruct (filterAll _ _ _) as [mvs b].
  match goal with
  | |- Invariant.session_wf (writeSample ?e ?m ?w1) =>
      apply (session_wf_same w1); [reflexivity|]
  end.
  apply session_wf_record.
  destruct v; [exact Hwf|].
  destruct (detect_frame now mvs (with_bank (fun _ => b) w)) as (_ & _ & Hr & _).
  eapply session_wf_same; [exact Hr|exact Hwf].
Qed.

Lemma session_wf_reachable (w : World) : reachable w -> Invariant.session_wf w.
Proof.
  induction 1 as [|v w _ IH|v env e w _ IH|now mvs w _ IH|env v now w _ IH
                 |env auto sec w _ IH|parsed w _ IH|parsed w _ IH].
  - split; reflexivity.
  - destruct (connect_frame v w) as (_ & _ & Hr & _).
    eapply session_wf_same; [exact Hr|exact IH].
  - destruct e as [now raw|]; cbn [step].
    + unfold processLine. cbv zeta.
      destruct (JS.is_empty _); [exact IH|].
      destruct (is_calibration_end _); [exact IH|].
      destruct (is_calibration_start _); [exact IH|].
      destruct (Parser.parseSample _); [|exact IH].
      apply session_wf_handleSample. exact IH.
    + destruct (calibTimeout _); exact IH.
  - destruct (detect_frame now mvs w) as (_ & _ & Hr & _).
    eapply session_wf_same; [exact Hr|exact IH].
  - apply session_wf_start. exact IH.
  - apply session_wf_stop. exact IH.
  - unfold onChange_window, commit. cbv zeta. case_ifs; exact IH.
  - unfold onChange_sampleRate, commit. cbv zeta. case_ifs; exact IH.
Qed.
End SessionInvariant.

(** X12. In every reachable world the six lead lists of the recording
    session have the same length, the number of samples counted since the
    recording started. *)
Theorem recording_leads_stay_aligned `{Host} (w : Visualizer.World)
    (d : gmap string (list Q)) :
  Visualizer.reachable w ->
  Visualizer.data (Visualizer.recordRef (Visualizer.refs w)) = Some d ->
  Forall (fun ln => exists xs,
            d !! ln = Some xs
            /\ Z.of_nat (length xs) = Visualizer.count (Visualizer.recordRef (Visualizer.refs w)))
         Visualizer.leads.
Proof.
  intros Hreach Hd. pose proof (session_wf_reachable w Hreach) as Hwf.
  unfold Invariant.session_wf in Hwf. cbv zeta in Hwf. rewrite Hd in Hwf.
  apply Forall_forall. exact Hwf.
Qed.

Lemma recording_leads_stay_aligned_witness :
  let w0 := Visualizer.connect Visualizer.SerialOnly Visualizer.mount in
  let w1 := Visualizer.startRecording (Visualizer.ui w0) Visualizer.SerialOnly 1000000 w0 in
  let w := @Visualizer.run csv_host Visualizer.SerialOnly (Visualizer.ui Visualizer.mount)
             [Visualizer.Line 1000008 "1,2"; Visualizer.Line 1000016 "3,4"] w1 in
  @Visualizer.reachable csv_host w
  /\ Visualizer.count (Visualizer.recordRef (Visualizer.refs w)) = 2
  /\ exists d, Visualizer.data (Visualizer.recordRef (Visualizer.refs w)) = Some d
       /\ Forall (fun ln => exists xs, d !! ln = Some xs /\ Z.of_nat (length xs) = 2)
            Visualizer.leads.
Proof.
  intros w0 w1 w.
  assert (Hreach : @Visualizer.reachable csv_host w).
  { unfold w, w1, w0, Visualizer.run. cbn [fold_left].
    apply Visualizer.reach_step, Visualizer.reach_step, Visualizer.reach_start,
      Visualizer.reach_connect, Visualizer.reach_mount. }
  split; [exact Hreach|].
  assert (Hc : Visualizer.count (Visualizer.recordRef (Visualizer.refs w)) = 2)
    by (vm_compute; reflexivity).
  split; [exact Hc|].
  destruct (Visualizer.data (Visualizer.recordRef (Visualizer.refs w))) as [d|] eqn:Ed.
  - exists d. split; [reflexivity|].
    rewrite <- Hc. exact (@recording_leads_stay_aligned csv_host w d Hreach Ed).
  - exfalso. vm_compute in Ed. discriminate Ed.
Defined.

(** ** Heart rate on display and the peak window *)

Section VitalsFacts.
Context `{Host}.
Import Visualizer.

Lemma vitals_wf_ext (w w' : World) :
  heartRate (vitals (ui w')) = heartRate (vitals (ui w)) ->
  rPeakBufferRef (det (refs w')) = rPeakBufferRef (det (refs w)) ->
  Invariant.vitals_wf w -> Invariant.vitals_wf w'.
Proof. unfold Invariant.vitals_wf. intros -> ->. trivial. Qed.

Lemma storeInterval_vitals (r : Z) (w : World) :
  rPeakBufferRef (det (refs (storeInterval r w))) = rPeakBufferRef (det (refs w))
  /\ (heartRate (vitals (ui (storeInterval r w))) = heartRate (vitals (ui w))
      \/ 40 <= heartRate (vitals (ui (storeInterval r w))) <= 180).
Proof.
  unfold storeInterval, calculateAdvancedHRV. cbv zeta.
  destruct (2 <=? length _)%nat.
  - set (smoothedHR := JS.Math_round _).
    destruct ((40 <=? smoothedHR) && (smoothedHR <=? 180)) eqn:E.
    + apply andb_prop in E. destruct E as [E1%Z.leb_le E2%Z.leb_le].
      split; [frame|]. right.
      destruct (5 <=? length _)%nat; [|exact (conj E1 E2)].
      destruct (HRV.calculateAdvancedHRV _) as [[st m]|]; exact (conj E1 E2).
    + split; [frame|]. left. frame.
  - split; [frame|]. left. frame.
Qed.

Lemma vitals_wf_detect now mvs (w : World) :
  Invariant.vitals_wf w -> Invariant.vitals_wf (detectRPeakMultiLead now mvs w).
Proof.
  intros [Hhr Hbuf]. unfold detectRPeakMultiLead. cbv zeta.
  destruct (match lastRPeakRef (det (refs w)) with
            | Some t => now - t <? 300 | None => false end); [split; assumption|].
  set (buf := JS.shift_while_longer 15 _).
  assert (Hlen : (length buf <= 15)%nat) by apply shift_while_longer_length.
  set (w1 := with_det _ w).
  assert (Hw1 : Invariant.vitals_wf w1) by (split; [exact Hhr|exact Hlen]).
  destruct (length buf <? 9)%nat; [exact Hw1|].
  destruct (buf !! _) as [midSample|]; [|exact Hw1].
  destruct (isPeak_of _ _ _); [|exact Hw1].
  match goal with
  | |- Invariant.vitals_wf (with_det ?f ?w2) =>
      apply (vitals_wf_ext w2); [reflexivity|reflexivity|]
  end.
  destruct (lastRPeakRef (det (refs w))) as [t|]; [|exact Hw1].
  destruct ((333 <=? _) && (_ <=? 1500)); [|exact Hw1].
  destruct (acceptBeat_of _ _); [|exact Hw1].
  destruct (storeInterval_vitals (time midSample - t) w1) as [Hb Hr].
  unfold Invariant.vitals_wf. rewrite Hb. split; [|exact Hlen].
  destruct Hr as [->|Hr]; [exact Hhr|right; exact Hr].
Qed.

Lemma vitals_wf_handleSample v env now arr (w : World) :
  Invariant.vitals_wf w -> Invariant.vitals_wf (handleSample v env now arr w).
Proof.
  intros Hwf. unfold handleSample.
  destruct (isCalibrating (link env)); [exact Hwf|].
  destruct (filterAll _ _ _) as [mvs b].
  match goal with
  | |- Invariant.vitals_wf (writeSample ?e ?m (recordSample ?e ?n ?m ?w1)) =>
      destruct (recordSample_frame e n m w1) as (_ & _ & _ & Hd & _ & _ & _ & Hv);
      apply (vitals_wf_ext w1);
      [unfold writeSample; cbn; rewrite Hv; reflexivity
      |unfold writeSample; cbn; rewrite Hd; reflexivity|]
  end.
  destruct v; [exact Hwf|]. apply vitals_wf_detect. exact Hwf.
Qed.

Lemma vitals_wf_reachable (w : World) : reachable w -> Invariant.vitals_wf w.
Proof.
  induction 1 as [|v w _ IH|v env e w _ IH|now mvs w _ IH|env v now w _ IH
                 |env auto sec w _ IH|parsed w _ IH|parsed w _ IH].
  - split; [left; reflexivity|cbn; lia].
  - destruct v; [exact IH|]. split; [left; reflexivity|cbn; lia].
  - destruct e as [now raw|]; cbn [step].
    + unfold processLine. cbv zeta.
      destruct (JS.is_empty _); [exact IH|].
      destruct (is_calibration_end _); [exact IH|].
      destruct (is_calibration_start _); [exact IH|].
      destruct (Parser.parseSample _); [|exact IH].
      apply vitals_wf_handleSample. exact IH.
    + destruct (calibTimeout _); exact IH.
  - apply vitals_wf_detect. exact IH.
  - destruct (startRecording_frame env v now w) as (_ & _ & _ & Hd & _ & _ & _ & Hv).
    eapply vitals_wf_ext; [rewrite Hv; reflexivity|rewrite Hd; reflexivity|exact IH].
  - destruct (stopRecording_frame env auto sec w) as (_ & _ & _ & Hd & _ & _ & _ & Hv).
    eapply vitals_wf_ext; [rewrite Hv; reflexivity|rewrite Hd; reflexivity|exact IH].
  - unfold onChange_window, commit. cbv zeta. case_ifs; exact IH.
  - unfold onChange_sampleRate, commit. cbv zeta. case_ifs; exact IH.
Qed.
End VitalsFacts.

(** X13. In every reachable world the heart rate on display is either the
    reset value 0 or a rate between 40 and 180 bpm, and the window the
    detector looks for peaks in holds at most 15 samples. *)
Theorem displayed_heart_rate_is_plausible `{Host} (w : Visualizer.World) :
  Visualizer.reachable w ->
  let hr := Visualizer.heartRate (Visualizer.vitals (Visualizer.ui w)) in
  (hr = 0 \/ 40 <= hr <= 180)
  /\ (length (Visualizer.rPeakBufferRef (Visualizer.det (Visualizer.refs w))) <= 15)%nat.
Proof. intros Hreach. exact (vitals_wf_reachable w Hreach). Qed.

Lemma displayed_heart_rate_is_plausible_witness :
  let beats := fun k => if (k mod 100 =? 8)%nat then 1%Q else 0%Q in
  let w := @Visualizer.detect_all csv_host (Visualizer.sampled beats 320) Visualizer.mount in
  @Visualizer.reachable csv_host w
  /\ Visualizer.heartRate (Visualizer.vitals (Visualizer.ui w)) = 75
  /\ (40 <= 75 <= 180).
Proof.
  intros beats w.
  assert (Hreach : @Visualizer.reachable csv_host w).
  { apply reachable_detect_all. constructor. }
  split; [exact Hreach|].
  assert (Hhr : Visualizer.heartRate (Visualizer.vitals (Visualizer.ui w)) = 75)
    by (vm_compute; reflexivity).
  split; [exact Hhr|].
  destruct (proj1 (@displayed_heart_rate_is_plausible csv_host w Hreach)) as [H0|Hr].
  - rewrite Hhr in H0. discriminate H0.
  - rewrite Hhr in Hr. exact Hr.
Defined.

(** ** Filter bank *)

Section BankFacts.
Context `{Host}.
Import Visualizer.

Lemma effect_filter_bank (w : World) : Invariant.bank_wf (effect_filter w).
Proof. unfold Invariant.bank_wf, effect_filter. cbv zeta. repeat split. Qed.

Lemma bank_wf_shape (w w' : World) :
  length (hpStateRef (bank (refs w'))) = length (hpStateRef (bank (refs w))) ->
  length (lpStateRef (bank (refs w'))) = length (lpStateRef (bank (refs w))) ->
  hpAlphaRef (bank (refs w')) = hpAlphaRef (bank (refs w)) ->
  lpAlphaRef (bank (refs w')) = lpAlphaRef (bank (refs w)) ->
  sampleRateRef (refs w') = sampleRateRef (refs w) ->
  Invariant.bank_wf w -> Invariant.bank_wf w'.
Proof.
  unfold Invariant.bank_wf, effect_filter. cbv zeta.
  cbn [bank refs with_bank hpAlphaRef lpAlphaRef].
  intros -> -> -> -> ->. trivial.
Qed.

Lemma bank_wf_ext (w w' : World) :
  bank (refs w') = bank (refs w) -> sampleRateRef (refs w') = sampleRateRef (refs w) ->
  Invariant.bank_wf w -> Invariant.bank_wf w'.
Proof. intros Hb Hr. apply bank_wf_shape; rewrite ?Hb; auto. Qed.

Lemma filterFrom_bank (i : nat) (mvs ys : list Q) (b b' : Bank) :
  filterFrom i mvs b = (ys, b') ->
  length (hpStateRef b') = length (hpStateRef b)
  /\ length (lpStateRef b') = length (lpStateRef b)
  /\ hpAlphaRef b' = hpAlphaRef b /\ lpAlphaRef b' = lpAlphaRef b.
Proof.
  revert i ys b b'. induction mvs as [|x r IH]; intros i ys b b'.
  - intros [= _ <-]. repeat split.
  - cbn [filterFrom].
    destruct (filterSample i x b) as [y b1] eqn:Es.
    destruct (filterFrom (S i) r b1) as [ys1 b2] eqn:Ef.
    intros [= _ <-]. destruct (IH _ _ _ _ Ef) as (H1 & H2 & H3 & H4).
    unfold filterSample in Es. cbv zeta in Es. injection Es as _ <-.
    cbn [hpStateRef lpStateRef hpAlphaRef lpAlphaRef] in *.
    rewrite length_insert in H1. rewrite length_insert in H2.
    repeat split; assumption.
Qed.

Lemma bank_wf_handleSample v env now arr (w : World) :
  Invariant.bank_wf w -> Invariant.bank_wf (handleSample v env now arr w).
Proof.
  intros Hwf. unfold handleSample.
  destruct (isCalibrating (link env)); [exact Hwf|].
  destruct (filterAll env (map (valueToMv env) arr) (bank (refs w))) as [mvs b] eqn:Ef.
  assert (Hb : Invariant.bank_wf (with_bank (fun _ => b) w)).
  { unfold filterAll in Ef. destruct (filterOn (config env)).
    - destruct (filterFrom_bank _ _ _ _ _ Ef) as (H1 & H2 & H3 & H4).
      apply (bank_wf_shape w); [exact H1|exact H2|exact H3|exact H4|reflexivity|exact Hwf].
    - injection Ef as _ <-. apply (bank_wf_ext w); [reflexivity|reflexivity|exact Hwf]. }
  match goal with
  | |- Invariant.bank_wf (writeSample ?e ?m (recordSample ?e ?n ?m ?w1)) =>
      destruct (recordSample_frame e n m w1) as (_ & Hbk & Hsr & _);
      apply (bank_wf_ext w1);
        [unfold writeSample; cbn; rewrite Hbk; reflexivity
        |unfold writeSample; cbn; rewrite Hsr; reflexivity|]
  end.
  destruct v; [exact Hb|].
  destruct (detect_frame now mvs (with_bank (fun _ => b) w)) as (_ & Hdet & _ & _ & Hdr & _).
  eapply bank_wf_ext; [exact Hdet|exact Hdr|exact Hb].
Qed.

Lemma bank_wf_commit prev (w : World) :
  Invariant.bank_wf w -> Invariant.bank_wf (commit prev w).
Proof.
  intros Hwf. unfold commit. cbv zeta.
  destruct (negb (sampleRate (config prev) =? sampleRate (config (ui w)))).
  - apply effect_filter_bank.
  - destruct (negb _ || false); [|exact Hwf].
    apply (bank_wf_ext w); [reflexivity|reflexivity|exact Hwf].
Qed.

Lemma bank_wf_reachable (w : World) : reachable w -> Invariant.bank_wf w.
Proof.
  induction 1 as [|v w _ IH|v env e w _ IH|now mvs w _ IH|env v now w _ IH
                 |env auto sec w _ IH|parsed w _ IH|parsed w _ IH].
  - apply effect_filter_bank.
  - destruct (connect_frame v w) as (_ & Hb & _ & _ & Hr & _).
    eapply bank_wf_ext; eassumption.
  - destruct e as [now raw|]; cbn [step].
    + unfold processLine. cbv zeta.
      destruct (JS.is_empty _); [exact IH|].
      destruct (is_calibration_end _); [exact IH|].
      destruct (is_calibration_start _); [exact IH|].
      destruct (Parser.parseSample _); [|exact IH].
      apply bank_wf_handleSample. exact IH.
    + destruct (calibTimeout _); exact IH.
  - destruct (detect_frame now mvs w) as (_ & Hb & _ & _ & Hr & _).
    eapply bank_wf_ext; eassumption.
  - destruct (startRecording_frame env v now w) as (_ & Hb & Hr & _).
    eapply bank_wf_ext; eassumption.
  - destruct (stopRecording_frame env auto sec w) as (_ & Hb & Hr & _).
    eapply bank_wf_ext; eassumption.
  - apply bank_wf_commit. exact IH.
  - apply bank_wf_commit. exact IH.
Qed.
End BankFacts.

(** X14. In every reachable world each filter stage keeps one state cell
    per lead, and the two coefficients are the ones the sample-rate effect
    computes from the rate the read loop uses now: no sample, recording
    or setting leaves the filter tuned to an earlier rate. *)
Theorem filter_follows_sample_rate `{Host} (w : Visualizer.World) :
  Visualizer.reachable w ->
  let b := Visualizer.bank (Visualizer.refs w) in
  let fresh := Visualizer.bank (Visualizer.refs (Visualizer.effect_filter w)) in
  length (Visualizer.hpStateRef b) = 6%nat
  /\ length (Visualizer.lpStateRef b) = 6%nat
  /\ Visualizer.hpAlphaRef b = Visualizer.hpAlphaRef fresh
  /\ Visualizer.lpAlphaRef b = Visualizer.lpAlphaRef fresh.
Proof. intros Hreach. exact (bank_wf_reachable w Hreach). Qed.

Lemma filter_follows_sample_rate_witness :
  let w := @Visualizer.session csv_host Visualizer.SerialOnly
             [Visualizer.Line 0 "1,2,3,4,5,6"]
             (Visualizer.onChange_sampleRate (Some 500) Visualizer.mount) in
  @Visualizer.reachable csv_host w
  /\ length (Visualizer.lpStateRef (Visualizer.bank (Visualizer.refs w))) = 6%nat.
Proof.
  intros w.
  assert (Hreach : @Visualizer.reachable csv_host w).
  { unfold w, Visualizer.session, Visualizer.run. cbn [fold_left].
    apply Visualizer.reach_step, Visualizer.reach_connect, Visualizer.reach_rate,
      Visualizer.reach_mount. }
  split; [exact Hreach|].
  exact (proj1 (proj2 (@filter_follows_sample_rate csv_host w Hreach))).
Defined.

(** X15. A change of sample rate zeroes the filter states of all leads
    and brings the ref the read loop uses to the new rate; a change of the
    window alone leaves the whole filter bank as it was. *)
Theorem filter_reset_on_rate_change (prev : Visualizer.UiState) (w : Visualizer.World) :
  let c0 := Visualizer.config prev in
  let c := Visualizer.config (Visualizer.ui w) in
  let w' := Visualizer.commit prev w in
  (Visualizer.sampleRate c0 <> Visualizer.sampleRate c ->
     Visualizer.hpStateRef (Visualizer.bank (Visualizer.refs w')) = replicate 6 (0%Q, 0%Q)
     /\ Visualizer.lpStateRef (Visualizer.bank (Visualizer.refs w')) = replicate 6 0%Q
     /\ Visualizer.sampleRateRef (Visualizer.refs w') = Visualizer.sampleRate c)
  /\ (Visualizer.sampleRate c0 = Visualizer.sampleRate c ->
        Visualizer.bank (Visualizer.refs w') = Visualizer.bank (Visualizer.refs w)
        /\ Visualizer.sampleRateRef (Visualizer.refs w') = Visualizer.sampleRateRef (Visualizer.refs w)).
Proof.
  intros c0 c w'. subst w'. unfold Visualizer.commit. cbv zeta. fold c0 c.
  destruct (Visualizer.sampleRate c0 =? Visualizer.sampleRate c) eqn:E.
  - apply Z.eqb_eq in E. split; [intros Hne; contradiction|]. intros _.
    cbn [negb orb]. destruct (negb _ || false); split; reflexivity.
  - apply Z.eqb_neq in E. split; [|intros Heq; contradiction]. intros _.
    cbn [negb]. rewrite orb_true_r. repeat split; reflexivity.
Qed.

Lemma filter_reset_on_rate_change_witness :
  let w := Visualizer.setSampleRate 500 Visualizer.mount in
  Visualizer.sampleRate (Visualizer.config (Visualizer.ui Visualizer.mount))
  <> Visualizer.sampleRate (Visualizer.config (Visualizer.ui w))
  /\ Visualizer.sampleRateRef
       (Visualizer.refs (Visualizer.commit (Visualizer.ui Visualizer.mount) w)) = 500.
Proof.
  intros w.
  assert (Hne : Visualizer.sampleRate (Visualizer.config (Visualizer.ui Visualizer.mount))
                <> Visualizer.sampleRate (Visualizer.config (Visualizer.ui w)))
    by discriminate.
  split; [exact Hne|].
  exact (proj2 (proj2 (proj1 (filter_reset_on_rate_change (Visualizer.ui Visualizer.mount) w)
                         Hne))).
Defined.

(** ** Risk engine: the beat detector and what follows from it *)

Section SumFacts.

Lemma fold_plus_acc (xs : list Q) (a : Q) : (fold_left Qplus xs a == a + JS.sum xs)%Q.
Proof.
  unfold JS.sum. revert a. induction xs as [|x r IH]; intros a; cbn [fold_left].
  - ring.
  - rewrite IH, (IH (0 + x)%Q). ring.
Qed.

Lemma sum_cons (x : Q) (r : list Q) : (JS.sum (x :: r) == x + JS.sum r)%Q.
Proof. unfold JS.sum at 1. cbn [fold_left]. rewrite fold_plus_acc. ring. Qed.

Lemma ofNat_S (n : nat) : (JS.ofNat (S n) == JS.ofNat n + 1)%Q.
Proof.
  unfold JS.ofNat. rewrite Nat2Z.inj_succ. unfold Z.succ.
  rewrite inject_Z_plus. reflexivity.
Qed.

Lemma ofNat_pos (n : nat) : (0 < n)%nat -> (0 < JS.ofNat n)%Q.
Proof.
  intros Hn. unfold JS.ofNat. change 0%Q with (inject_Z 0).
  rewrite <- Zlt_Qlt. lia.
Qed.

Lemma sum_ge (c : Q) (xs : list Q) :
  Forall (fun x => c <= x)%Q xs -> (c * JS.ofNat (length xs) <= JS.sum xs)%Q.
Proof.
  induction 1 as [|x r Hx _ IH].
  - unfold JS.sum, JS.ofNat. cbn [length fold_left].
    change (inject_Z (Z.of_nat 0)) with 0%Q. lra.
  - cbn [length]. rewrite sum_cons, ofNat_S. lra.
Qed.

Lemma sum_le (c : Q) (xs : list Q) :
  Forall (fun x => x <= c)%Q xs -> (JS.sum xs <= c * JS.ofNat (length xs))%Q.
Proof.
  induction 1 as [|x r Hx _ IH].
  - unfold JS.sum, JS.ofNat. cbn [length fold_left].
    change (inject_Z (Z.of_nat 0)) with 0%Q. lra.
  - cbn [length]. rewrite sum_cons, ofNat_S. lra.
Qed.

Lemma sum_zero (xs : list Q) : Forall (fun x => x == 0)%Q xs -> (JS.sum xs == 0)%Q.
Proof.
  induction 1 as [|x r Hx _ IH].
  - reflexivity.
  - rewrite sum_cons, Hx, IH. ring.
Qed.

(** The mean of a non-empty list lies between any bounds of its entries. *)
Lemma mean_between (lo hi : Q) (xs : list Q) :
  xs <> [] -> Forall (fun x => lo <= x /\ x <= hi)%Q xs ->
  (lo <= JS.sum xs / JS.ofNat (length xs) /\ JS.sum xs / JS.ofNat (length xs) <= hi)%Q.
Proof.
  intros Hne Hall.
  assert (Hpos : (0 < JS.ofNat (length xs))%Q)
    by (apply ofNat_pos; destruct xs; [congruence|cbn; lia]).
  split.
  - apply Qle_shift_div_l; [exact Hpos|]. apply sum_ge.
    eapply Forall_impl; [exact Hall|]. cbv beta. intros x [Hx _]. exact Hx.
  - apply Qle_shift_div_r; [exact Hpos|]. apply sum_le.
    eapply Forall_impl; [exact Hall|]. cbv beta. intros x [_ Hx]. exact Hx.
Qed.

Lemma round_ge (a : Z) (x : Q) : (JS.ofZ a <= x)%Q -> a <= JS.Math_round x.
Proof.
  intros Ha. unfold JS.Math_round, JS.ofZ in *.
  rewrite <- (Qfloor_Z a). apply Qfloor_resp_le. lra.
Qed.

Lemma round_le (b : Z) (x : Q) : (x <= JS.ofZ b)%Q -> JS.Math_round x <= b.
Proof.
  intros Hb. unfold JS.Math_round, JS.ofZ in *.
  pose proof (Qfloor_le (x + (1 # 2))) as Hfl.
  assert (Hlt : (inject_Z (Qfloor (x + (1 # 2))) < inject_Z (b + 1))%Q)
    by (rewrite inject_Z_plus; change (inject_Z 1) with 1%Q; lra).
  rewrite <- Zlt_Qlt in Hlt. lia.
Qed.

Lemma round_between (a b : Z) (x : Q) :
  (JS.ofZ a <= x)%Q -> (x <= JS.ofZ b)%Q -> a <= JS.Math_round x <= b.
Proof. intros Ha Hb. split; [apply round_ge; exact Ha|apply round_le; exact Hb]. Qed.
End SumFacts.

Section PeakFacts.
Import Risk.

Lemma spaced_snoc (gap x : Z) (peaks : list Z) :
  Invariant.spaced gap peaks ->
  (forall l, last peaks = Some l -> gap < x - l) ->
  Invariant.spaced gap (peaks ++ [x]).
Proof.
  induction peaks as [|a r IH]; intros Hs Hl; [exact I|].
  destruct r as [|b r'].
  - cbn. split; [apply Hl; reflexivity|exact I].
  - cbn [app Invariant.spaced] in *. destruct Hs as [Hab Hs]. split; [exact Hab|].
    apply IH; [exact Hs|]. intros l Hlast. apply Hl. exact Hlast.
Qed.

(** The scan of [detectRPeaks] from index [a] on: the peaks stay inside
    the scanned range and more than [max 0 minPeakDistance] apart. *)
Lemma detect_scan (samples : list Q) (threshold : Q) (windowSize mpd lo hi : Z) (n : nat) :
  forall (a z : Z) (peaks : list Z) (lastPeakIdx : Z),
    Z.to_nat z = n -> lo <= a -> (0 < z -> a + z <= hi) ->
    Invariant.spaced (Z.max 0 mpd) peaks ->
    Forall (fun i => lo <= i < hi) peaks ->
    (peaks = [] /\ lastPeakIdx = - mpd \/ last peaks = Some lastPeakIdx /\ lastPeakIdx < a) ->
    let res :=
      fold_left
        (fun (acc : list Z * Z) i =>
           let '(peaks, lastPeakIdx) := acc in
           if cmp JS.Qgtb (sample_at samples i) (Some threshold)
              && (mpd <? i - lastPeakIdx)
           then
             let isMax :=
               forallb (fun j => (j =? i) || negb (cmp JS.Qgeb (sample_at samples j) (sample_at samples i)))
                       (range (i - windowSize) (i + windowSize + 1)) in
             if isMax then (peaks ++ [i], i) else acc
           else acc)
        (seqZ a z) (peaks, lastPeakIdx) in
    Invariant.spaced (Z.max 0 mpd) (fst res) /\ Forall (fun i => lo <= i < hi) (fst res).
Proof.
  induction n as [|n IH]; intros a z peaks lastPeakIdx Hz Hlo Hhi Hsp Hin Hlast.
  - rewrite seqZ_nil by lia. cbn. split; assumption.
  - rewrite seqZ_cons by lia. cbn [fold_left].
    assert (Hnext : peaks = [] /\ lastPeakIdx = - mpd
                    \/ last peaks = Some lastPeakIdx /\ lastPeakIdx < Z.succ a)
      by (destruct Hlast as [?|[? ?]]; [left; assumption|right; split; [assumption|lia]]).
    destruct (cmp JS.Qgtb (sample_at samples a) (Some threshold) && (mpd <? a - lastPeakIdx)) eqn:Et;
      [|apply IH; first [assumption|lia]].
    cbv zeta. destruct (forallb _ _); [|apply IH; first [assumption|lia]].
    apply andb_prop in Et. destruct Et as [_ Et]. apply Z.ltb_lt in Et.
    apply IH; try lia.
    + apply spaced_snoc; [exact Hsp|]. intros l Hl.
      destruct Hlast as [[-> _]|[Hl' Hlt]]; [discriminate Hl|].
      rewrite Hl in Hl'. injection Hl' as ->. lia.
    + apply Forall_app. split; [exact Hin|]. constructor; [lia|constructor].
    + right. split; [apply last_snoc|lia].
Qed.

Lemma detectRPeaks_spaced (samples : list Q) (sr : Q) :
  let windowSize := JS.Math_floor (sr * (1 # 10)) in
  let minPeakDistance := JS.Math_floor (sr * (3 # 10)) in
  Invariant.spaced (Z.max 0 minPeakDistance) (detectRPeaks samples sr)
  /\ Forall (fun i => windowSize <= i < Z.of_nat (length samples) - windowSize)
            (detectRPeaks samples sr).
Proof.
  intros windowSize minPeakDistance. unfold detectRPeaks. cbv zeta.
  fold windowSize minPeakDistance. unfold range.
  eapply detect_scan; [reflexivity|lia|lia|exact I|constructor|left; split; reflexivity].
Qed.

Lemma spaced_gaps (gap : Z) (peaks : list Z) :
  Invariant.spaced gap peaks ->
  Forall (fun d => JS.ofZ (gap + 1) <= d)%Q (peak_gaps peaks).
Proof.
  unfold peak_gaps. induction peaks as [|a r IH]; intros Hs; [constructor|].
  destruct r as [|b r']; [constructor|].
  cbn [tail zip_with]. destruct Hs as [Hab Hs]. constructor.
  - unfold JS.ofZ. rewrite <- Zle_Qle. lia.
  - apply IH. exact Hs.
Qed.

Lemma peak_gaps_length (peaks : list Z) :
  length (peak_gaps peaks) = (length peaks - 1)%nat.
Proof.
  unfold peak_gaps. rewrite length_zip_with. destruct peaks; cbn [tail length]; lia.
Qed.
End PeakFacts.

(** X16. The R peaks found in a strip lie inside the scanned part of it,
    come in increasing order and are more than floor(0.3 * sr) samples
    apart. *)
Theorem detected_peaks_are_spaced (samples : list Q) (sr : Q) :
  let peaks := Risk.detectRPeaks samples sr in
  let windowSize := JS.Math_floor (sr * (1 # 10)) in
  Invariant.spaced (Z.max 0 (JS.Math_floor (sr * (3 # 10)))) peaks
  /\ Forall (fun i => windowSize <= i < Z.of_nat (length samples) - windowSize) peaks.
Proof. exact (detectRPeaks_spaced samples sr). Qed.

Section HeartRateBound.
Import Risk.

Lemma spaced_intervals (rPeaks : list Z) (sr : Q) :
  (0 < sr)%Q ->
  Invariant.spaced (Z.max 0 (JS.Math_floor (sr * (3 # 10)))) rPeaks ->
  Forall (fun x => (3 # 10) <= x)%Q (map (fun d => (d / sr)%Q) (peak_gaps rPeaks)).
Proof.
  intros Hsr Hsp. apply spaced_gaps in Hsp. apply Forall_map.
  eapply Forall_impl; [exact Hsp|]. cbv beta. intros d Hd.
  apply Qle_shift_div_l; [exact Hsr|].
  pose proof (Qlt_floor (sr * (3 # 10))) as Hfl.
  assert (Hmax : (inject_Z (Qfloor (sr * (3 # 10)) + 1)
                  <= JS.ofZ (Z.max 0 (JS.Math_floor (sr * (3 # 10))) + 1))%Q)
    by (unfold JS.ofZ, JS.Math_floor; rewrite <- Zle_Qle; lia).
  lra.
Qed.

(** With beats more than 0.3 s apart the mean interval is at least
    0.3 s, so the rate is at most 200 and the interval at least 300. *)
Lemma heart_rate_of_spaced (rPeaks : list Z) (sr q r : Q) (st : status) :
  (0 < sr)%Q ->
  Invariant.spaced (Z.max 0 (JS.Math_floor (sr * (3 # 10)))) rPeaks ->
  calculateHeartRate rPeaks sr = mkHr (Num q) st (Num r) ->
  (0 <= q /\ q <= 200)%Q /\ (300 <= r)%Q.
Proof.
  intros Hsr Hsp. unfold calculateHeartRate.
  destruct (length rPeaks <? 2)%nat eqn:Elen; [discriminate|].
  apply Nat.ltb_ge in Elen. cbv zeta. intros [= <- _ <-].
  set (rr := map (fun d => (d / sr)%Q) (peak_gaps rPeaks)).
  assert (Hne : rr <> []).
  { intros Hnil. apply (f_equal length) in Hnil. unfold rr in Hnil.
    rewrite length_map, peak_gaps_length in Hnil. cbn in Hnil. lia. }
  pose proof (spaced_intervals rPeaks sr Hsr Hsp) as Hall. fold rr in Hall.
  assert (Hpos : (0 < JS.ofNat (length rr))%Q)
    by (apply ofNat_pos; destruct rr; [congruence|cbn; lia]).
  assert (Havg : (3 # 10 <= JS.sum rr / JS.ofNat (length rr))%Q).
  { apply Qle_shift_div_l; [exact Hpos|]. apply sum_ge. exact Hall. }
  set (avgRR := (JS.sum rr / JS.ofNat (length rr))%Q) in *.
  assert (Hrate : (0 <= 60 / avgRR /\ 60 / avgRR <= 200)%Q).
  { split.
    - apply Qle_shift_div_l; lra.
    - apply Qle_shift_div_r; lra. }
  destruct Hrate as [Hlo Hhi].
  destruct (round_between 0 200 (60 / avgRR)) as [H0 H200];
    [exact Hlo|exact Hhi|].
  pose proof (round_ge 300 (avgRR * 1000)) as H300.
  unfold JS.ofZ in *. repeat split.
  - change 0%Q with (inject_Z 0). rewrite <- Zle_Qle. exact H0.
  - change 200%Q with (inject_Z 200). rewrite <- Zle_Qle. exact H200.
  - change 300%Q with (inject_Z 300). rewrite <- Zle_Qle. apply H300.
    change (inject_Z 300) with 300%Q. lra.
Qed.
End HeartRateBound.

(** X17. Whatever the strip, a heart rate that the risk panel reports
    lies between 0 and 200 bpm and the mean R-R interval it reports is at
    least 300 ms: the peak detector keeps beats more than 0.3 s apart. *)
Theorem risk_heart_rate_at_most_200 (samples : list Q) (sr q r : Q) (st : Risk.status) :
  (0 < sr)%Q ->
  Risk.calculateHeartRate (Risk.detectRPeaks samples sr) sr
  = Risk.mkHr (Risk.Num q) st (Risk.Num r) ->
  (0 <= q /\ q <= 200)%Q /\ (300 <= r)%Q.
Proof.
  intros Hsr. apply heart_rate_of_spaced; [exact Hsr|].
  exact (proj1 (detectRPeaks_spaced samples sr)).
Qed.

Lemma risk_heart_rate_at_most_200_witness :
  (0 < 125)%Q
  /\ Risk.calculateHeartRate (Risk.detectRPeaks (strip 400 [50; 217]%nat) 125) 125
     = Risk.mkHr (Risk.Num 45) Risk.warning (Risk.Num 1336)
  /\ ((0 <= 45 /\ 45 <= 200)%Q /\ (300 <= 1336)%Q).
Proof.
  assert (Hsr : (0 < 125)%Q) by reflexivity.
  assert (Hhr : Risk.calculateHeartRate (Risk.detectRPeaks (strip 400 [50; 217]%nat) 125) 125
                = Risk.mkHr (Risk.Num 45) Risk.warning (Risk.Num 1336))
    by (vm_compute; reflexivity).
  split; [exact Hsr|]. split; [exact Hhr|].
  exact (risk_heart_rate_at_most_200 _ _ _ _ _ Hsr Hhr).
Defined.

Lemma contribution_bounds (s : Risk.status) (a b : Z) (sa sb : string) :
  1 <= a -> a <= b ->
  let c := Risk.contribution s (a, sa) (b, sb) in
  let n := Z.of_nat (length (snd c)) in
  0 <= n <= 1 /\ n <= fst c /\ fst c <= b * n.
Proof. intros Ha Hab. destruct s; cbn; lia. Qed.

(** X18. The risk score is between 0 and 11, it is at least the number
    of factors listed, of which there are at most five, it is 0 exactly
    when no factor is listed, and the level is high from 6, medium from 3
    and low below. *)
Theorem risk_score_bounds (hr : Risk.HrData) (hrv : Risk.HrvData) (qrs : Risk.QrsData)
    (qt : Risk.QtData) (st : Risk.StData) :
  let r := Risk.calculateRiskScore hr hrv qrs qt st in
  0 <= Risk.score r <= 11
  /\ Z.of_nat (length (Risk.factors r)) <= Risk.score r
  /\ (length (Risk.factors r) <= 5)%nat
  /\ (Risk.score r = 0 <-> Risk.factors r = [])
  /\ (Risk.risk_level r = Risk.high <-> 6 <= Risk.score r)
  /\ (Risk.risk_level r = Risk.medium <-> 3 <= Risk.score r < 6)
  /\ (Risk.risk_level r = Risk.low <-> Risk.score r < 3).
Proof.
  intros r. subst r. unfold Risk.calculateRiskScore. cbv zeta.
  pose proof (contribution_bounds (Risk.hr_status hr) 1 2 "HR abnormal" "HR critical"
                ltac:(lia) ltac:(lia)) as B1.
  pose proof (contribution_bounds (Risk.hrv_status hrv) 1 2 "Low HRV" "Very low HRV"
                ltac:(lia) ltac:(lia)) as B2.
  pose proof (contribution_bounds (Risk.qrs_status qrs) 1 2 "Wide QRS" "QRS >120ms"
                ltac:(lia) ltac:(lia)) as B3.
  pose proof (contribution_bounds (Risk.qt_status qt) 1 2 "Borderline QTc" "Prolonged QTc"
                ltac:(lia) ltac:(lia)) as B4.
  pose proof (contribution_bounds (Risk.st_status st) 1 3 "ST deviation"
                "Significant ST change" ltac:(lia) ltac:(lia)) as B5.
  cbv zeta in B1, B2, B3, B4, B5.
  set (c1 := Risk.contribution (Risk.hr_status hr) _ _) in *.
  set (c2 := Risk.contribution (Risk.hrv_status hrv) _ _) in *.
  set (c3 := Risk.contribution (Risk.qrs_status qrs) _ _) in *.
  set (c4 := Risk.contribution (Risk.qt_status qt) _ _) in *.
  set (c5 := Risk.contribution (Risk.st_status st) _ _) in *.
  clearbody c1 c2 c3 c4 c5.
  cbn [fold_left flat_map Risk.score Risk.factors Risk.risk_level].
  rewrite <- length_zero_iff_nil, !length_app. cbn [length].
  set (score := 0 + fst c1 + fst c2 + fst c3 + fst c4 + fst c5).
  assert (Hscore : score = fst c1 + fst c2 + fst c3 + fst c4 + fst c5) by (unfold score; lia).
  clearbody score.
  repeat split; try lia.
  all: destruct (6 <=? score) eqn:E6; [apply Z.leb_le in E6|apply Z.leb_gt in E6];
    try (destruct (3 <=? score) eqn:E3; [apply Z.leb_le in E3|apply Z.leb_gt in E3]);
    intros; first [lia | discriminate | reflexivity].
Qed.

Section FewBeats.
Context `{Host}.
Import Risk.

Lemma qrs_status_cases (samples : list Q) (rPeaks : list Z) (sr : Q) :
  (length rPeaks < 1)%nat -> qrs_status (estimateQRSDuration samples rPeaks sr) = unknown.
Proof.
  intros Hlen. unfold estimateQRSDuration.
  apply Nat.ltb_lt in Hlen. rewrite Hlen. reflexivity.
Qed.

Lemma few_beats_metrics (samples : list Q) (rPeaks : list Z) (sr : Q) :
  (length rPeaks < 2)%nat ->
  let hrData := calculateHeartRate rPeaks sr in
  let hrvData := calculateHRV rPeaks sr in
  let qrsData := estimateQRSDuration samples rPeaks sr in
  let qtData := estimateQTInterval rPeaks (hr hrData) in
  let stData := checkSTDeviation samples rPeaks sr in
  let risk := calculateRiskScore hrData hrvData qrsData qtData stData in
  hrData = mkHr Unavailable unknown Unavailable
  /\ hrvData = mkHrv Unavailable Unavailable unknown
  /\ qtData = mkQt Unavailable Unavailable unknown
  /\ stData = mkSt Unavailable unknown
  /\ risk_level risk = low /\ score risk <= 2.
Proof.
  intros Hlen. cbv zeta.
  assert (Hhr : calculateHeartRate rPeaks sr = mkHr Unavailable unknown Unavailable).
  { unfold calculateHeartRate. apply Nat.ltb_lt in Hlen. rewrite Hlen. reflexivity. }
  assert (Hhrv : calculateHRV rPeaks sr = mkHrv Unavailable Unavailable unknown).
  { unfold calculateHRV.
    replace (length rPeaks <? 3)%nat with true by (symmetry; apply Nat.ltb_lt; lia).
    reflexivity. }
  assert (Hst : checkSTDeviation samples rPeaks sr = mkSt Unavailable unknown).
  { unfold checkSTDeviation. apply Nat.ltb_lt in Hlen. rewrite Hlen. reflexivity. }
  rewrite Hhr, Hhrv, Hst. cbn [hr estimateQTInterval].
  repeat split; unfold calculateRiskScore; cbv zeta;
    cbn [hr_status hrv_status qt_status st_status];
    destruct (qrs_status (estimateQRSDuration samples rPeaks sr)); cbn; first [reflexivity|lia].
Qed.
End FewBeats.

(** X19. A strip long enough to be analysed in which the detector finds
    fewer than two beats (a flat line, for one) gets no heart rate, no
    variability, no QT and no ST figure, and its overall risk is
    reported as low, with a score of at most 2. *)
Theorem few_beats_read_as_low_risk `{Host} (samples : list Q) (sr : Q) :
  JS.Qltb (JS.ofNat (length samples)) (sr * 2) = false ->
  (length (Risk.detectRPeaks samples sr) < 2)%nat ->
  let m := Risk.metrics (Some (Risk.mkLeadData (Some samples))) sr in
  Risk.m_hr m = Risk.mkHr Risk.Unavailable Risk.unknown Risk.Unavailable
  /\ Risk.m_hrv m = Risk.mkHrv Risk.Unavailable Risk.Unavailable Risk.unknown
  /\ Risk.m_qt m = Risk.mkQt Risk.Unavailable Risk.Unavailable Risk.unknown
  /\ Risk.m_st m = Risk.mkSt Risk.Unavailable Risk.unknown
  /\ Risk.risk_level (Risk.m_risk m) = Risk.low
  /\ Risk.score (Risk.m_risk m) <= 2.
Proof.
  intros Hlong Hfew m. subst m. unfold Risk.metrics, Risk.analyse.
  cbn [mbind option_bind Risk.leadII]. rewrite Hlong. cbv zeta.
  cbn [snd Risk.m_hr Risk.m_hrv Risk.m_qt Risk.m_st Risk.m_risk].
  exact (few_beats_metrics samples (Risk.detectRPeaks samples sr) sr Hfew).
Qed.

Lemma few_beats_read_as_low_risk_witness :
  let flat := replicate 250 0%Q in
  JS.Qltb (JS.ofNat (length flat)) (125 * 2) = false
  /\ (length (Risk.detectRPeaks flat 125) < 2)%nat
  /\ Risk.risk_level
       (Risk.m_risk (@Risk.metrics csv_host (Some (Risk.mkLeadData (Some flat))) 125))
     = Risk.low.
Proof.
  intros flat.
  assert (Hlong : JS.Qltb (JS.ofNat (length flat)) (125 * 2) = false) by (vm_compute; reflexivity).
  assert (Hfew : (length (Risk.detectRPeaks flat 125) < 2)%nat) by (vm_compute; lia).
  split; [exact Hlong|]. split; [exact Hfew|].
  exact (proj1 (proj2 (proj2 (proj2 (proj2
           (@few_beats_read_as_low_risk csv_host flat 125 Hlong Hfew)))))).
Defined.

Section QrsRange.
Import Risk.

Lemma qrs_widths_in_range (samples : list Q) (rPeaks : list Z) (sr : Q) :
  let searchWindow := JS.Math_floor (sr * (1 # 10)) in
  let len := Z.of_nat (length samples) in
  Forall (fun x => 40 <= x /\ x <= 200)%Q
    (flat_map
       (fun peakIdx =>
          let peakAmp := sample_at samples peakIdx in
          let back := rev (range (Z.max 0 (peakIdx - searchWindow) + 1) (peakIdx + 1)) in
          let forth := range peakIdx (Z.min len (peakIdx + searchWindow)) in
          let qStart := default peakIdx (List.find (below_fraction samples peakAmp) back) in
          let qEnd := default peakIdx (List.find (below_fraction samples peakAmp) forth) in
          let qrsMs := (JS.ofZ (qEnd - qStart) / sr * 1000)%Q in
          if JS.Qgtb qrsMs 40 && JS.Qltb qrsMs 200 then [qrsMs] else [])
       rPeaks).
Proof.
  intros searchWindow len. induction rPeaks as [|p r IH]; [constructor|].
  cbn [flat_map]. apply Forall_app. split; [|exact IH].
  cbv zeta.
  match goal with
  | |- Forall _ (if ?c then _ else _) => destruct c eqn:Ec; [|constructor]
  end.
  apply andb_prop in Ec. destruct Ec as [Hgt Hlt].
  apply Qgtb_lt in Hgt. apply Qltb_lt in Hlt.
  constructor; [|constructor]. split; lra.
Qed.
End QrsRange.

(** X20. A QRS duration that the risk panel reports is between 40 and
    200 ms: widths outside that range are left out of the average. *)
Theorem qrs_duration_in_sanity_range (samples : list Q) (rPeaks : list Z) (sr q : Q) :
  Risk.duration (Risk.estimateQRSDuration samples rPeaks sr) = Risk.Num q ->
  (40 <= q /\ q <= 200)%Q.
Proof.
  unfold Risk.estimateQRSDuration.
  destruct (length rPeaks <? 1)%nat; [discriminate|]. cbv zeta.
  pose proof (qrs_widths_in_range samples rPeaks sr) as Hall. cbv zeta in Hall.
  match type of Hall with Forall _ ?l => set (qrsWidths := l) in * end.
  destruct (length qrsWidths =? 0)%nat eqn:E0; [discriminate|].
  apply Nat.eqb_neq in E0. cbn [Risk.duration]. intros [= <-].
  assert (Hne : qrsWidths <> []) by (intros Hn; apply E0; rewrite Hn; reflexivity).
  destruct (mean_between 40 200 qrsWidths Hne Hall) as [Hlo Hhi].
  destruct (round_between 40 200 (JS.sum qrsWidths / JS.ofNat (length qrsWidths)))
    as [H40 H200]; [exact Hlo|exact Hhi|].
  unfold JS.ofZ. split.
  - change 40%Q with (inject_Z 40). rewrite <- Zle_Qle. exact H40.
  - change 200%Q with (inject_Z 200). rewrite <- Zle_Qle. exact H200.
Qed.

Lemma qrs_duration_in_sanity_range_witness :
  let samples := [0; 0; 0; 1; 1; 1; 2; 1; 1; 1; 0; 0; 0]%Q in
  Risk.duration (Risk.estimateQRSDuration samples [6] 125) = Risk.Num 64
  /\ (40 <= 64 /\ 64 <= 200)%Q.
Proof.
  intros samples.
  assert (Hd : Risk.duration (Risk.estimateQRSDuration samples [6] 125) = Risk.Num 64)
    by (vm_compute; reflexivity).
  split; [exact Hd|].
  exact (qrs_duration_in_sanity_range samples [6] 125 64 Hd).
Defined.

(** ** HRV engine: figures that are counts and squares *)

Section HrvBounds.
Context `{Host}.
Import HRV.

Lemma filter_length_mono {A} (f g : A -> bool) (l : list A) :
  (forall x, f x = true -> g x = true) ->
  (length (List.filter f l) <= length (List.filter g l))%nat.
Proof.
  intros Himp. induction l as [|x l IH]; [reflexivity|]. cbn [List.filter].
  destruct (f x) eqn:Ef.
  - rewrite (Himp x Ef). cbn. lia.
  - destruct (g x); cbn; lia.
Qed.

Lemma filter_length_le {A} (f : A -> bool) (l : list A) :
  (length (List.filter f l) <= length l)%nat.
Proof.
  induction l as [|x l IH]; [reflexivity|]. cbn [List.filter].
  destruct (f x); cbn; lia.
Qed.

Lemma successive_length (rr : list Q) : length (successive rr) = (length rr - 1)%nat.
Proof.
  unfold successive. rewrite length_zip_with. destruct rr; cbn [tail length]; lia.
Qed.

Lemma nn_count_mono (rr : list Q) : (nn_count 50 rr <= nn_count 20 rr)%nat.
Proof.
  unfold nn_count. apply filter_length_mono. intros d Hd.
  apply Qgtb_lt in Hd. apply Qgtb_lt. lra.
Qed.

Lemma nn_count_le (ms : Q) (rr : list Q) : (nn_count ms rr <= length rr - 1)%nat.
Proof. unfold nn_count. rewrite <- successive_length. apply filter_length_le. Qed.

Lemma ofNat_le (a b : nat) : (a <= b)%nat -> (JS.ofNat a <= JS.ofNat b)%Q.
Proof. intros Hab. unfold JS.ofNat. rewrite <- Zle_Qle. lia. Qed.

Lemma pnn_bounds (rr : list Q) :
  (0 <= pnn_of 50 rr /\ pnn_of 50 rr <= pnn_of 20 rr /\ pnn_of 20 rr <= 100)%Q.
Proof.
  unfold pnn_of. destruct (1 <? length rr)%nat eqn:E; [|repeat split; lra].
  apply Nat.ltb_lt in E.
  assert (Hn : (0 < JS.ofNat (length rr) - 1)%Q).
  { pose proof (ofNat_le 2 (length rr) ltac:(lia)) as H2.
    change (JS.ofNat 2) with 2%Q in H2. lra. }
  pose proof (ofNat_le 0 (nn_count 50 rr) ltac:(lia)) as H0.
  change (JS.ofNat 0) with 0%Q in H0.
  pose proof (ofNat_le _ _ (nn_count_mono rr)) as Hmono.
  pose proof (ofNat_le _ _ (nn_count_le 20 rr)) as Hle.
  assert (Hlen : (JS.ofNat (length rr - 1) == JS.ofNat (length rr) - 1)%Q).
  { unfold JS.ofNat. rewrite Nat2Z.inj_sub by lia. unfold Zminus.
    rewrite inject_Z_plus. reflexivity. }
  rewrite Hlen in Hle.
  set (d := (JS.ofNat (length rr) - 1)%Q) in *.
  set (c50 := JS.ofNat (nn_count 50 rr)) in *.
  set (c20 := JS.ofNat (nn_count 20 rr)) in *.
  assert (H50 : (0 <= c50 / d)%Q) by (apply Qle_shift_div_l; lra).
  assert (Hord : (c50 / d <= c20 / d)%Q).
  { apply Qle_shift_div_l; [exact Hn|].
    assert (Heq : (c50 / d * d == c50)%Q) by (field; lra). lra. }
  assert (H20 : (c20 / d <= 1)%Q) by (apply Qle_shift_div_r; lra).
  repeat split; lra.
Qed.

Lemma round1_mono (x y : Q) : (x <= y)%Q -> (round1 x <= round1 y)%Q.
Proof.
  intros Hxy. unfold round1.
  assert (Hr : (JS.ofZ (JS.Math_round (x * 10)) <= JS.ofZ (JS.Math_round (y * 10)))%Q).
  { unfold JS.ofZ, JS.Math_round. rewrite <- Zle_Qle. apply Qfloor_resp_le. lra. }
  apply Qle_shift_div_l; [reflexivity|].
  assert (Heq : (JS.ofZ (JS.Math_round (x * 10)) / 10 * 10
                 == JS.ofZ (JS.Math_round (x * 10)))%Q) by (field; lra).
  lra.
Qed.

Lemma round_nonneg (x : Q) : (0 <= x)%Q -> (0 <= JS.ofZ (JS.Math_round x))%Q.
Proof.
  intros Hx. unfold JS.ofZ. change 0%Q with (inject_Z 0). rewrite <- Zle_Qle.
  apply round_ge. exact Hx.
Qed.

Lemma frequency_bounds (rr : list Q) :
  let '(hfPower, lfPower, lfHfRatio) := frequency rr in
  (0 <= hfPower /\ 0 <= lfPower /\ 0 <= lfHfRatio)%Q.
Proof.
  unfold frequency. destruct (10 <=? length rr)%nat; [|repeat split; lra].
  cbv zeta. set (rmssd := rmssd_of rr).
  assert (Hsq : (0 <= rmssd * rmssd / 100)%Q).
  { apply Qle_shift_div_l; [reflexivity|]. nra. }
  pose proof (round_nonneg _ Hsq) as Hhf.
  set (hf := (JS.ofZ (JS.Math_round (rmssd * rmssd / 100)) / 10)%Q).
  assert (Hhf0 : (0 <= hf)%Q) by (unfold hf; apply Qle_shift_div_l; lra).
  pose proof (Q.le_max_l 0 (JS.ofZ (JS.Math_round ((variance rr / 100 - hf) * 10)) / 10)) as Hlf.
  set (lf := Qmax 0 _) in *.
  split; [exact Hhf0|]. split; [exact Hlf|].
  destruct (JS.Qgtb hf (1 # 100)) eqn:Eg; [|lra].
  apply Qgtb_lt in Eg.
  assert (Hratio : (0 <= lf / hf * 100)%Q).
  { assert (Hq : (0 <= lf / hf)%Q) by (apply Qle_shift_div_l; lra). lra. }
  pose proof (round_nonneg _ Hratio) as Hr.
  apply Qle_shift_div_l; lra.
Qed.

Lemma respiratory_bound (x : Q) : JS.Math_round (12 + Qmin 8 x) <= 20.
Proof.
  apply round_le. pose proof (Q.le_min_l 8 x) as Hm.
  unfold JS.ofZ. change (inject_Z 20) with 20%Q. lra.
Qed.
End HrvBounds.

(** X21. The two pNN figures are percentages and are ordered: pNN50
    counts a subset of the differences pNN20 counts, so
    0 <= pNN50 <= pNN20 <= 100 also after rounding to one decimal. *)
Theorem pnn_figures_ordered `{Host} (rrZ : list Z) (st : HRV.status) (m : HRV.metrics) :
  HRV.calculateAdvancedHRV rrZ = Some (st, m) ->
  (0 <= HRV.pnn50 m /\ HRV.pnn50 m <= HRV.pnn20 m /\ HRV.pnn20 m <= 100)%Q.
Proof.
  unfold HRV.calculateAdvancedHRV. cbv zeta.
  destruct (length (map JS.ofZ rrZ) <? 3)%nat; [discriminate|].
  destruct (HRV.frequency (map JS.ofZ rrZ)) as [[hf lf] ratio].
  intros [= _ <-]. cbn [HRV.pnn50 HRV.pnn20].
  destruct (pnn_bounds (map JS.ofZ rrZ)) as (H0 & Hord & H100).
  pose proof (round1_mono _ _ H0) as R0.
  pose proof (round1_mono _ _ Hord) as Rord.
  pose proof (round1_mono _ _ H100) as R100.
  assert (E0 : (HRV.round1 0 == 0)%Q) by reflexivity.
  assert (E100 : (HRV.round1 100 == 100)%Q) by reflexivity.
  repeat split; lra.
Qed.

Lemma pnn_figures_ordered_witness :
  exists st m,
    @HRV.calculateAdvancedHRV csv_host [800; 860; 830; 800] = Some (st, m)
    /\ (0 <= HRV.pnn50 m /\ HRV.pnn50 m <= HRV.pnn20 m /\ HRV.pnn20 m <= 100)%Q.
Proof.
  destruct (@HRV.calculateAdvancedHRV csv_host [800; 860; 830; 800]) as [[st m]|] eqn:E.
  - exists st, m. split; [reflexivity|].
    exact (@pnn_figures_ordered csv_host _ _ _ E).
  - vm_compute in E. discriminate E.
Defined.

(** X22. The frequency figures are never negative, whatever the square
    root the host returns, and the respiratory rate shown is at most 20
    breaths per minute. *)
Theorem frequency_figures_not_negative `{Host} (rrZ : list Z) (st : HRV.status)
    (m : HRV.metrics) :
  HRV.calculateAdvancedHRV rrZ = Some (st, m) ->
  (0 <= HRV.hfPower m /\ 0 <= HRV.lfPower m /\ 0 <= HRV.lfHfRatio m)%Q
  /\ HRV.respiratoryRate m <= 20.
Proof.
  unfold HRV.calculateAdvancedHRV. cbv zeta.
  destruct (length (map JS.ofZ rrZ) <? 3)%nat; [discriminate|].
  pose proof (frequency_bounds (map JS.ofZ rrZ)) as Hf.
  destruct (HRV.frequency (map JS.ofZ rrZ)) as [[hf lf] ratio].
  intros [= _ <-]. cbn [HRV.hfPower HRV.lfPower HRV.lfHfRatio HRV.respiratoryRate].
  split; [exact Hf|apply respiratory_bound].
Qed.

Lemma frequency_figures_not_negative_witness :
  exists st m,
    @HRV.calculateAdvancedHRV csv_host
       [800; 815; 800; 815; 800; 815; 800; 800; 800; 800] = Some (st, m)
    /\ ((0 <= HRV.hfPower m /\ 0 <= HRV.lfPower m /\ 0 <= HRV.lfHfRatio m)%Q
        /\ HRV.respiratoryRate m <= 20).
Proof.
  destruct (@HRV.calculateAdvancedHRV csv_host
              [800; 815; 800; 815; 800; 815; 800; 800; 800; 800]) as [[st m]|] eqn:E.
  - exists st, m. split; [reflexivity|].
    exact (@frequency_figures_not_negative csv_host _ _ _ E).
  - vm_compute in E. discriminate E.
Defined.

(** ** Numbers read from a token *)

Section TokenFacts.






End TokenFacts.

